(** * balanced_recipe_book: ingredient matching and macro-balance scoring

    A shallow embedding of [src/balanced_recipe_book.py].

    - Python [str] values are sequences of code points; here a string is a
      [string] over [ascii], read as the code points 0..255 (Latin-1), and
      the character tables ([str.lower], [str.isalnum], [str.isspace]) are
      the ones Python uses on that range.
    - Python [set] is stdpp's [gset], [dict] is [gmap]; the two module-level
      dictionaries that the code iterates over are association lists in
      insertion order.
    - Python [float] is abstracted by the class [PyFloat] with two
      instances: IEEE binary64 (Rocq's primitive floats, what the interpreter
      computes) and exact rationals (what the formulas mean).
    - [main] is a function of the parsed command line and of an explicit
      world (standard input, file system); [Path] is pathlib's path of a
      POSIX system.
    - An entry of the recipe file is given by what [Recipe.from_dict]
      reads in it: for each key, that it is absent, that reading it
      raises, or the value that [int], [float] or [str] make of it.
    - [format_macros] and [describe_recipe] are embedded for binary64
      macros, with Python's fixed-point formatting of a float. *)

From Stdlib Require Import Floats QArith Qabs Lia Psatz Permutation Sorted.
From Stdlib Require Import Ascii String List.
From Stdlib Require DecimalString.
From stdpp Require Import base gmap sets list strings.
Import ListNotations.

Local Open Scope bool_scope.

(** ** Characters and strings *)

Module Chars.

Definition code (ch : ascii) : N := N_of_ascii ch.

Definition between (lo hi n : N) : bool := ((lo <=? n) && (n <=? hi))%N.

(** [str.isspace] on one code point: HT, LF, VT, FF, CR, the separators
    FS, GS, RS, US, space, NEL and the no-break space. *)
Definition isspace (ch : ascii) : bool :=
  let n := code ch in
  between 9 13 n || between 28 32 n || (n =? 133)%N || (n =? 160)%N.

(** Upper-case letters that [str.lower] maps 32 places up. *)
Definition isupper (ch : ascii) : bool :=
  let n := code ch in
  between 65 90 n || between 192 214 n || between 216 222 n.

(** [str.isalnum] on one code point: decimal digits, the ASCII letters,
    the Latin-1 letters (with the ordinal indicators and the micro sign)
    and the Latin-1 superscript digits and vulgar fractions. *)
Definition isalnum (ch : ascii) : bool :=
  let n := code ch in
  between 48 57 n || between 65 90 n || between 97 122 n
  || (n =? 170)%N || between 178 179 n || (n =? 181)%N
  || between 185 186 n || between 188 190 n
  || between 192 214 n || between 216 246 n || between 248 255 n.

Definition lower (ch : ascii) : ascii :=
  if isupper ch then ascii_of_N (code ch + 32) else ch.

Definition space : ascii := " "%char.

End Chars.

(** A Python [str] as its list of characters. *)
Abbreviation chars := (list ascii).

Module Str.

(** [value.lower()] *)
Definition lower (value : chars) : chars := map Chars.lower value.

(** [phrase.split()]: the maximal runs of non-whitespace characters. *)
Fixpoint split (phrase : chars) : list chars :=
  match phrase with
  | [] => []
  | ch :: rest =>
      if Chars.isspace ch then split rest
      else match rest with
           | [] => [[ch]]
           | nxt :: _ =>
               if Chars.isspace nxt then [ch] :: split rest
               else match split rest with
                    | word :: words => (ch :: word) :: words
                    | [] => [[ch]]
                    end
           end
  end.

(** [sep.join(words)] *)
Fixpoint join (sep : chars) (words : list chars) : chars :=
  match words with
  | [] => []
  | [word] => word
  | word :: more => word ++ sep ++ join sep more
  end.

Fixpoint lstrip (s : chars) : chars :=
  match s with
  | ch :: rest => if Chars.isspace ch then lstrip rest else s
  | [] => []
  end.

(** [s.strip()] *)
Definition strip (s : chars) : chars := rev (lstrip (rev (lstrip s))).

(** [chunk.split(",")]: the pieces between commas, empty ones included;
    never an empty list. *)
Fixpoint split_on (sep : ascii) (chunk : chars) : list chars :=
  match chunk with
  | [] => [[]]
  | ch :: rest =>
      if Ascii.eqb ch sep then [] :: split_on sep rest
      else match split_on sep rest with
           | piece :: pieces => (ch :: piece) :: pieces
           | [] => [[ch]]
           end
  end.

End Str.

(** ** [normalize_token] (lines 18-21) *)

Definition keep_char (ch : ascii) : bool := Chars.isalnum ch || Chars.isspace ch.

Definition normalize_chars (value : chars) : chars :=
  let cleaned := List.filter keep_char (Str.lower value) in
  Str.strip (Str.join [Chars.space] (Str.split cleaned)).

Definition normalize_token (value : string) : string :=
  string_of_list_ascii (normalize_chars (list_ascii_of_string value)).

(** ** Python floats

    The arithmetic the program performs on [float] values (and on [int]
    values that are divided with [/], which Python converts to [float]
    first).  Comparisons are the IEEE ones: [x >= y] is [y <= x]. *)

Class PyFloat (F : Type) : Type := {
  of_int : nat → F;
  add : F → F → F;
  sub : F → F → F;
  mul : F → F → F;
  div : F → F → F;
  fabs : F → F;
  leb : F → F → bool;
  ltb : F → F → bool;
}.

Declare Scope py_scope.
Delimit Scope py_scope with py.
Infix "+" := add : py_scope.
Infix "-" := sub : py_scope.
Infix "*" := mul : py_scope.
Infix "/" := div : py_scope.
Infix "<=?" := leb : py_scope.
Infix "<?" := ltb : py_scope.

(** IEEE 754 binary64 with round-to-nearest-even: CPython's [float].  The
    conversion of a count is exact below 2^53. *)
#[export] Instance binary64 : PyFloat float := {|
  of_int n := PrimFloat.of_uint63 (Uint63.of_Z (Z.of_nat n));
  add := PrimFloat.add;
  sub := PrimFloat.sub;
  mul := PrimFloat.mul;
  div := PrimFloat.div;
  fabs := PrimFloat.abs;
  leb := PrimFloat.leb;
  ltb := PrimFloat.ltb;
|}.

(** Exact rational arithmetic: the same program without rounding. *)
#[export] Instance exact : PyFloat Q := {|
  of_int n := inject_Z (Z.of_nat n);
  add := Qplus;
  sub := Qminus;
  mul := Qmult;
  div := Qdiv;
  fabs := Qabs;
  leb := Qle_bool;
  ltb x y := negb (Qle_bool y x);
|}.

(** An insertion-ordered [dict] with string keys. *)
Abbreviation odict V := (list (string * V)).

Definition keys {V} (d : odict V) : list string := map fst d.

Fixpoint getitem {V} (d : odict V) (key : string) (missing : V) : V :=
  match d with
  | [] => missing
  | (k, v) :: rest => if String.eqb k key then v else getitem rest key missing
  end.

Section Program.

Context {F : Type} `{PyFloat F}.

Local Open Scope py_scope.

(** A decimal literal [n/d], for instance [0.6] as [lit 6 10]: the
    value nearest to the quotient. *)
Definition lit (n d : nat) : F := of_int n / of_int d.

Definition zero : F := of_int 0.
Definition one : F := of_int 1.

(** [min(a, b)] and [max(a, b)] as the builtins compute them: the first
    argument is kept unless the second is strictly better. *)
Definition py_min (a b : F) : F := if b <? a then b else a.
Definition py_max (a b : F) : F := if a <? b then b else a.

(** [sum(values)] starts from the integer 0. *)
Definition py_sum (values : list F) : F := fold_left add values zero.

(** Lines 13-15. *)
Definition CAL_FACTORS : odict nat := [("carbs", 4); ("protein", 4); ("fat", 9)].
Definition TARGET_RATIOS : odict F :=
  [("carbs", lit 4 10); ("protein", lit 3 10); ("fat", lit 3 10)].
Definition RATIO_TOLERANCE : F := lit 1 10.

(** *** Matcher (lines 46-64) *)

Definition tokenize (phrase : string) : gset string :=
  list_to_set (map string_of_list_ascii (Str.split (list_ascii_of_string phrase))).

Definition coverage_of (ingredient_tokens item_tokens : gset string) : F :=
  of_int (size (ingredient_tokens ∩ item_tokens))
  / of_int (Nat.min (size ingredient_tokens) (size item_tokens)).

(** The [for item in pantry] loop, over the items in iteration order. *)
Fixpoint scan_pantry (ingredient_tokens : gset string) (items : list string) : bool :=
  match items with
  | [] => false
  | item :: rest =>
      let item_tokens := tokenize item in
      if decide (item_tokens = ∅) then scan_pantry ingredient_tokens rest
      else
        let overlap := size (ingredient_tokens ∩ item_tokens) in
        if Nat.eqb overlap 0 then scan_pantry ingredient_tokens rest
        else if lit 6 10 <=? coverage_of ingredient_tokens item_tokens then true
        else scan_pantry ingredient_tokens rest
  end.

Definition ingredient_matches (ingredient : string) (pantry : gset string) : bool :=
  let ingredient_tokens := tokenize ingredient in
  if decide (ingredient_tokens = ∅) then false
  else scan_pantry ingredient_tokens (elements pantry).

(** *** Recipes (lines 67-158) *)

Record Recipe : Type := {
  name : string;
  servings : Z;
  core_ingredients : list string;
  supporting_ingredients : list string;
  instructions : list string;
  macros : gmap string F;
  tags : list string;
  notes : string;
}.

(** What [Recipe.from_dict] finds when it reads a key of an entry with
    [data.get(key, default)] and iterates or converts the value. *)
Inductive Field (A : Type) : Type :=
| Absent
| Invalid
| Value (value : A).

Arguments Absent {A}.
Arguments Invalid {A}.
Arguments Value {A} value.

(** One entry of the list that [json.load] returns, as [Recipe.from_dict]
    reads it.  [Absent]: the key is not in the entry.  [Invalid]: the read
    raises, because the entry is not an object ([data.get] does not
    exist), or because of the value: one that [int] rejects for
    [servings]; one that cannot be iterated for [instructions] and [tags];
    one that cannot be iterated or yields an item that is not a string for
    the two ingredient lists ([item.lower()] raises); one that is not an
    object or has a value that [float] rejects for [macros].  [Value]:
    what the read gives, after [int], [float] and [str]: the integer for
    [servings], the items of the ingredient lists, the [str] of each
    instruction and tag, the [float] of each macro.  [str] accepts every
    value, so [data_name] and [data_notes] hold the string made of the
    value, or [None] when the key is not in the entry. *)
Record RecipeData : Type := {
  data_name : option string;
  data_servings : Field Z;
  data_core_ingredients : Field (list string);
  data_supporting_ingredients : Field (list string);
  data_instructions : Field (list string);
  data_macros : Field (gmap string F);
  data_tags : Field (list string);
  data_notes : option string;
}.

(** [data.get(key, default)], iterated or converted: [None] when that
    raises. *)
Definition read {A : Type} (field : Field A) (default : A) : option A :=
  match field with
  | Absent => Some default
  | Invalid => None
  | Value value => Some value
  end.

Definition truthy (item : string) : bool := negb (String.eqb item "").

Definition norm_list (items : list string) : list string :=
  let normalized := map normalize_token items in
  List.filter truthy normalized.

(** [None]: an exception escapes, the [KeyError] of [data["name"]] or
    what a read raises. *)
Definition from_dict (data : RecipeData) : option Recipe :=
  core ← norm_list <$> read (data_core_ingredients data) [];
  supporting ← norm_list <$> read (data_supporting_ingredients data) [];
  nm ← data_name data;
  sv ← read (data_servings data) 1%Z;
  steps ← read (data_instructions data) [];
  ms ← read (data_macros data) ∅;
  tg ← read (data_tags data) [];
  Some {| name := nm;
          servings := sv;
          core_ingredients := core;
          supporting_ingredients := supporting;
          instructions := steps;
          macros := ms;
          tags := tg;
          notes := default "" (data_notes data) |}.

(** [sum(1 for ingredient in ingredients if ingredient_matches(...))] *)
Definition count_hits (ingredients : list string) (pantry : gset string) : nat :=
  length (List.filter (λ ingredient, ingredient_matches ingredient pantry) ingredients).

Definition ingredient_score (self : Recipe) (pantry : gset string) : F :=
  match core_ingredients self with
  | [] => zero
  | _ :: _ =>
      let core_hits := count_hits (core_ingredients self) pantry in
      let core_ratio := of_int core_hits / of_int (length (core_ingredients self)) in
      let supporting_ratio :=
        match supporting_ingredients self with
        | _ :: _ =>
            let supporting_hits := count_hits (supporting_ingredients self) pantry in
            of_int supporting_hits / of_int (length (supporting_ingredients self))
        | [] => zero
        end in
      (core_ratio * lit 75 100) + (supporting_ratio * lit 25 100)
  end.

(** [self.macros.get(macro, 0.0)] *)
Definition grams (self : Recipe) (macro : string) : F :=
  default zero (macros self !! macro).

Definition calories (self : Recipe) : F :=
  fold_left (λ cal '(macro, factor), cal + grams self macro * of_int factor)
            CAL_FACTORS zero.

Definition macro_ratios (self : Recipe) : gmap string F :=
  let calories := calories self in
  if calories <=? zero then
    list_to_map (map (λ macro, (macro, zero)) (keys TARGET_RATIOS))
  else
    list_to_map
      (map (λ macro,
              (macro, (grams self macro * of_int (getitem CAL_FACTORS macro 0)) / calories))
           (keys TARGET_RATIOS)).

(** [abs(ratios.get(macro, 0.0) - TARGET_RATIOS[macro])] *)
Definition deviation (ratios : gmap string F) (macro : string) : F :=
  fabs (default zero (ratios !! macro) - getitem TARGET_RATIOS macro zero).

(** Lines 131-136, on the ratios computed at line 130. *)
Definition score_of_ratios (ratios : gmap string F) : F :=
  let deltas :=
    map (λ macro, deviation ratios macro / RATIO_TOLERANCE) (keys TARGET_RATIOS) in
  let score := one - (py_sum deltas / of_int (length TARGET_RATIOS)) in
  py_max zero (py_min one score).

Definition balance_score (self : Recipe) : F :=
  let ratios := macro_ratios self in
  score_of_ratios ratios.

Definition within_tolerance (ratios : gmap string F) : bool :=
  forallb (λ macro, deviation ratios macro <=? RATIO_TOLERANCE) (keys TARGET_RATIOS).

Definition is_balanced (self : Recipe) : bool :=
  let ratios := macro_ratios self in
  within_tolerance ratios.

Definition missing (self : Recipe) (pantry : gset string) : list string * list string :=
  let missing_core :=
    List.filter (λ ingredient, negb (ingredient_matches ingredient pantry))
                (core_ingredients self) in
  let missing_support :=
    List.filter (λ ingredient, negb (ingredient_matches ingredient pantry))
                (supporting_ingredients self) in
  (missing_core, missing_support).

(** *** Ranking (lines 161-177) *)

(** [None]: an exception escaped [Recipe.from_dict]. *)
Fixpoint load_entries (raw : list RecipeData) : option (list Recipe) :=
  match raw with
  | [] => Some []
  | entry :: rest =>
      match from_dict entry with
      | None => None
      | Some recipe =>
          match load_entries rest with
          | None => None
          | Some recipes => Some (recipe :: recipes)
          end
      end
  end.

Definition rank_score (recipe : Recipe) (pantry : gset string) : F :=
  let coverage := ingredient_score recipe pantry in
  let balance := balance_score recipe in
  (coverage * lit 8 10) + (balance * lit 2 10).

(** [list.sort(key=..., reverse=True)] is a stable sort that compares
    keys with [<] only; on keys that [<] orders totally every stable sort
    returns the same list, here computed by insertion. *)
Fixpoint insert_desc (item : F * Recipe) (sorted : list (F * Recipe)) : list (F * Recipe) :=
  match sorted with
  | [] => [item]
  | other :: rest =>
      if fst item <? fst other then other :: insert_desc item rest
      else item :: sorted
  end.

Definition sort_desc (scored : list (F * Recipe)) : list (F * Recipe) :=
  foldr insert_desc [] scored.

Definition score_recipes (recipes : list Recipe) (pantry : gset string)
  : list (F * Recipe) :=
  let scored :=
    fold_left
      (λ scored recipe,
         if negb (is_balanced recipe) then scored
         else scored ++ [(rank_score recipe pantry, recipe)])
      recipes [] in
  sort_desc scored.

End Program.

Arguments Recipe F : clear implicits.
Arguments RecipeData F : clear implicits.
Arguments Absent {A}.
Arguments Invalid {A}.
Arguments Value {A} value.

(** ** Command line (lines 24-43 and 245-269) *)

(** [str(Path(raw))] on a POSIX system: pathlib keeps the root ([/], or
    [//] for exactly two leading slashes) and the components between
    slashes that are neither empty nor [.]; a path without root and
    components is [.]. *)
Module Pathlib.

Definition sep : ascii := "/"%char.

(** [part.lstrip(sep)] *)
Fixpoint lstrip_sep (part : chars) : chars :=
  match part with
  | ch :: rest => if Ascii.eqb ch sep then lstrip_sep rest else part
  | [] => []
  end.

Definition splitroot (part : chars) : chars * chars :=
  match part with
  | ch :: _ =>
      if Ascii.eqb ch sep then
        let stripped_part := lstrip_sep part in
        if Nat.eqb (length part - length stripped_part) 2
        then ([sep; sep], stripped_part)
        else ([sep], stripped_part)
      else ([], part)
  | [] => ([], part)
  end.

Definition is_component (x : chars) : bool :=
  match x with
  | [] => false
  | [ch] => negb (Ascii.eqb ch "."%char)
  | _ => true
  end.

Definition parse_parts (part : chars) : chars * list chars :=
  let '(root, rel) := splitroot part in
  (root, List.filter is_component (Str.split_on sep rel)).

Definition str (raw : chars) : chars :=
  let '(root, parts) := parse_parts raw in
  match root ++ Str.join [sep] parts with
  | [] => ["."%char]
  | formatted => formatted
  end.

End Pathlib.

(** [Path(raw)], as the string that [str] and the file system see. *)
Definition Path (raw : string) : string :=
  string_of_list_ascii (Pathlib.str (list_ascii_of_string raw)).

Section Cli.

Context {F : Type} `{PyFloat F}.

Definition parse_ingredients (raw_inputs : list string) : gset string :=
  fold_left
    (λ pantry chunk,
       fold_left
         (λ pantry token,
            let normalized := normalize_token (string_of_list_ascii token) in
            if truthy normalized then pantry ∪ {[normalized]} else pantry)
         (Str.split_on ","%char (list_ascii_of_string chunk)) pantry)
    raw_inputs (∅ : gset string).

(** What [main] reads from outside: the line that [input] returns ([None]
    at end of input) and, for a path, whether it exists ([None] when
    [exists()] is false) and what [json.load] returns for it, as the list
    of the entries that iterating it yields ([Some None] when [exists()],
    opening the file, [json.load] or the iteration raises). *)
Record World : Type := {
  stdin_line : option string;
  file_at : string → option (option (list (RecipeData F)));
}.

(** The namespace that [parser.parse_args] returns. *)
Record Args : Type := {
  args_ingredients : list string;
  args_recipes : string;
  args_top : Z;
  args_show_missing : bool;
  args_interactive : bool;
}.

Definition ensure_ingredients (world : World) (pantry : gset string) : gset string :=
  if negb (bool_decide (pantry = ∅)) then pantry
  else match stdin_line world with
       | None => pantry
       | Some raw => parse_ingredients [raw]
       end.

(** One printed block: the rank and score line, then what
    [describe_recipe] renders (the recipe and, with [--show-missing], the
    missing ingredients). *)
Record Suggestion : Type := {
  shown_rank : nat;
  shown_score : F;
  shown_recipe : Recipe F;
  shown_missing : option (list string * list string);
}.

(** How a run ends.  [parser.error] of [argparse] prints the usage and the
    message on standard error and exits with status 2; an exception that
    escapes [main] ends the interpreter with a traceback and status 1; the
    value that [main] returns is the argument of [SystemExit]. *)
Inductive Outcome : Type :=
| ParserError (message : string)
| Traceback
| Returned (status : Z) (stdout : list Suggestion) (stderr : list string).

Definition exit_status (outcome : Outcome) : Z :=
  match outcome with
  | ParserError _ => 2
  | Traceback => 1
  | Returned status _ _ => status
  end.

Definition load_recipes (world : World) (path : string) : option (list (Recipe F)) :=
  match file_at world path with
  | Some (Some raw) => load_entries raw
  | _ => None
  end.

(** [enumerate(matches[:limit], start=1)] with the block printed for each. *)
Fixpoint render (rank : nat) (matches : list (F * Recipe F)) (pantry : gset string)
    (show_missing : bool) : list Suggestion :=
  match matches with
  | [] => []
  | (score, recipe) :: rest =>
      {| shown_rank := rank;
         shown_score := score;
         shown_recipe := recipe;
         shown_missing := if show_missing then Some (missing recipe pantry) else None |}
      :: render (S rank) rest pantry show_missing
  end.

(** Lines 249-251: the pantry that the rest of [main] works with. *)
Definition resolve_pantry (args : Args) (world : World) : gset string :=
  let pantry := parse_ingredients (args_ingredients args) in
  if args_interactive args || bool_decide (pantry = ∅)
  then ensure_ingredients world pantry else pantry.

Definition main (args : Args) (world : World) : Outcome :=
  let pantry := resolve_pantry args world in
  if decide (pantry = ∅) then
    ParserError "No ingredients provided. Add them as arguments or via the prompt."
  else
    let recipe_path := Path (args_recipes args) in
    match file_at world recipe_path with
    | None => ParserError ("Recipe file not found: " +:+ recipe_path)
    | Some _ =>
        match load_recipes world recipe_path with
        | None => Traceback
        | Some recipes =>
            let matches := score_recipes recipes pantry in
            match matches with
            | [] => Returned 1 [] ["No balanced recipes found in the collection."]
            | _ :: _ =>
                let limit := Z.to_nat (Z.max 1 (args_top args)) in
                Returned 0
                  (render 1 (firstn limit matches) pantry (args_show_missing args)) []
            end
        end
    end.

End Cli.

Arguments World F : clear implicits.
Arguments Suggestion F : clear implicits.
Arguments Outcome F : clear implicits.

(** ** The description of a recipe (lines 180-209)

    What [format_macros] and [describe_recipe] print, for the recipes that
    the interpreter computes with: binary64 macros. *)

(** [f"{x:.{digits}f}"] for a float [x]: the decimal expansion with
    [digits] digits after the point that is nearest to the exact value of
    [x], ties going to the even last digit. *)
Module Fmt.

Definition digits_of (n : N) : string :=
  DecimalString.NilZero.string_of_uint (N.to_uint n).

Definition round_half_even (num den : N) : N :=
  let q := (num / den)%N in
  let r := (num mod den)%N in
  if (den <? 2 * r)%N then (q + 1)%N
  else if (2 * r =? den)%N && N.odd q then (q + 1)%N
  else q.

(** [m * 2^e * 10^digits], rounded to an integer. *)
Definition scaled (digits : nat) (m : positive) (e : Z) : N :=
  let num := (Npos m * 10 ^ N.of_nat digits)%N in
  if (0 <=? e)%Z then (num * 2 ^ Z.to_N e)%N
  else round_half_even num (2 ^ Z.to_N (- e)).

Fixpoint zeros (n : nat) : string :=
  match n with
  | O => ""
  | S k => String "0" (zeros k)
  end.

(** The decimal point before the last [digits] digits. *)
Definition point (digits : nat) (s : string) : string :=
  match digits with
  | O => s
  | S _ =>
      let s := zeros (S digits - String.length s) +:+ s in
      let whole := String.length s - digits in
      substring 0 whole s +:+ "." +:+ substring whole digits s
  end.

Definition format_fixed (digits : nat) (x : float) : string :=
  match Prim2SF x with
  | S754_nan => "nan"
  | S754_infinity s => if s then "-inf" else "inf"
  | S754_zero s => (if s then "-" else "") +:+ point digits "0"
  | S754_finite s m e =>
      (if s then "-" else "") +:+ point digits (digits_of (scaled digits m e))
  end.

End Fmt.

(** [str(n)] for an [int]. *)
Definition py_str (n : Z) : string :=
  DecimalString.NilZero.string_of_int (Z.to_int n).

(** [if items:] on a list. *)
Definition nonempty {A : Type} (items : list A) : bool :=
  match items with
  | [] => false
  | _ :: _ => true
  end.

Definition format_macros (macros : gmap string float) : string :=
  let parts :=
    fold_left
      (λ parts macro,
         match macros !! macro with
         | Some grams => parts ++ [macro +:+ ": " +:+ Fmt.format_fixed 0 grams +:+ "g"]
         | None => parts
         end)
      ["carbs"; "protein"; "fat"; "fiber"] [] in
  String.concat ", " parts.

(** [enumerate(steps, start=idx)], one line for each step. *)
Fixpoint numbered (idx : nat) (steps : list string) : list string :=
  match steps with
  | [] => []
  | step :: rest =>
      ("  " +:+ py_str (Z.of_nat idx) +:+ ". " +:+ step) :: numbered (S idx) rest
  end.

(** The two characters U+00C2 U+00B7 between the name and the servings. *)
Definition separator : string :=
  String (ascii_of_nat 194) (String (ascii_of_nat 183) "").


(** The list [lines] when [describe_recipe] joins it. *)
Definition describe_lines (recipe : Recipe float) (pantry : gset string)
    (show_missing : bool) : list string :=
  let lines :=
    [ name recipe +:+ " " +:+ separator +:+ " serves " +:+ py_str (servings recipe);
      "Tags: " +:+ (let joined := String.concat ", " (tags recipe) in
                    if truthy joined then joined else "n/a");
      "Macros: " +:+ format_macros (macros recipe);
      "Instructions:" ] in
  let lines := lines ++ numbered 1 (instructions recipe) in
  let lines :=
    if show_missing then
      let '(missing_core, missing_support) := missing recipe pantry in
      if nonempty missing_core || nonempty missing_support then
        let lines := lines ++ ["Missing ingredients:"] in
        let lines :=
          if nonempty missing_core
          then lines ++ ["  Core: " +:+ String.concat ", " missing_core] else lines in
        if nonempty missing_support
        then lines ++ ["  Supporting: " +:+ String.concat ", " missing_support] else lines
      else lines ++ ["You have everything you need!"]
    else lines in
  if truthy (notes recipe) then lines ++ ["Notes: " +:+ notes recipe] else lines.


(** ** Vocabulary of the properties *)

(** A word as [split] returns it: not empty, no whitespace inside. *)
Definition word (w : chars) : Prop :=
  w ≠ [] ∧ Forall (λ ch, Chars.isspace ch = false) w.

(** No whitespace at either end. *)
Definition trimmed (s : chars) : Prop :=
  match s with
  | [] => True
  | ch :: _ => Chars.isspace ch = false
  end
  ∧ match rev s with
    | [] => True
    | ch :: _ => Chars.isspace ch = false
    end.

(** A character that the normalizer leaves alone: alphanumeric and already
    in lower case. *)
Definition plain (ch : ascii) : Prop :=
  Chars.isalnum ch = true ∧ Chars.lower ch = ch.

(** The items that reading a list gives; none when the key is absent. *)
Definition items {A : Type} (field : Field (list A)) : list A :=
  default [] (read field []).

(** An entry on which [Recipe.from_dict] raises: it has no name, or one
    of its reads raises. *)
Definition unreadable {F : Type} (data : RecipeData F) : Prop :=
  data_name data = None
  ∨ data_core_ingredients data = Invalid
  ∨ data_supporting_ingredients data = Invalid
  ∨ data_servings data = Invalid
  ∨ data_instructions data = Invalid
  ∨ data_macros data = Invalid
  ∨ data_tags data = Invalid.

(** A normal form: plain words separated by single spaces. *)
Definition canonical (t : chars) : Prop :=
  ∃ ws, t = Str.join [Chars.space] ws ∧ Forall word ws ∧ Forall (Forall plain) ws.

Section Vocabulary.

Context {F : Type} `{PyFloat F}.

Local Open Scope py_scope.

(** The test that one pantry item passes, as the claim words it. *)
Definition covers (ingredient item : string) : Prop :=
  let A := tokenize ingredient in
  let B := tokenize item in
  0 < size (A ∩ B)
  ∧ (lit 6 10 <=? of_int (size (A ∩ B)) / of_int (Nat.min (size A) (size B))) = true.

(** [ratios.get(macro, 0.0)] on the result of [macro_ratios]. *)
Definition ratio (self : Recipe F) (macro : string) : F :=
  default zero (macro_ratios self !! macro).

Definition scored_entry (pantry : gset string) (recipe : Recipe F) : F * Recipe F :=
  (rank_score recipe pantry, recipe).

End Vocabulary.

(** What sorting needs of the comparisons of scores, on the scores that
    can be compared (for floats: all but NaN). *)
Class FloatOrder {F : Type} `{PyFloat F} (comparable : F → Prop) : Prop := {
  order_lt_le : ∀ x y, ltb x y = true → leb x y = true;
  order_lt_strict : ∀ x y, ltb x y = true → leb y x = false;
  order_total : ∀ x y, comparable x → comparable y → ltb x y = false → leb y x = true;
  order_trans : ∀ x y z, leb x y = true → leb y z = true → leb x z = true;
}.

Section RankingVocabulary.

Context {F : Type} `{PyFloat F}.

(** [x == y] on scores. *)
Definition same_score (x y : F) : bool := leb x y && leb y x.

(** Scores do not increase along the list. *)
Definition descending (scored : list (F * Recipe F)) : Prop :=
  StronglySorted (λ a b, leb (fst b) (fst a) = true) scored.

(** The entries whose score equals [s], in their order. *)
Definition with_score (s : F) (scored : list (F * Recipe F)) : list (F * Recipe F) :=
  List.filter (λ entry, same_score (fst entry) s) scored.

End RankingVocabulary.

(** Position of a binary64 value other than NaN on the number line: the
    sign class, then the exponent, then the mantissa. *)
Definition float_rank (x : spec_float) : Z * Z * Z :=
  match x with
  | S754_zero _ => (0, 0, 0)%Z
  | S754_infinity true => (-2, 0, 0)%Z
  | S754_infinity false => (2, 0, 0)%Z
  | S754_nan => (0, 0, 0)%Z
  | S754_finite false m e => (1, e, Z.pos m)%Z
  | S754_finite true m e => (-1, - e, Z.neg m)%Z
  end.

Definition float_key (x : float) : Z * Z * Z := float_rank (Prim2SF x).

Definition rank_le (a b : Z * Z * Z) : Prop :=
  let '(a1, a2, a3) := a in
  let '(b1, b2, b3) := b in
  (a1 < b1 ∨ (a1 = b1 ∧ (a2 < b2 ∨ (a2 = b2 ∧ a3 ≤ b3))))%Z.

Definition rank_lt (a b : Z * Z * Z) : Prop :=
  let '(a1, a2, a3) := a in
  let '(b1, b2, b3) := b in
  (a1 < b1 ∨ (a1 = b1 ∧ (a2 < b2 ∨ (a2 = b2 ∧ a3 < b3))))%Z.

Definition not_nan (x : float) : Prop := PrimFloat.is_nan x = false.

(** One weighted term of [ingredient_score]: the share of matched
    ingredients of a list (0.0 for an empty list) times its weight. *)
Definition weighted {F : Type} `{PyFloat F} (weight : F) (hits len : nat) : F :=
  mul (match len with S _ => div (of_int hits) (of_int len) | 0 => zero end) weight.

(** [ingredient_score] as a function of the two numbers of matched
    ingredients and of the lengths of the two lists. *)
Definition score_of_counts {F : Type} `{PyFloat F}
    (core_hits core_len supporting_hits supporting_len : nat) : F :=
  match core_len with
  | 0 => zero
  | S _ => add (weighted (lit 75 100) core_hits core_len)
               (weighted (lit 25 100) supporting_hits supporting_len)
  end.




(** In binary64, for token sets of at most [bound] tokens: the threshold
    test [overlap / smaller >= 0.6] agrees with the exact one. *)
Definition coverage_agrees (bound : nat) : bool :=
  forallb (λ smaller,
     forallb (λ overlap,
        Bool.eqb (leb (F:=float) (lit 6 10) (div (of_int overlap) (of_int smaller)))
                 (3 * smaller <=? 5 * overlap)%nat)
       (seq 0 (S smaller)))
    (seq 1 bound).

(** In binary64, for lists of at most [bound] ingredients: the coverage
    score equals its largest value (1, or 0.75 without supporting
    ingredients) exactly when every ingredient is matched, and 0 exactly
    when none is. *)
Definition extremes_table (bound : nat) : bool :=
  forallb (λ n,
    forallb (λ h,
      forallb (λ m,
        forallb (λ k,
          let score := score_of_counts (F:=float) h n k m in
          Bool.eqb (PrimFloat.eqb score (if Nat.eqb m 0 then 0.75 else 1)%float)
                   (Nat.eqb h n && Nat.eqb k m)
          && Bool.eqb (PrimFloat.eqb score 0) (Nat.eqb h 0 && Nat.eqb k 0))
        (seq 0 (S m)))
      (seq 0 (S bound)))
    (seq 0 (S n)))
  (seq 1 bound).

(** One piece between commas, normalized. *)
Definition piece_token (piece : chars) : string :=
  normalize_token (string_of_list_ascii piece).

(** ** Sample data *)

Module Samples.

(** Macros with 4, 3 and 3 of 10 calories from carbs, protein and fat. *)
Definition on_target : gmap string float :=
  <["carbs" := 1%float]> (<["protein" := 0.75%float]> {["fat" := PrimFloat.div 1 3]}).

Definition raw_omelette : RecipeData float :=
  {| data_name := Some "Omelette";
     data_servings := Absent;
     data_core_ingredients := Value ["Egg"; "Tomato!"];
     data_supporting_ingredients := Value ["cheese"; " - "];
     data_instructions := Value ["Whisk"; "Fry"];
     data_macros := Value on_target;
     data_tags := Absent;
     data_notes := None |}.

Definition omelette : Recipe float :=
  {| name := "Omelette"; servings := 1;
     core_ingredients := ["egg"; "tomato"]; supporting_ingredients := ["cheese"];
     instructions := ["Whisk"; "Fry"]; macros := on_target; tags := []; notes := "" |}.

Definition raw_syrup : RecipeData float :=
  {| data_name := Some "Syrup";
     data_servings := Value 2%Z;
     data_core_ingredients := Value ["sugar"];
     data_supporting_ingredients := Absent;
     data_instructions := Absent;
     data_macros := Value {["carbs" := 100%float]};
     data_tags := Absent;
     data_notes := None |}.

Definition syrup : Recipe float :=
  {| name := "Syrup"; servings := 2;
     core_ingredients := ["sugar"]; supporting_ingredients := [];
     instructions := []; macros := {["carbs" := 100%float]}; tags := []; notes := "" |}.

(** A recipe in exact arithmetic with 4, 3 and 3 of 10 calories from
    carbs, protein and fat. *)
Definition bowl : Recipe Q :=
  {| name := "bowl"; servings := 1; core_ingredients := ["egg"];
     supporting_ingredients := ["cheese"]; instructions := [];
     macros := <["carbs" := 50%Q]> (<["protein" := (75 # 2)%Q]> {["fat" := (50 # 3)%Q]});
     tags := []; notes := "" |}.

(** A file system with one recipe file, and standard input at its end. *)
Definition world_with (entries : list (RecipeData float)) : World float :=
  {| stdin_line := None;
     file_at path := if String.eqb path "data/recipes.json" then Some (Some entries) else None |}.

Definition args_with (ingredients : list string) (path : string) : Args :=
  {| args_ingredients := ingredients; args_recipes := path; args_top := 1;
     args_show_missing := true; args_interactive := false |}.

End Samples.

(** * Properties *)

(** ** Character tables *)

Module CharFacts.

Ltac by_cases ch := destruct ch as [[] [] [] [] [] [] [] []]; vm_compute; intuition congruence.

Lemma lower_lower (ch : ascii) : Chars.lower (Chars.lower ch) = Chars.lower ch.
Proof. by_cases ch. Qed.

Lemma lower_isspace (ch : ascii) : Chars.isspace (Chars.lower ch) = Chars.isspace ch.
Proof. by_cases ch. Qed.

Lemma lower_isalnum (ch : ascii) : Chars.isalnum (Chars.lower ch) = Chars.isalnum ch.
Proof. by_cases ch. Qed.

Lemma space_not_alnum (ch : ascii) : Chars.isspace ch = true → Chars.isalnum ch = false.
Proof. by_cases ch. Qed.

Lemma space_lower (ch : ascii) : Chars.isspace ch = true → Chars.lower ch = ch.
Proof. by_cases ch. Qed.

Lemma space_isspace : Chars.isspace Chars.space = true.
Proof. reflexivity. Qed.

End CharFacts.

(** ** [split], [join] and [strip] *)

Module StrFacts.

Lemma split_space ch rest :
  Chars.isspace ch = true → Str.split (ch :: rest) = Str.split rest.
Proof. intros E. simpl. now rewrite E. Qed.

Lemma split_nonspace_head ch rest :
  Chars.isspace ch = false → Str.split (ch :: rest) ≠ [].
Proof.
  intros E. simpl. rewrite E.
  destruct rest as [|nxt rest']; [discriminate|].
  destruct (Chars.isspace nxt); [discriminate|].
  destruct (Str.split (nxt :: rest')); discriminate.
Qed.

Lemma split_last ch : Chars.isspace ch = false → Str.split [ch] = [[ch]].
Proof. intros E. simpl. now rewrite E. Qed.

Lemma split_end_of_word ch nxt rest :
  Chars.isspace ch = false → Chars.isspace nxt = true →
  Str.split (ch :: nxt :: rest) = [ch] :: Str.split rest.
Proof.
  intros E1 E2. change (Str.split (ch :: nxt :: rest))
    with (if Chars.isspace ch then Str.split (nxt :: rest)
          else if Chars.isspace nxt then [ch] :: Str.split (nxt :: rest)
               else match Str.split (nxt :: rest) with
                    | w :: ws => (ch :: w) :: ws
                    | [] => [[ch]]
                    end).
  rewrite E1, E2. now rewrite (split_space nxt rest E2).
Qed.

Lemma split_inside_word ch nxt rest :
  Chars.isspace ch = false → Chars.isspace nxt = false →
  ∃ w ws, Str.split (nxt :: rest) = w :: ws
          ∧ Str.split (ch :: nxt :: rest) = (ch :: w) :: ws.
Proof.
  intros E1 E2.
  destruct (Str.split (nxt :: rest)) as [|w ws] eqn:E.
  - now apply split_nonspace_head in E.
  - exists w, ws. split; [reflexivity|].
    change (Str.split (ch :: nxt :: rest))
      with (if Chars.isspace ch then Str.split (nxt :: rest)
            else if Chars.isspace nxt then [ch] :: Str.split (nxt :: rest)
                 else match Str.split (nxt :: rest) with
                      | w :: ws => (ch :: w) :: ws
                      | [] => [[ch]]
                      end).
    now rewrite E1, E2, E.
Qed.

(** The three ways a phrase can begin. *)
Lemma split_cases ch rest :
  (Chars.isspace ch = true ∧ Str.split (ch :: rest) = Str.split rest)
  ∨ (Chars.isspace ch = false ∧ Str.split (ch :: rest) = [ch] :: Str.split rest
     ∧ match rest with [] => True | nxt :: _ => Chars.isspace nxt = true end)
  ∨ (Chars.isspace ch = false
     ∧ ∃ w ws, Str.split rest = w :: ws ∧ Str.split (ch :: rest) = (ch :: w) :: ws).
Proof.
  destruct (Chars.isspace ch) eqn:E1.
  - left. auto using split_space.
  - destruct rest as [|nxt rest'].
    + right; left. rewrite (split_last ch E1). auto.
    + destruct (Chars.isspace nxt) eqn:E2.
      * right; left. rewrite (split_end_of_word _ _ _ E1 E2), (split_space _ _ E2). auto.
      * right; right. split; [reflexivity|]. now apply split_inside_word.
Qed.

Lemma split_words (s : chars) : Forall word (Str.split s).
Proof.
  induction s as [|ch rest IH]; [constructor|].
  destruct (split_cases ch rest) as [[_ ->]|[(E & -> & _)|(E & w & ws & Er & ->)]].
  - exact IH.
  - constructor; [|exact IH]. split; [discriminate|]. now repeat constructor.
  - rewrite Er in IH. inversion IH as [|? ? [_ Hw] Hws]; subst.
    constructor; [|exact Hws]. split; [discriminate|]. now constructor.
Qed.

Lemma split_chars (P : ascii → Prop) (s : chars) :
  Forall P s → Forall (Forall P) (Str.split s).
Proof.
  induction 1 as [|ch rest Hch Hrest IH]; [constructor|].
  destruct (split_cases ch rest) as [[_ ->]|[(E & -> & _)|(E & w & ws & Er & ->)]].
  - exact IH.
  - constructor; [|exact IH]. now repeat constructor.
  - rewrite Er in IH. inversion IH; subst. constructor; [|assumption]. now constructor.
Qed.

Lemma split_one_word (w : chars) : word w → Str.split w = [w].
Proof.
  intros [Hne Hsp]. induction Hsp as [|ch rest Hch Hrest IH]; [congruence|].
  destruct rest as [|nxt rest'].
  - now apply split_last.
  - inversion Hrest as [|? ? Hnxt _]; subst.
    destruct (split_inside_word ch nxt rest' Hch Hnxt) as (w & ws & E1 & E2).
    rewrite E2. rewrite IH in E1 by discriminate. now inversion E1.
Qed.

Lemma split_word_then_space (w : chars) (sp : ascii) (rest : chars) :
  word w → Chars.isspace sp = true →
  Str.split (w ++ sp :: rest) = w :: Str.split rest.
Proof.
  intros [Hne Hsp] Esp. induction Hsp as [|ch w' Hch Hw' IH]; [congruence|].
  destruct w' as [|nxt w''].
  - simpl. now apply split_end_of_word.
  - inversion Hw' as [|? ? Hnxt _]; subst. rewrite <- !app_comm_cons in *.
    destruct (split_inside_word ch nxt (w'' ++ sp :: rest) Hch Hnxt) as (x & xs & E1 & E2).
    rewrite E2. rewrite IH in E1 by discriminate. now inversion E1.
Qed.

Lemma split_join (ws : list chars) :
  Forall word ws → Str.split (Str.join [Chars.space] ws) = ws.
Proof.
  induction 1 as [|w ws Hw Hws IH]; [reflexivity|].
  destruct ws as [|w' ws'].
  - now apply split_one_word.
  - change (Str.join [Chars.space] (w :: w' :: ws'))
      with (w ++ Chars.space :: Str.join [Chars.space] (w' :: ws')).
    rewrite split_word_then_space by (auto using CharFacts.space_isspace).
    now rewrite IH.
Qed.

Lemma lstrip_fix (s : chars) :
  match s with [] => True | ch :: _ => Chars.isspace ch = false end →
  Str.lstrip s = s.
Proof. destruct s as [|ch rest]; simpl; [reflexivity|]. now intros ->. Qed.

Lemma strip_trimmed (s : chars) : trimmed s → Str.strip s = s.
Proof.
  intros [Hl Hr]. unfold Str.strip.
  rewrite (lstrip_fix s Hl), (lstrip_fix (rev s) Hr). apply rev_involutive.
Qed.

Lemma word_trimmed (w : chars) : word w → trimmed w.
Proof.
  intros [_ Hsp]. split.
  - destruct w; [exact I|]. now inversion Hsp.
  - apply Forall_rev in Hsp. destruct (rev w); [exact I|]. now inversion Hsp.
Qed.

Lemma join_trimmed (ws : list chars) :
  Forall word ws → trimmed (Str.join [Chars.space] ws).
Proof.
  induction 1 as [|w ws Hw Hws IH]; [now split|].
  destruct ws as [|w' ws']; [now apply word_trimmed|].
  change (Str.join [Chars.space] (w :: w' :: ws'))
    with (w ++ [Chars.space] ++ Str.join [Chars.space] (w' :: ws')).
  destruct (word_trimmed w Hw) as [Hl _]. destruct IH as [_ Hr]. split.
  - destruct Hw as [Hne _]. destruct w; [congruence|]. exact Hl.
  - rewrite !rev_app_distr.
    inversion Hws as [|? ? [Hne' _] _]; subst.
    destruct (rev (Str.join [Chars.space] (w' :: ws'))) as [|ch r] eqn:E.
    + exfalso. apply (f_equal (@rev ascii)) in E. rewrite rev_involutive in E.
      simpl in E. destruct ws'; [congruence|]. destruct w'; [congruence|discriminate].
    + exact Hr.
Qed.

Lemma join_chars (P : ascii → Prop) (sep : chars) (ws : list chars) :
  Forall P sep → Forall (Forall P) ws → Forall P (Str.join sep ws).
Proof.
  intros Hsep. induction 1 as [|w ws Hw Hws IH]; [constructor|].
  destruct ws as [|w' ws']; [exact Hw|].
  change (Str.join sep (w :: w' :: ws')) with (w ++ sep ++ Str.join sep (w' :: ws')).
  rewrite !Forall_app. auto.
Qed.

End StrFacts.

(** ** The normalizer *)

Module NormalizeFacts.

Import StrFacts.

Lemma cleaned_chars (value : chars) :
  Forall (λ ch, keep_char ch = true ∧ Chars.lower ch = ch)
         (List.filter keep_char (Str.lower value)).
Proof.
  apply List.Forall_forall. intros ch Hin. apply filter_In in Hin as [Hin Hkeep].
  split; [exact Hkeep|]. apply in_map_iff in Hin as (c0 & <- & _).
  apply CharFacts.lower_lower.
Qed.

Lemma split_cleaned_plain (value : chars) :
  Forall (Forall plain) (Str.split (List.filter keep_char (Str.lower value))).
Proof.
  pose proof (split_words (List.filter keep_char (Str.lower value))) as Hw.
  pose proof (split_chars _ _ (cleaned_chars value)) as Hc.
  rewrite List.Forall_forall in *. intros w Hin.
  specialize (Hw w Hin) as [_ Hsp]. specialize (Hc w Hin).
  rewrite List.Forall_forall in *. intros ch Hch.
  destruct (Hc ch Hch) as [Hkeep Hlow]. specialize (Hsp ch Hch).
  unfold keep_char in Hkeep. rewrite Hsp, orb_false_r in Hkeep. now split.
Qed.

Lemma normalize_chars_unfold (value : chars) :
  normalize_chars value
  = Str.join [Chars.space] (Str.split (List.filter keep_char (Str.lower value))).
Proof.
  unfold normalize_chars. apply strip_trimmed, join_trimmed, split_words.
Qed.

Lemma normalize_chars_canonical (value : chars) : canonical (normalize_chars value).
Proof.
  rewrite normalize_chars_unfold. eexists. split; [reflexivity|].
  split; [apply split_words | apply split_cleaned_plain].
Qed.

Lemma canonical_chars (t : chars) :
  canonical t → Forall (λ ch, ch = Chars.space ∨ plain ch) t.
Proof.
  intros (ws & -> & _ & Hp). apply join_chars.
  - repeat constructor.
  - eapply List.Forall_impl; [|exact Hp]. intros w Hw.
    eapply List.Forall_impl; [|exact Hw]. simpl; auto.
Qed.

Lemma canonical_lower (t : chars) : canonical t → Str.lower t = t.
Proof.
  intros Hc. apply canonical_chars in Hc. unfold Str.lower.
  induction Hc as [|ch rest [->|[_ Hl]] _ IH]; simpl; [reflexivity|..]; now rewrite IH, ?Hl.
Qed.

Lemma canonical_cleaned (t : chars) : canonical t → List.filter keep_char t = t.
Proof.
  intros Hc. apply canonical_chars in Hc.
  induction Hc as [|ch rest [->|[Ha _]] _ IH]; simpl; [reflexivity|..].
  - now rewrite IH.
  - unfold keep_char at 1. now rewrite Ha, IH.
Qed.

Lemma canonical_fixed (t : chars) : canonical t → normalize_chars t = t.
Proof.
  intros Hc. rewrite normalize_chars_unfold, (canonical_lower t Hc), (canonical_cleaned t Hc).
  destruct Hc as (ws & -> & Hw & _). now rewrite split_join.
Qed.

Lemma normalize_chars_idempotent (value : chars) :
  normalize_chars (normalize_chars value) = normalize_chars value.
Proof. apply canonical_fixed, normalize_chars_canonical. Qed.

Lemma normalize_token_fixed (value : string) :
  normalize_token (normalize_token value) = normalize_token value.
Proof.
  unfold normalize_token. rewrite list_ascii_of_string_of_list_ascii.
  now rewrite normalize_chars_idempotent.
Qed.

Lemma truthy_nonempty (item : string) : truthy item = true ↔ item ≠ "".
Proof.
  unfold truthy. destruct (String.eqb_spec item ""); simpl; split; congruence.
Qed.

(** What [norm_list] stores: images of the normalizer other than the empty
    string, hence fixed by it. *)
Lemma norm_list_stored (items : list string) :
  Forall (λ item, item ≠ "" ∧ normalize_token item = item) (norm_list items).
Proof.
  unfold norm_list. apply List.Forall_forall. intros item Hin.
  apply filter_In in Hin as [Hin Ht]. split; [now apply truthy_nonempty|].
  apply in_map_iff in Hin as (raw & <- & _). apply normalize_token_fixed.
Qed.

End NormalizeFacts.

(** C7: [normalize_token] is idempotent and maps the empty string to the
    empty string.  Being a function it is total.  Its result consists of
    lower-case alphanumeric characters and single spaces: its words are the
    words of the lower-cased input without the characters that are neither
    alphanumeric nor whitespace, joined by one space, with no whitespace at
    either end. *)
Theorem normalize_token_idempotent :
  (∀ s : string, normalize_token (normalize_token s) = normalize_token s)
  ∧ normalize_token "" = ""
  ∧ (∀ s : string,
       let t := list_ascii_of_string (normalize_token s) in
       Forall (λ ch, ch = Chars.space
                     ∨ (Chars.isalnum ch = true ∧ Chars.lower ch = ch)) t
       ∧ Str.split t
         = Str.split (List.filter keep_char (Str.lower (list_ascii_of_string s)))
       ∧ Str.join [Chars.space] (Str.split t) = t
       ∧ Str.strip t = t).
Proof.
  split; [exact NormalizeFacts.normalize_token_fixed|]. split; [reflexivity|].
  intros s t. subst t. unfold normalize_token.
  rewrite list_ascii_of_string_of_list_ascii.
  pose proof (NormalizeFacts.normalize_chars_canonical (list_ascii_of_string s)) as Hc.
  split; [now apply NormalizeFacts.canonical_chars|].
  rewrite NormalizeFacts.normalize_chars_unfold in *.
  rewrite StrFacts.split_join by apply StrFacts.split_words.
  split; [reflexivity|]. split; [reflexivity|].
  apply StrFacts.strip_trimmed, StrFacts.join_trimmed, StrFacts.split_words.
Qed.

Module EntryFacts.

Lemma read_none {A : Type} (field : Field A) (default : A) :
  read field default = None ↔ field = Invalid.
Proof. destruct field; simpl; split; congruence. Qed.

Lemma read_items {A : Type} (field : Field (list A)) (l : list A) :
  read field [] = Some l → items field = l.
Proof. unfold items. now intros ->. Qed.

Lemma from_dict_none {F : Type} (data : RecipeData F) :
  from_dict data = None ↔ unreadable data.
Proof.
  unfold from_dict, unreadable.
  destruct (data_core_ingredients data); simpl;
    try solve [split; [intros _; repeat (first [left; reflexivity|right])|reflexivity]];
    (destruct (data_supporting_ingredients data); simpl;
     try solve [split; [intros _; repeat (first [left; reflexivity|right])|reflexivity]]);
    (destruct (data_name data); simpl;
     try solve [split; [intros _; repeat (first [left; reflexivity|right])|reflexivity]]);
    (destruct (data_servings data); simpl;
     try solve [split; [intros _; repeat (first [left; reflexivity|right])|reflexivity]]);
    (destruct (data_instructions data); simpl;
     try solve [split; [intros _; repeat (first [left; reflexivity|right])|reflexivity]]);
    (destruct (data_macros data); simpl;
     try solve [split; [intros _; repeat (first [left; reflexivity|right])|reflexivity]]);
    (destruct (data_tags data); simpl;
     try solve [split; [intros _; repeat (first [left; reflexivity|right]); reflexivity
                       |reflexivity]]);
    (split; [discriminate|intros Hbad; decompose [or] Hbad; discriminate]).
Qed.

(** What a recipe that [from_dict] returns is made of. *)
Lemma from_dict_some {F : Type} (data : RecipeData F) (recipe : Recipe F) :
  from_dict data = Some recipe →
  ∃ nm core supporting sv steps ms tg,
    data_name data = Some nm
    ∧ read (data_core_ingredients data) [] = Some core
    ∧ read (data_supporting_ingredients data) [] = Some supporting
    ∧ read (data_servings data) 1%Z = Some sv
    ∧ read (data_instructions data) [] = Some steps
    ∧ read (data_macros data) ∅ = Some ms
    ∧ read (data_tags data) [] = Some tg
    ∧ recipe = {| name := nm; servings := sv;
                  core_ingredients := norm_list core;
                  supporting_ingredients := norm_list supporting;
                  instructions := steps; macros := ms; tags := tg;
                  notes := default "" (data_notes data) |}.
Proof.
  unfold from_dict.
  destruct (read (data_core_ingredients data) []) as [core|]; [|discriminate].
  destruct (read (data_supporting_ingredients data) []) as [supporting|]; [|discriminate].
  destruct (data_name data) as [nm|]; [|discriminate].
  destruct (read (data_servings data) 1%Z) as [sv|]; [|discriminate].
  destruct (read (data_instructions data) []) as [steps|]; [|discriminate].
  destruct (read (data_macros data) ∅) as [ms|]; [|discriminate].
  destruct (read (data_tags data) []) as [tg|]; [|discriminate].
  simpl. intros [= <-]. exists nm, core, supporting, sv, steps, ms, tg. repeat split.
Qed.

Lemma from_dict_lists {F : Type} (data : RecipeData F) (recipe : Recipe F) :
  from_dict data = Some recipe →
  core_ingredients recipe = norm_list (items (data_core_ingredients data))
  ∧ supporting_ingredients recipe = norm_list (items (data_supporting_ingredients data)).
Proof.
  intros Hfrom.
  destruct (from_dict_some data recipe Hfrom)
    as (nm & core & supporting & sv & steps & ms & tg & _ & Hc & Hs & _ & _ & _ & _ & ->).
  now rewrite (read_items _ _ Hc), (read_items _ _ Hs).
Qed.

End EntryFacts.

(** C9: [Recipe.from_dict] raises exactly on an entry without a name or
    with a field whose read raises; on every other entry it returns a
    recipe.  The recipe that it returns stores, for the core and for the
    supporting ingredients, the normalized items of the entry in their
    order without those that normalize to the empty string; every stored
    ingredient of every loaded recipe is therefore a non-empty string that
    the normalizer leaves unchanged.  The matcher itself does not
    normalize: ["Egg"] does not match a pantry that holds ["egg"]. *)
Theorem from_dict_normalizes (F : Type) :
  (∀ data : RecipeData F, from_dict data = None ↔ unreadable data)
  ∧ (∀ data : RecipeData F,
       ¬ unreadable data →
       ∃ recipe : Recipe F,
         from_dict data = Some recipe
         ∧ core_ingredients recipe
           = List.filter truthy (map normalize_token (items (data_core_ingredients data)))
         ∧ supporting_ingredients recipe
           = List.filter truthy
               (map normalize_token (items (data_supporting_ingredients data))))
  ∧ (∀ (data : RecipeData F) (recipe : Recipe F),
       from_dict data = Some recipe →
       core_ingredients recipe
       = List.filter truthy (map normalize_token (items (data_core_ingredients data)))
       ∧ supporting_ingredients recipe
         = List.filter truthy
             (map normalize_token (items (data_supporting_ingredients data)))
       ∧ Forall (λ item, item ≠ "" ∧ normalize_token item = item)
                (core_ingredients recipe ++ supporting_ingredients recipe))
  ∧ (∀ (raw : list (RecipeData F)) (recipes : list (Recipe F)),
       load_entries raw = Some recipes →
       Forall (λ recipe,
                 Forall (λ item, item ≠ "" ∧ normalize_token item = item)
                        (core_ingredients recipe ++ supporting_ingredients recipe))
              recipes)
  ∧ ingredient_matches (F:=float) "Egg" {["egg"]} = false
  ∧ ingredient_matches (F:=float) "egg" {["egg"]} = true.
Proof.
  split; [exact EntryFacts.from_dict_none|].
  split; [|split; [|split; [|split; vm_compute; reflexivity]]].
  - intros data Hreadable. destruct (from_dict data) as [recipe|] eqn:Hfrom.
    + exists recipe. split; [reflexivity|]. now apply EntryFacts.from_dict_lists.
    + apply EntryFacts.from_dict_none in Hfrom. contradiction.
  - intros data recipe Hfrom.
    destruct (EntryFacts.from_dict_lists data recipe Hfrom) as [Hc Hs].
    split; [exact Hc|]. split; [exact Hs|].
    rewrite Hc, Hs. apply Forall_app. split; apply NormalizeFacts.norm_list_stored.
  - induction raw as [|entry rest IH]; intros recipes; simpl.
    + intros [= <-]. constructor.
    + destruct (from_dict entry) as [recipe|] eqn:Hentry; [|discriminate].
      destruct (load_entries rest) as [loaded|]; [|discriminate].
      intros [= <-]. constructor; [|now apply IH].
      destruct (EntryFacts.from_dict_lists entry recipe Hentry) as [-> ->].
      apply Forall_app. split; apply NormalizeFacts.norm_list_stored.
Qed.

(** ** The matcher *)

Section MatcherFacts.

Context {F : Type} `{PyFloat F}.

Local Open Scope py_scope.

Lemma scan_pantry_true (ingredient : string) (items : list string) :
  scan_pantry (tokenize ingredient) items = true
  ↔ ∃ item, In item items ∧ covers ingredient item.
Proof.
  induction items as [|item rest IH]; simpl.
  - split; [discriminate|]. intros (? & [] & _).
  - assert (Hskip : ¬ covers ingredient item →
              ((∃ it, In it rest ∧ covers ingredient it)
               ↔ ∃ it, (item = it ∨ In it rest) ∧ covers ingredient it)).
    { intros Hno. split.
      - intros (it & Hin & Hc). eauto.
      - intros (it & [<-|Hin] & Hc); [contradiction|eauto]. }
    destruct (decide (tokenize item = ∅)) as [Hempty|Hne].
    { rewrite IH. apply Hskip. intros [Hpos _]. rewrite Hempty in Hpos.
      rewrite intersection_empty_r_L, size_empty in Hpos. lia. }
    destruct (Nat.eqb_spec (size (tokenize ingredient ∩ tokenize item)) 0) as [Hz|Hnz].
    { rewrite IH. apply Hskip. intros [Hpos _]. lia. }
    unfold coverage_of.
    destruct (lit 6 10 <=? _) eqn:Hcov.
    + split; [|reflexivity]. intros _. exists item. split; [now left|].
      split; [lia|exact Hcov].
    + rewrite IH. apply Hskip. intros [_ Hc]. congruence.
Qed.

Lemma ingredient_matches_true (ingredient : string) (pantry : gset string) :
  ingredient_matches ingredient pantry = true
  ↔ ∃ item, item ∈ pantry ∧ covers ingredient item.
Proof.
  unfold ingredient_matches.
  destruct (decide (tokenize ingredient = ∅)) as [Hempty|Hne].
  - split; [discriminate|]. intros (item & _ & Hpos & _). exfalso.
    rewrite Hempty, intersection_empty_l_L, size_empty in Hpos. lia.
  - rewrite scan_pantry_true. split; intros (item & Hin & Hc); exists item; split; auto.
    + apply elem_of_elements. now apply list_elem_of_In.
    + apply list_elem_of_In. now apply elem_of_elements.
Qed.

Lemma ingredient_matches_mono (ingredient : string) (P Q : gset string) :
  P ⊆ Q → ingredient_matches ingredient P = true → ingredient_matches ingredient Q = true.
Proof.
  intros Hsub. rewrite !ingredient_matches_true. intros (item & Hin & Hc).
  exists item. split; [set_solver|exact Hc].
Qed.

Lemma count_hits_le_length (ingredients : list string) (pantry : gset string) :
  count_hits ingredients pantry ≤ length ingredients.
Proof. apply List.filter_length_le. Qed.

Lemma count_hits_mono (ingredients : list string) (P Q : gset string) :
  P ⊆ Q → count_hits ingredients P ≤ count_hits ingredients Q.
Proof.
  intros Hsub. unfold count_hits. induction ingredients as [|i rest IH]; simpl; [lia|].
  destruct (ingredient_matches i P) eqn:HP.
  - rewrite (ingredient_matches_mono i P Q Hsub HP). simpl. lia.
  - destruct (ingredient_matches i Q); simpl; lia.
Qed.

End MatcherFacts.

(** ** Exact arithmetic *)

Module ExactFacts.

Local Open Scope Q_scope.

Lemma of_int_nonneg (n : nat) : 0 <= of_int (F:=Q) n.
Proof. simpl. unfold Qle; simpl. lia. Qed.

Lemma of_int_pos (n : nat) : (0 < n)%nat → 0 < of_int (F:=Q) n.
Proof. intros Hn. simpl. unfold Qlt; simpl. lia. Qed.

Lemma of_int_le (a b : nat) : (a ≤ b)%nat → of_int (F:=Q) a <= of_int b.
Proof. intros Hab. simpl. unfold Qle; simpl. lia. Qed.

Lemma lit_value (n d : nat) : lit (F:=Q) n d == inject_Z (Z.of_nat n) / inject_Z (Z.of_nat d).
Proof. reflexivity. Qed.

Lemma ratio_le (a b n : nat) :
  (a ≤ b)%nat → (0 < n)%nat → of_int (F:=Q) a / of_int n <= of_int b / of_int n.
Proof.
  intros Hab Hn. unfold Qdiv. apply Qmult_le_compat_r; [now apply of_int_le|].
  apply Qinv_le_0_compat, of_int_nonneg.
Qed.

Lemma ratio_bounds (a n : nat) :
  (a ≤ n)%nat → (0 < n)%nat → 0 <= of_int (F:=Q) a / of_int n <= 1.
Proof.
  intros Han Hn. split.
  - apply Qle_shift_div_l; [now apply of_int_pos|]. rewrite Qmult_0_l. apply of_int_nonneg.
  - apply Qle_shift_div_r; [now apply of_int_pos|]. rewrite Qmult_1_l. now apply of_int_le.
Qed.

(** [overlap / smaller >= 0.6] without the division. *)
Lemma coverage_threshold (overlap smaller : nat) :
  (0 < smaller)%nat →
  leb (lit 6 10) (div (of_int overlap) (of_int smaller)) = true
  ↔ (3 * smaller ≤ 5 * overlap)%nat.
Proof.
  intros Hs. simpl. rewrite Qle_bool_iff.
  destruct smaller as [|k]; [lia|].
  unfold Qle, Qdiv, Qmult, Qinv, inject_Z. change (Z.of_nat (S k)) with (Z.pos (Pos.of_succ_nat k)).
  change (Z.of_nat 10) with 10%Z. change (Z.of_nat 6) with 6%Z.
  cbn [Qnum Qden]. lia.
Qed.

End ExactFacts.

(** ** Binary64 on bounded counts *)

Module BinaryTables.

Lemma coverage_agrees_sound (bound overlap smaller : nat) :
  coverage_agrees bound = true →
  0 < smaller → smaller ≤ bound → overlap ≤ smaller →
  leb (F:=float) (lit 6 10) (div (of_int overlap) (of_int smaller)) = true
  ↔ 3 * smaller ≤ 5 * overlap.
Proof.
  intros Htable Hpos Hbound Hle.
  unfold coverage_agrees in Htable. rewrite forallb_forall in Htable.
  specialize (Htable smaller ltac:(apply in_seq; lia)). cbv beta in Htable.
  rewrite forallb_forall in Htable.
  specialize (Htable overlap ltac:(apply in_seq; lia)). cbv beta in Htable.
  apply Bool.eqb_prop in Htable. rewrite Htable. apply Nat.leb_le.
Qed.

Lemma coverage_table : coverage_agrees 200 = true.
Proof. vm_compute. reflexivity. Qed.

Lemma coverage_threshold_binary64 (overlap smaller : nat) :
  0 < smaller → smaller ≤ 200 → overlap ≤ smaller →
  leb (F:=float) (lit 6 10) (div (of_int overlap) (of_int smaller)) = true
  ↔ 3 * smaller ≤ 5 * overlap.
Proof. exact (coverage_agrees_sound 200 overlap smaller coverage_table). Qed.





End BinaryTables.

Lemma ingredient_score_counts {F : Type} `{PyFloat F} (self : Recipe F)
    (pantry : gset string) :
  ingredient_score self pantry
  = score_of_counts (count_hits (core_ingredients self) pantry)
                    (length (core_ingredients self))
                    (count_hits (supporting_ingredients self) pantry)
                    (length (supporting_ingredients self)).
Proof.
  unfold ingredient_score, score_of_counts, weighted.
  destruct (core_ingredients self); [reflexivity|].
  destruct (supporting_ingredients self); reflexivity.
Qed.

(** ** Claims about the matcher and the coverage score *)

(** C1: [ingredient_matches] returns true exactly when some pantry item
    shares at least one token with the ingredient and the shared tokens
    make up at least 0.6 of the smaller of the two token sets; an
    ingredient without tokens matches nothing.  In exact arithmetic the
    threshold test is [3 * min(|A|,|B|) <= 5 * |A ∩ B|], and so it is in
    binary64 for an ingredient of at most 200 tokens.  The two examples of
    the specification are evaluated in binary64. *)
Theorem ingredient_matches_spec :
  (∀ (F : Type) (HF : PyFloat F) (ingredient : string) (pantry : gset string),
     (ingredient_matches ingredient pantry = true
      ↔ ∃ item, item ∈ pantry
          ∧ let A := tokenize ingredient in
            let B := tokenize item in
            0 < size (A ∩ B)
            ∧ leb (lit 6 10)
                  (div (of_int (size (A ∩ B))) (of_int (Nat.min (size A) (size B))))
              = true)
     ∧ (tokenize ingredient = ∅ → ingredient_matches ingredient pantry = false))
  ∧ (∀ (ingredient : string) (pantry : gset string),
       ingredient_matches (F:=Q) ingredient pantry = true
       ↔ ∃ item, item ∈ pantry
           ∧ let A := tokenize ingredient in
             let B := tokenize item in
             0 < size (A ∩ B) ∧ 3 * Nat.min (size A) (size B) ≤ 5 * size (A ∩ B))
  ∧ (∀ (ingredient : string) (pantry : gset string),
       size (tokenize ingredient) ≤ 200 →
       ingredient_matches (F:=float) ingredient pantry = true
       ↔ ∃ item, item ∈ pantry
           ∧ let A := tokenize ingredient in
             let B := tokenize item in
             0 < size (A ∩ B) ∧ 3 * Nat.min (size A) (size B) ≤ 5 * size (A ∩ B))
  ∧ ingredient_matches (F:=float) "red bell pepper" {["bell pepper"]} = true
  ∧ ingredient_matches (F:=float) "egg" {["eggplant"]} = false.
Proof.
  split; [|split; [|split; [|split; vm_compute; reflexivity]]].
  - intros F HF ingredient pantry. split.
    + apply ingredient_matches_true.
    + intros Hempty. unfold ingredient_matches. now rewrite decide_True.
  - intros ingredient pantry. rewrite ingredient_matches_true. unfold covers.
    split; intros (item & Hin & Hpos & Hcov); exists item; (split; [exact Hin|]);
      (split; [exact Hpos|]).
    + apply ExactFacts.coverage_threshold in Hcov; [exact Hcov|].
      pose proof (subseteq_size _ _ (intersection_subseteq_l (tokenize ingredient) (tokenize item))).
      pose proof (subseteq_size _ _ (intersection_subseteq_r (tokenize ingredient) (tokenize item))).
      lia.
    + apply ExactFacts.coverage_threshold; [|exact Hcov].
      pose proof (subseteq_size _ _ (intersection_subseteq_l (tokenize ingredient) (tokenize item))).
      pose proof (subseteq_size _ _ (intersection_subseteq_r (tokenize ingredient) (tokenize item))).
      lia.
  - intros ingredient pantry Hsmall. rewrite ingredient_matches_true. unfold covers.
    split; intros (item & Hin & Hpos & Hcov); exists item; (split; [exact Hin|]);
      (split; [exact Hpos|]);
      pose proof (subseteq_size _ _
                    (intersection_subseteq_l (tokenize ingredient) (tokenize item)));
      pose proof (subseteq_size _ _
                    (intersection_subseteq_r (tokenize ingredient) (tokenize item))).
    + apply BinaryTables.coverage_threshold_binary64 in Hcov; [exact Hcov|lia..].
    + apply BinaryTables.coverage_threshold_binary64; [lia..|exact Hcov].
Qed.

(** An ingredient without tokens against a pantry, and the two directions
    of the equivalence at the first example of the specification. *)
Lemma ingredient_matches_spec_witness :
  tokenize "  " = ∅
  ∧ ingredient_matches (F:=float) "  " {["egg"]} = false
  ∧ (∃ item, item ∈ ({["bell pepper"]} : gset string)
       ∧ 0 < size (tokenize "red bell pepper" ∩ tokenize item))
  ∧ ∃ item, item ∈ ({["bell pepper"]} : gset string)
      ∧ 3 * Nat.min (size (tokenize "red bell pepper")) (size (tokenize item))
        ≤ 5 * size (tokenize "red bell pepper" ∩ tokenize item).
Proof.
  destruct ingredient_matches_spec as (Hgen & _ & Hfloat & _).
  destruct (Hgen float binary64 "  " {["egg"]}) as [_ Hempty].
  destruct (Hgen float binary64 "red bell pepper" {["bell pepper"]}) as [[Hex _] _].
  destruct (Hfloat "red bell pepper" {["bell pepper"]}) as [Hex' _];
    [vm_compute; lia|].
  split; [vm_compute; reflexivity|]. split; [apply Hempty; vm_compute; reflexivity|].
  split.
  - destruct Hex as (item & Hin & Hpos & _); [vm_compute; reflexivity|].
    exists item. split; [exact Hin|exact Hpos].
  - destruct Hex' as (item & Hin & _ & Hcov); [vm_compute; reflexivity|].
    exists item. split; [exact Hin|exact Hcov].
Defined.





(** ** Macro ratios and balance *)

Section MacroFacts.

Context {F : Type} `{PyFloat F}.

Local Open Scope py_scope.

Lemma calories_unfold (self : Recipe F) :
  calories self
  = zero + grams self "carbs" * of_int 4 + grams self "protein" * of_int 4
    + grams self "fat" * of_int 9.
Proof. reflexivity. Qed.

Lemma macro_ratios_zero (self : Recipe F) :
  (calories self <=? zero) = true →
  macro_ratios self
  = <["carbs" := zero]> (<["protein" := zero]> (<["fat" := zero]> ∅)).
Proof. intros E. unfold macro_ratios. rewrite E. reflexivity. Qed.

Lemma macro_ratios_pos (self : Recipe F) :
  (calories self <=? zero) = false →
  macro_ratios self
  = <["carbs" := grams self "carbs" * of_int 4 / calories self]>
      (<["protein" := grams self "protein" * of_int 4 / calories self]>
         (<["fat" := grams self "fat" * of_int 9 / calories self]> ∅)).
Proof. intros E. unfold macro_ratios. rewrite E. reflexivity. Qed.

Lemma ratio_zero (self : Recipe F) :
  (calories self <=? zero) = true →
  ratio self "carbs" = zero ∧ ratio self "protein" = zero ∧ ratio self "fat" = zero.
Proof. intros E. unfold ratio. rewrite (macro_ratios_zero self E). now vm_compute. Qed.

Lemma ratio_pos (self : Recipe F) :
  (calories self <=? zero) = false →
  ratio self "carbs" = grams self "carbs" * of_int 4 / calories self
  ∧ ratio self "protein" = grams self "protein" * of_int 4 / calories self
  ∧ ratio self "fat" = grams self "fat" * of_int 9 / calories self.
Proof.
  intros E. unfold ratio. rewrite (macro_ratios_pos self E).
  repeat split; simplify_map_eq; reflexivity.
Qed.

Lemma macro_ratios_keys (self : Recipe F) (macro : string) :
  macro_ratios self !! macro ≠ None ↔ macro = "carbs" ∨ macro = "protein" ∨ macro = "fat".
Proof.
  destruct (calories self <=? zero) eqn:E;
    [rewrite (macro_ratios_zero self E)|rewrite (macro_ratios_pos self E)];
    (destruct (decide (macro = "carbs")) as [->|?];
     [|destruct (decide (macro = "protein")) as [->|?];
       [|destruct (decide (macro = "fat")) as [->|?]]]);
    simplify_map_eq; intuition congruence.
Qed.

Lemma within_tolerance_unfold (ratios : gmap string F) :
  within_tolerance ratios = true
  ↔ (deviation ratios "carbs" <=? RATIO_TOLERANCE) = true
    ∧ (deviation ratios "protein" <=? RATIO_TOLERANCE) = true
    ∧ (deviation ratios "fat" <=? RATIO_TOLERANCE) = true.
Proof.
  unfold within_tolerance. simpl. rewrite !andb_true_iff. intuition.
Qed.

Lemma score_of_ratios_unfold (ratios : gmap string F) :
  score_of_ratios ratios
  = py_max zero
      (py_min one
         (one - (zero + deviation ratios "carbs" / RATIO_TOLERANCE
                 + deviation ratios "protein" / RATIO_TOLERANCE
                 + deviation ratios "fat" / RATIO_TOLERANCE) / of_int 3)).
Proof. reflexivity. Qed.

Lemma deviation_unfold (ratios : gmap string F) :
  deviation ratios "carbs" = fabs (default zero (ratios !! "carbs") - lit 4 10)
  ∧ deviation ratios "protein" = fabs (default zero (ratios !! "protein") - lit 3 10)
  ∧ deviation ratios "fat" = fabs (default zero (ratios !! "fat") - lit 3 10).
Proof. repeat split. Qed.

End MacroFacts.

(** ** Binary64 comparisons *)

Module BinaryFacts.

Lemma ltb_leb (x y : float) : PrimFloat.ltb x y = true → PrimFloat.leb x y = true.
Proof.
  rewrite ltb_spec, leb_spec. unfold SFltb, SFleb.
  destruct (SFcompare (Prim2SF x) (Prim2SF y)) as [[]|]; congruence.
Qed.

(** [max(0.0, min(1.0, score))] is between 0 and 1 for every score, a NaN
    included. *)
Lemma clamp_bounds_binary64 (score : float) :
  PrimFloat.leb 0 (py_max zero (py_min one score)) = true
  ∧ PrimFloat.leb (py_max zero (py_min one score)) 1 = true.
Proof.
  unfold py_max, py_min.
  change (@zero float binary64) with 0%float. change (@one float binary64) with 1%float.
  change (@ltb float binary64) with PrimFloat.ltb.
  destruct (PrimFloat.ltb score 1) eqn:E1.
  - destruct (PrimFloat.ltb 0 score) eqn:E0.
    + split; now apply ltb_leb.
    + split; reflexivity.
  - change (PrimFloat.ltb 0 1) with true. cbv iota. split; reflexivity.
Qed.

End BinaryFacts.

(** ** Exact clamping and ratios *)

Module ExactMacroFacts.

Local Open Scope Q_scope.

Lemma leb_false (x y : Q) : leb (F:=Q) x y = false ↔ y < x.
Proof.
  simpl. split.
  - intros E. apply Qnot_le_lt. intros Hle. apply Qle_bool_iff in Hle. congruence.
  - intros Hlt. destruct (Qle_bool x y) eqn:E; [|reflexivity].
    apply Qle_bool_iff in E. exfalso. exact (Qlt_not_le _ _ Hlt E).
Qed.

Lemma ltb_true (x y : Q) : ltb (F:=Q) x y = true ↔ x < y.
Proof.
  simpl. rewrite negb_true_iff. apply (leb_false y x).
Qed.

Lemma ltb_false (x y : Q) : ltb (F:=Q) x y = false ↔ y <= x.
Proof.
  simpl. rewrite negb_false_iff. apply Qle_bool_iff.
Qed.

(** [max(0.0, min(1.0, x))] by cases. *)
Lemma clamp_cases (x : Q) :
  (x <= 0 ∧ py_max zero (py_min one x) = 0)
  ∨ (0 < x < 1 ∧ py_max zero (py_min one x) = x)
  ∨ (1 <= x ∧ py_max zero (py_min one x) = 1).
Proof.
  unfold py_max, py_min. change (@zero Q exact) with 0. change (@one Q exact) with 1.
  destruct (ltb x 1) eqn:E1.
  - apply ltb_true in E1. destruct (ltb 0 x) eqn:E0.
    + apply ltb_true in E0. right; left. auto.
    + apply ltb_false in E0. left. auto.
  - apply ltb_false in E1. right; right. split; [exact E1|]. reflexivity.
Qed.

Lemma clamp_bounds_exact (x : Q) : 0 <= py_max zero (py_min one x) <= 1.
Proof.
  destruct (clamp_cases x) as [[? ->]|[[[? ?] ->]|[? ->]]]; split; lra.
Qed.

Lemma clamp_eq (x y : Q) :
  x == y → py_max zero (py_min one x) == py_max zero (py_min one y).
Proof.
  intros E.
  destruct (clamp_cases x) as [[? ->]|[[[? ?] ->]|[? ->]]];
    destruct (clamp_cases y) as [[? ->]|[[[? ?] ->]|[? ->]]]; lra.
Qed.

Lemma calories_value (self : Recipe Q) :
  calories self
  == grams self "carbs" * 4 + grams self "protein" * 4 + grams self "fat" * 9.
Proof.
  rewrite calories_unfold. simpl. change (@zero Q exact) with 0.
  change (inject_Z 4) with 4. change (inject_Z 9) with 9. ring.
Qed.

Lemma ratios_sum (self : Recipe Q) :
  0 < calories self →
  ratio self "carbs" + ratio self "protein" + ratio self "fat" == 1.
Proof.
  intros Hpos. assert (E : leb (calories self) zero = false) by now apply leb_false.
  destruct (ratio_pos self E) as (-> & -> & ->).
  pose proof (calories_value self) as Hcal. simpl.
  change (inject_Z 4) with 4. change (inject_Z 9) with 9.
  set (cal := calories self) in *. set (c := grams self "carbs") in *.
  set (p := grams self "protein") in *. set (f := grams self "fat") in *.
  clearbody cal c p f.
  assert (Hsum : c * 4 / cal + p * 4 / cal + f * 9 / cal == (c * 4 + p * 4 + f * 9) / cal).
  { field. intros E0. rewrite E0 in Hpos. inversion Hpos. }
  rewrite Hsum, <- Hcal. field. intros E0. rewrite E0 in Hpos. inversion Hpos.
Qed.

(** The score before clamping, as a function of the three deviations. *)
Lemma raw_score_value (dc dp df : Q) :
  sub one
      (div (add (add (add zero (div dc RATIO_TOLERANCE)) (div dp RATIO_TOLERANCE))
                (div df RATIO_TOLERANCE))
           (of_int 3))
  == 1 - (dc + dp + df) * (10 # 3).
Proof.
  cbn [add sub mul div exact].
  change (@RATIO_TOLERANCE Q exact) with (1 # 10).
  change (@zero Q exact) with 0. change (@one Q exact) with 1.
  change (of_int (F:=Q) 3) with 3. field.
Qed.

Lemma abs_diff_zero (x t : Q) : x == t → Qabs (x - t) == 0.
Proof.
  intros E. rewrite E. unfold Qminus. rewrite Qplus_opp_r. reflexivity.
Qed.

End ExactMacroFacts.

(** ** Claims about macro ratios and balance *)

(** C3 as the specification words it fails in binary64: for the macros
    [{carbs: 2, protein: 8, fat: 7}] the calories are 103, and the three
    ratios 8/103, 32/103 and 63/103, rounded, add up to the float just
    below 1 in whichever order they are added. *)
Lemma macro_ratios_sum_not_one :
  let self : Recipe float :=
    {| name := "stew"; servings := 1; core_ingredients := []; supporting_ingredients := [];
       instructions := [];
       macros := <["carbs" := 2%float]> (<["protein" := 8%float]> {["fat" := 7%float]});
       tags := []; notes := "" |} in
  let c := ratio self "carbs" in
  let p := ratio self "protein" in
  let f := ratio self "fat" in
  calories self = 103%float
  ∧ PrimFloat.leb (calories self) 0 = false
  ∧ c = PrimFloat.div 8 103 ∧ p = PrimFloat.div 32 103 ∧ f = PrimFloat.div 63 103
  ∧ PrimFloat.ltb (c + p + f) 1 = true
  ∧ PrimFloat.eqb (c + p + f) 1 = false
  ∧ PrimFloat.eqb (c + (p + f)) 1 = false
  ∧ PrimFloat.eqb (c + f + p) 1 = false.
Proof. vm_compute. repeat split. Qed.

(** C3 (amended): [macro_ratios] adds up the calories of carbs, protein
    and fat with the factors 4, 4 and 9, starting from 0.0, a macro that
    the recipe does not list counting as 0 grams.  When the total is [<= 0]
    the three ratios are 0; otherwise each is [grams * factor / total].
    In exact arithmetic the three ratios of a recipe with positive calories
    add up to exactly 1; in binary64 they need not: for the macros
    [{carbs: 2, protein: 8, fat: 7}] the calories are positive and the sum
    of the three ratios is below 1. *)
Theorem macro_ratios_spec :
  (∀ (F : Type) (HF : PyFloat F) (self : Recipe F),
     let g macro := default (of_int 0) (macros self !! macro) in
     let total :=
       add (add (add (of_int 0) (mul (g "carbs") (of_int 4))) (mul (g "protein") (of_int 4)))
           (mul (g "fat") (of_int 9)) in
     calories self = total
     ∧ (leb total (of_int 0) = true →
        macro_ratios self
        = <["carbs" := of_int 0]> (<["protein" := of_int 0]> (<["fat" := of_int 0]> ∅)))
     ∧ (leb total (of_int 0) = false →
        macro_ratios self
        = <["carbs" := div (mul (g "carbs") (of_int 4)) total]>
            (<["protein" := div (mul (g "protein") (of_int 4)) total]>
               (<["fat" := div (mul (g "fat") (of_int 9)) total]> ∅))))
  ∧ (∀ self : Recipe Q,
       let g macro := default 0%Q (macros self !! macro) in
       (calories self == g "carbs" * 4 + g "protein" * 4 + g "fat" * 9)%Q
       ∧ ((calories self <= 0)%Q →
          ratio self "carbs" = 0%Q ∧ ratio self "protein" = 0%Q ∧ ratio self "fat" = 0%Q)
       ∧ ((0 < calories self)%Q →
          (ratio self "carbs" + ratio self "protein" + ratio self "fat" == 1)%Q))
  ∧ (let self : Recipe float :=
       {| name := "stew"; servings := 1; core_ingredients := [];
          supporting_ingredients := []; instructions := [];
          macros := <["carbs" := 2%float]> (<["protein" := 8%float]> {["fat" := 7%float]});
          tags := []; notes := "" |} in
     PrimFloat.ltb 0 (calories self) = true
     ∧ PrimFloat.ltb (ratio self "carbs" + ratio self "protein" + ratio self "fat") 1
       = true).
Proof.
  split; [|split].
  - intros F HF self g total. split; [reflexivity|]. split.
    + apply macro_ratios_zero.
    + apply macro_ratios_pos.
  - intros self g. split; [apply ExactMacroFacts.calories_value|]. split.
    + intros Hle. exact (ratio_zero self (proj2 (Qle_bool_iff _ _) Hle)).
    + apply ExactMacroFacts.ratios_sum.
  - vm_compute. split; reflexivity.
Qed.

(** Nothing but fat (no calories from the absent macros), in binary64 and
    exactly; and a recipe without macros. *)
Lemma macro_ratios_spec_witness :
  macro_ratios (F:=float)
    {| name := "butter"; servings := 1; core_ingredients := []; supporting_ingredients := [];
       instructions := []; macros := {["fat" := 10%float]}; tags := []; notes := "" |}
  = <["carbs" := 0%float]> (<["protein" := 0%float]> (<["fat" := 1%float]> ∅))
  ∧ (ratio (F:=Q)
       {| name := "butter"; servings := 1; core_ingredients := [];
          supporting_ingredients := []; instructions := [];
          macros := {["fat" := 10%Q]}; tags := []; notes := "" |} "carbs"
     + ratio (F:=Q)
         {| name := "butter"; servings := 1; core_ingredients := [];
            supporting_ingredients := []; instructions := [];
            macros := {["fat" := 10%Q]}; tags := []; notes := "" |} "protein"
     + ratio (F:=Q)
         {| name := "butter"; servings := 1; core_ingredients := [];
            supporting_ingredients := []; instructions := [];
            macros := {["fat" := 10%Q]}; tags := []; notes := "" |} "fat" == 1)%Q
  ∧ ratio (F:=Q)
      {| name := "water"; servings := 1; core_ingredients := [];
         supporting_ingredients := []; instructions := [];
         macros := ∅; tags := []; notes := "" |} "fat" = 0%Q.
Proof.
  destruct macro_ratios_spec as (Hgen & Hexact & _). split; [|split].
  - etransitivity; [apply (Hgen float binary64); vm_compute; reflexivity|].
    vm_compute. reflexivity.
  - apply Hexact. vm_compute. reflexivity.
  - apply Hexact. vm_compute. discriminate.
Defined.

(** C4: [is_balanced] holds exactly when, for carbs, protein and fat, the
    absolute difference between the recipe's ratio and the target (0.4,
    0.3, 0.3) is at most the tolerance 0.1.  A recipe whose macros are
    [{carbs: 100, protein: 0, fat: 0}] is not balanced, in binary64 and in
    exact arithmetic. *)
Theorem is_balanced_spec :
  (∀ (F : Type) (HF : PyFloat F) (self : Recipe F),
     let r macro := default (of_int 0) (macro_ratios self !! macro) in
     is_balanced self = true
     ↔ leb (fabs (sub (r "carbs") (lit 4 10))) (lit 1 10) = true
       ∧ leb (fabs (sub (r "protein") (lit 3 10))) (lit 1 10) = true
       ∧ leb (fabs (sub (r "fat") (lit 3 10))) (lit 1 10) = true)
  ∧ (∀ nm sv co su ins tg nt,
       is_balanced (F:=float)
         {| name := nm; servings := sv; core_ingredients := co;
            supporting_ingredients := su; instructions := ins;
            macros := <["carbs" := 100%float]>
                        (<["protein" := 0%float]> {["fat" := 0%float]});
            tags := tg; notes := nt |} = false)
  ∧ (∀ nm sv co su ins tg nt,
       is_balanced (F:=Q)
         {| name := nm; servings := sv; core_ingredients := co;
            supporting_ingredients := su; instructions := ins;
            macros := <["carbs" := 100%Q]> (<["protein" := 0%Q]> {["fat" := 0%Q]});
            tags := tg; notes := nt |} = false).
Proof.
  split; [|split].
  - intros F HF self r. unfold is_balanced. apply within_tolerance_unfold.
  - intros. vm_compute. reflexivity.
  - intros. vm_compute. reflexivity.
Qed.

(** C5: [balance_score] is 1 minus the average over carbs, protein and fat
    of [|ratio - target| / 0.1], clamped by [max(0.0, min(1.0, _))].  The
    result lies in [0,1], in binary64 (whatever the macros, infinities and
    NaN included) and in exact arithmetic, where the clamp returns 0 below
    0, 1 above 1 and its argument in between.  Ratios equal to the targets
    score 1; deviations equal to the tolerance on the three macros score
    0. *)
Theorem balance_score_spec :
  (∀ (F : Type) (HF : PyFloat F) (self : Recipe F),
     let r macro := default (of_int 0) (macro_ratios self !! macro) in
     let delta macro target := div (fabs (sub (r macro) target)) (lit 1 10) in
     let total :=
       add (add (add (of_int 0) (delta "carbs" (lit 4 10))) (delta "protein" (lit 3 10)))
           (delta "fat" (lit 3 10)) in
     balance_score self
     = py_max (of_int 0) (py_min (of_int 1) (sub (of_int 1) (div total (of_int 3)))))
  ∧ (∀ x : Q,
       ((x <= 0)%Q → py_max (of_int 0) (py_min (of_int 1) x) = 0%Q)
       ∧ ((0 <= x <= 1)%Q → (py_max (of_int 0) (py_min (of_int 1) x) == x)%Q)
       ∧ ((1 <= x)%Q → py_max (of_int 0) (py_min (of_int 1) x) = 1%Q))
  ∧ (∀ self : Recipe Q, (0 <= balance_score self <= 1)%Q)
  ∧ (∀ self : Recipe float,
       PrimFloat.leb 0 (balance_score self) = true
       ∧ PrimFloat.leb (balance_score self) 1 = true)
  ∧ (∀ self : Recipe Q,
       (ratio self "carbs" == 4 # 10)%Q → (ratio self "protein" == 3 # 10)%Q →
       (ratio self "fat" == 3 # 10)%Q →
       (balance_score self == 1)%Q)
  ∧ (∀ self : Recipe float,
       ratio self "carbs" = lit 4 10 → ratio self "protein" = lit 3 10 →
       ratio self "fat" = lit 3 10 →
       balance_score self = 1%float)
  ∧ (∀ ratios : gmap string Q,
       (deviation ratios "carbs" == 1 # 10)%Q → (deviation ratios "protein" == 1 # 10)%Q →
       (deviation ratios "fat" == 1 # 10)%Q →
       (score_of_ratios ratios == 0)%Q).
Proof.
  split; [reflexivity|]. split; [|split; [|split; [|split; [|split]]]].
  - intros x. destruct (ExactMacroFacts.clamp_cases x) as [[? E]|[[[? ?] E]|[? E]]];
      change (py_max (of_int 0) (py_min (of_int 1) x)) with (py_max zero (py_min one x));
      rewrite E; repeat split; intros; try reflexivity; lra.
  - intros self. apply ExactMacroFacts.clamp_bounds_exact.
  - intros self. apply BinaryFacts.clamp_bounds_binary64.
  - intros self Hc Hp Hf. unfold balance_score. rewrite score_of_ratios_unfold.
    rewrite (ExactMacroFacts.clamp_eq _ 1%Q); [reflexivity|].
    rewrite ExactMacroFacts.raw_score_value.
    destruct (deviation_unfold (macro_ratios self)) as (-> & -> & ->).
    fold (ratio self "carbs") (ratio self "protein") (ratio self "fat").
    change (@fabs Q exact) with Qabs. change (@sub Q exact) with Qminus.
    change (lit (F:=Q) 4 10) with (4 # 10)%Q. change (lit (F:=Q) 3 10) with (3 # 10)%Q.
    rewrite !ExactMacroFacts.abs_diff_zero by assumption. reflexivity.
  - intros self Hc Hp Hf. unfold balance_score. rewrite score_of_ratios_unfold.
    destruct (deviation_unfold (macro_ratios self)) as (-> & -> & ->).
    fold (ratio self "carbs") (ratio self "protein") (ratio self "fat").
    rewrite Hc, Hp, Hf. vm_compute. reflexivity.
  - intros ratios Hc Hp Hf. rewrite score_of_ratios_unfold.
    rewrite (ExactMacroFacts.clamp_eq _ 0%Q); [reflexivity|].
    rewrite ExactMacroFacts.raw_score_value, Hc, Hp, Hf. reflexivity.
Qed.

(** A recipe on target in exact arithmetic (200, 150 and 150 of 500
    calories), one on target in binary64 (4, 3 and 3 of 10 calories), and
    ratios 0.5, 0.4, 0.2 that are each off by the tolerance. *)
Lemma balance_score_spec_witness :
  (balance_score (F:=Q)
     {| name := "bowl"; servings := 1; core_ingredients := []; supporting_ingredients := [];
        instructions := [];
        macros := <["carbs" := 50%Q]> (<["protein" := (75 # 2)%Q]> {["fat" := (50 # 3)%Q]});
        tags := []; notes := "" |} == 1)%Q
  ∧ balance_score (F:=float)
      {| name := "bowl"; servings := 1; core_ingredients := []; supporting_ingredients := [];
         instructions := [];
         macros := <["carbs" := 1%float]>
                     (<["protein" := 0.75%float]> {["fat" := PrimFloat.div 1 3]});
         tags := []; notes := "" |} = 1%float
  ∧ (score_of_ratios (F:=Q)
       (<["carbs" := (5 # 10)%Q]> (<["protein" := (4 # 10)%Q]> {["fat" := (2 # 10)%Q]}))
     == 0)%Q
  ∧ py_max (F:=Q) (of_int 0) (py_min (of_int 1) (-(1 # 2))%Q) = 0%Q.
Proof.
  destruct balance_score_spec as (_ & Hclamp & _ & _ & Hexact & Hfloat & Htol).
  split; [|split; [|split]].
  - apply Hexact; vm_compute; reflexivity.
  - apply Hfloat; vm_compute; reflexivity.
  - apply Htol; vm_compute; reflexivity.
  - apply Hclamp. vm_compute. discriminate.
Defined.

(** ** Ranking *)

Section RankingFacts.

Context {F : Type} `{PyFloat F}.

Lemma scoring_loop (pantry : gset string) (recipes : list (Recipe F))
    (scored : list (F * Recipe F)) :
  fold_left
    (λ scored recipe,
       if negb (is_balanced recipe) then scored
       else scored ++ [(rank_score recipe pantry, recipe)])
    recipes scored
  = scored ++ map (scored_entry pantry) (List.filter is_balanced recipes).
Proof.
  revert scored. induction recipes as [|recipe rest IH]; intros scored; simpl.
  - now rewrite app_nil_r.
  - rewrite IH. destruct (is_balanced recipe); simpl; [|reflexivity].
    now rewrite <- app_assoc.
Qed.

Lemma score_recipes_unfold (recipes : list (Recipe F)) (pantry : gset string) :
  score_recipes recipes pantry
  = sort_desc (map (scored_entry pantry) (List.filter is_balanced recipes)).
Proof. unfold score_recipes. now rewrite scoring_loop. Qed.

Lemma insert_desc_perm (item : F * Recipe F) (sorted : list (F * Recipe F)) :
  Permutation (insert_desc item sorted) (item :: sorted).
Proof.
  induction sorted as [|other rest IH]; simpl; [reflexivity|].
  destruct (ltb (fst item) (fst other)); [|reflexivity].
  rewrite IH. apply perm_swap.
Qed.

Lemma sort_desc_perm (scored : list (F * Recipe F)) :
  Permutation (sort_desc scored) scored.
Proof.
  induction scored as [|item rest IH]; simpl; [reflexivity|].
  rewrite insert_desc_perm. now constructor.
Qed.

Lemma score_recipes_entries (recipes : list (Recipe F)) (pantry : gset string) :
  Forall (λ entry,
            fst entry = rank_score (snd entry) pantry
            ∧ is_balanced (snd entry) = true
            ∧ In (snd entry) recipes)
         (score_recipes recipes pantry).
Proof.
  rewrite score_recipes_unfold.
  eapply Permutation_Forall; [symmetry; apply sort_desc_perm|].
  apply List.Forall_forall. intros entry Hin.
  apply List.in_map_iff in Hin as (recipe & <- & Hin).
  apply filter_In in Hin as [Hin Hbal]. auto.
Qed.

End RankingFacts.

(** *** Order of binary64 values *)

Module BinaryOrder.

Lemma rank_le_refl (a : Z * Z * Z) : rank_le a a.
Proof. destruct a as [[a1 a2] a3]. simpl. lia. Qed.

Lemma rank_lt_irrefl (a : Z * Z * Z) : ¬ rank_lt a a.
Proof. destruct a as [[a1 a2] a3]. simpl. lia. Qed.

Lemma rank_le_trans (a b c : Z * Z * Z) : rank_le a b → rank_le b c → rank_le a c.
Proof. destruct a as [[a1 a2] a3], b as [[b1 b2] b3], c as [[c1 c2] c3]. simpl. lia. Qed.

Lemma rank_lt_le (a b : Z * Z * Z) : rank_lt a b → rank_le a b.
Proof. destruct a as [[a1 a2] a3], b as [[b1 b2] b3]. simpl. lia. Qed.

Lemma rank_total (a b : Z * Z * Z) : rank_lt a b ∨ rank_le b a.
Proof. destruct a as [[a1 a2] a3], b as [[b1 b2] b3]. simpl. lia. Qed.

Lemma rank_lt_not_le (a b : Z * Z * Z) : rank_lt a b → ¬ rank_le b a.
Proof. destruct a as [[a1 a2] a3], b as [[b1 b2] b3]. simpl. lia. Qed.

Lemma SFcompare_nan_l (y : spec_float) : SFcompare S754_nan y = None.
Proof. reflexivity. Qed.

Lemma SFcompare_nan_r (x : spec_float) : SFcompare x S754_nan = None.
Proof. destruct x as [| | |[] ? ?]; reflexivity. Qed.

(** The comparison of two values other than NaN is the comparison of their
    ranks. *)
Lemma SFcompare_rank (x y : spec_float) :
  x ≠ S754_nan → y ≠ S754_nan →
  ∃ c, SFcompare x y = Some c
       ∧ (c = Lt ↔ rank_lt (float_rank x) (float_rank y))
       ∧ (c ≠ Gt ↔ rank_le (float_rank x) (float_rank y)).
Proof.
  intros Hx Hy.
  destruct x as [sx|sx| |sx mx ex]; [| |congruence|];
    (destruct y as [sy|sy| |sy my ey]; [| |congruence|]);
    try destruct sx; try destruct sy; cbn [SFcompare float_rank rank_le rank_lt];
    try (eexists; split; [reflexivity|]; split; split; intros; try congruence; try lia; fail).
  all: destruct (Z.compare_spec ex ey) as [E|E|E];
    try (eexists; split; [reflexivity|]; split; split; intros; try congruence; try lia; fail).
  all: subst; rewrite Pos.compare_cont_spec; cbn [Pos.switch_Eq];
    destruct (Pos.compare_spec mx my) as [E|E|E];
    eexists; (split; [reflexivity|]); split; split; intros;
    cbn [Pos.switch_Eq CompOpp] in *; try congruence; try lia.
Qed.

Lemma not_nan_spec (x : float) : not_nan x ↔ Prim2SF x ≠ S754_nan.
Proof.
  unfold not_nan, PrimFloat.is_nan. rewrite negb_false_iff, FloatAxioms.eqb_spec.
  unfold SFeqb. split.
  - intros E Hn. rewrite Hn in E. discriminate.
  - intros Hn. destruct (SFcompare_rank _ _ Hn Hn) as (c & -> & Hlt & Hle).
    destruct c; [reflexivity| |].
    + exfalso. apply (rank_lt_irrefl (float_rank (Prim2SF x))). now apply Hlt.
    + exfalso. apply Hle; [apply rank_le_refl|reflexivity].
Qed.

Lemma leb_rank (x y : float) :
  PrimFloat.leb x y = true ↔ not_nan x ∧ not_nan y ∧ rank_le (float_key x) (float_key y).
Proof.
  rewrite leb_spec, !not_nan_spec. unfold SFleb, float_key.
  destruct (Prim2SF x) eqn:Ex; try (rewrite SFcompare_nan_l; intuition congruence);
  destruct (Prim2SF y) eqn:Ey; try (rewrite SFcompare_nan_r; intuition congruence).
  all: rewrite <- Ex, <- Ey;
    assert (Hx : Prim2SF x ≠ S754_nan) by (rewrite Ex; discriminate);
    assert (Hy : Prim2SF y ≠ S754_nan) by (rewrite Ey; discriminate);
    destruct (SFcompare_rank _ _ Hx Hy) as (c & -> & _ & Hle);
    destruct c; intuition congruence.
Qed.

Lemma ltb_rank (x y : float) :
  PrimFloat.ltb x y = true ↔ not_nan x ∧ not_nan y ∧ rank_lt (float_key x) (float_key y).
Proof.
  rewrite ltb_spec, !not_nan_spec. unfold SFltb, float_key.
  destruct (Prim2SF x) eqn:Ex; try (rewrite SFcompare_nan_l; intuition congruence);
  destruct (Prim2SF y) eqn:Ey; try (rewrite SFcompare_nan_r; intuition congruence).
  all: rewrite <- Ex, <- Ey;
    assert (Hx : Prim2SF x ≠ S754_nan) by (rewrite Ex; discriminate);
    assert (Hy : Prim2SF y ≠ S754_nan) by (rewrite Ey; discriminate);
    destruct (SFcompare_rank _ _ Hx Hy) as (c & -> & Hlt & _);
    destruct c; intuition congruence.
Qed.

(** [x == y] is [x <= y and y <= x], a NaN being equal to nothing. *)
Lemma eqb_leb (x y : float) :
  PrimFloat.eqb x y = PrimFloat.leb x y && PrimFloat.leb y x.
Proof.
  rewrite FloatAxioms.eqb_spec, !leb_spec. unfold SFeqb, SFleb.
  destruct (Prim2SF x) eqn:Ex; try (rewrite !SFcompare_nan_l; reflexivity);
  destruct (Prim2SF y) eqn:Ey;
    try (rewrite !SFcompare_nan_r; destruct (SFcompare _ _) as [[]|]; reflexivity).
  all: rewrite <- Ex, <- Ey;
    assert (Hx : Prim2SF x ≠ S754_nan) by (rewrite Ex; discriminate);
    assert (Hy : Prim2SF y ≠ S754_nan) by (rewrite Ey; discriminate);
    destruct (SFcompare_rank _ _ Hx Hy) as (c & -> & Hlt & Hle);
    destruct (SFcompare_rank _ _ Hy Hx) as (c' & -> & Hlt' & Hle').
  all: pose proof (rank_lt_not_le (float_rank (Prim2SF x)) (float_rank (Prim2SF y)));
    pose proof (rank_lt_not_le (float_rank (Prim2SF y)) (float_rank (Prim2SF x)));
    pose proof (rank_total (float_rank (Prim2SF x)) (float_rank (Prim2SF y)));
    pose proof (rank_total (float_rank (Prim2SF y)) (float_rank (Prim2SF x)));
    destruct c, c'; simpl; try reflexivity; exfalso; intuition congruence.
Qed.

End BinaryOrder.

#[export] Instance binary64_order : FloatOrder (F:=float) not_nan.
Proof.
  split; cbn [leb ltb binary64].
  - intros x y. rewrite BinaryOrder.ltb_rank, BinaryOrder.leb_rank.
    intros (? & ? & ?). auto using BinaryOrder.rank_lt_le.
  - intros x y. rewrite BinaryOrder.ltb_rank. intros (_ & _ & Hlt).
    destruct (PrimFloat.leb y x) eqn:E; [|reflexivity].
    apply BinaryOrder.leb_rank in E as (_ & _ & Hle).
    exfalso. exact (BinaryOrder.rank_lt_not_le _ _ Hlt Hle).
  - intros x y Hx Hy E. apply BinaryOrder.leb_rank. split; [exact Hy|]. split; [exact Hx|].
    destruct (BinaryOrder.rank_total (float_key x) (float_key y)) as [Hlt|Hle];
      [|exact Hle].
    assert (Ht : PrimFloat.ltb x y = true) by (apply BinaryOrder.ltb_rank; auto).
    congruence.
  - intros x y z. rewrite !BinaryOrder.leb_rank.
    intros (? & ? & ?) (? & ? & ?). eauto using BinaryOrder.rank_le_trans.
Qed.

#[export] Instance exact_order : FloatOrder (F:=Q) (λ _, True).
Proof.
  split.
  - intros x y E. apply ExactMacroFacts.ltb_true in E. simpl.
    now apply Qle_bool_iff, Qlt_le_weak.
  - intros x y E. apply ExactMacroFacts.ltb_true in E.
    now apply ExactMacroFacts.leb_false.
  - intros x y _ _ E. apply ExactMacroFacts.ltb_false in E. simpl.
    now apply Qle_bool_iff.
  - intros x y z. simpl. rewrite !Qle_bool_iff. apply Qle_trans.
Qed.

(** *** Sorting by comparable scores *)

Section OrderedScores.

Context {F : Type} `{PyFloat F} (comparable : F → Prop) `{!FloatOrder comparable}.

Lemma order_refl (x : F) : comparable x → leb x x = true.
Proof.
  intros Hx. apply (order_total x x Hx Hx).
  destruct (ltb x x) eqn:E; [|reflexivity].
  pose proof (order_lt_le x x E). pose proof (order_lt_strict x x E). congruence.
Qed.

Lemma same_score_refl (x : F) : comparable x → same_score x x = true.
Proof. intros Hx. unfold same_score. now rewrite (order_refl x Hx). Qed.

Lemma insert_desc_descending (item : F * Recipe F) (sorted : list (F * Recipe F)) :
  comparable (fst item) → Forall (λ entry, comparable (fst entry)) sorted →
  descending sorted → descending (insert_desc item sorted).
Proof.
  intros Hitem Hcomp. unfold descending.
  induction 1 as [|other rest Hrest IH Hall]; cbn [insert_desc].
  - repeat constructor.
  - inversion Hcomp as [|? ? Hother Hcomp']; subst.
    destruct (ltb (fst item) (fst other)) eqn:E.
    + constructor; [now apply IH|].
      eapply Permutation_Forall; [symmetry; apply insert_desc_perm|].
      constructor; [now apply order_lt_le|exact Hall].
    + apply (order_total _ _ Hitem Hother) in E.
      constructor; [now constructor|]. constructor; [exact E|].
      eapply List.Forall_impl; [|exact Hall]. intros z Hz. simpl in *.
      eapply order_trans; eassumption.
Qed.

Lemma sort_desc_descending (scored : list (F * Recipe F)) :
  Forall (λ entry, comparable (fst entry)) scored → descending (sort_desc scored).
Proof.
  induction 1 as [|item rest Hitem Hrest IH]; [constructor|].
  change (sort_desc (item :: rest)) with (insert_desc item (sort_desc rest)).
  apply insert_desc_descending; [exact Hitem| |exact IH].
  eapply Permutation_Forall; [symmetry; apply sort_desc_perm|exact Hrest].
Qed.

(** Insertion passes only entries with a strictly larger score, so it
    never changes the order of two entries with equal scores. *)
Lemma insert_desc_with_score (s : F) (item : F * Recipe F) (sorted : list (F * Recipe F)) :
  with_score s (insert_desc item sorted) = with_score s (item :: sorted).
Proof.
  unfold with_score. induction sorted as [|other rest IH]; [reflexivity|].
  cbn [insert_desc]. destruct (ltb (fst item) (fst other)) eqn:E; [|reflexivity].
  cbn [List.filter] in *. rewrite IH.
  destruct (same_score (fst other) s) eqn:Eo; [|reflexivity].
  destruct (same_score (fst item) s) eqn:Ei; [|reflexivity].
  exfalso. unfold same_score in Eo, Ei.
  apply andb_true_iff in Eo as [Eo1 Eo2]. apply andb_true_iff in Ei as [Ei1 Ei2].
  pose proof (order_trans _ _ _ Eo1 Ei2) as Hle.
  pose proof (order_lt_strict _ _ E). congruence.
Qed.

Lemma sort_desc_with_score (s : F) (scored : list (F * Recipe F)) :
  with_score s (sort_desc scored) = with_score s scored.
Proof.
  induction scored as [|item rest IH]; [reflexivity|].
  change (sort_desc (item :: rest)) with (insert_desc item (sort_desc rest)).
  rewrite insert_desc_with_score.
  unfold with_score in *. cbn [List.filter]. now rewrite IH.
Qed.

Lemma with_score_in (s : F) (entry : F * Recipe F) (scored : list (F * Recipe F)) :
  In entry (with_score s scored) ↔ In entry scored ∧ same_score (fst entry) s = true.
Proof. unfold with_score. apply filter_In. Qed.

Lemma with_score_head (x : F * Recipe F) (rest : list (F * Recipe F)) :
  comparable (fst x) → with_score (fst x) (x :: rest) = x :: with_score (fst x) rest.
Proof.
  intros Hx. unfold with_score. cbn [List.filter]. now rewrite (same_score_refl _ Hx).
Qed.

(** Two descending lists with the same entries, in the same order, at every
    score are equal: a stable descending sort has one possible result. *)
Lemma descending_unique (l1 l2 : list (F * Recipe F)) :
  Forall (λ entry, comparable (fst entry)) l1 →
  Forall (λ entry, comparable (fst entry)) l2 →
  descending l1 → descending l2 →
  (∀ s, with_score s l1 = with_score s l2) → l1 = l2.
Proof.
  intros Hc1 Hc2 H1. revert l2 Hc2 Hc1.
  induction H1 as [|x t1 Ht1 IH Hx]; intros l2 Hc2 Hc1 H2 Hsame.
  - destruct l2 as [|y t2]; [reflexivity|]. exfalso.
    inversion Hc2 as [|? ? Hy _]; subst.
    specialize (Hsame (fst y)). rewrite (with_score_head y t2 Hy) in Hsame. discriminate.
  - inversion Hc1 as [|? ? Hcx Hc1']; subst.
    destruct l2 as [|y t2].
    { exfalso. specialize (Hsame (fst x)). rewrite (with_score_head x t1 Hcx) in Hsame.
      discriminate. }
    inversion Hc2 as [|? ? Hcy Hc2']; subst.
    inversion H2 as [|? ? Ht2 Hy]; subst.
    assert (Hxy : leb (fst x) (fst y) = true).
    { assert (Hin : In x (with_score (fst x) (y :: t2))).
      { rewrite <- Hsame, (with_score_head x t1 Hcx). now left. }
      apply with_score_in in Hin as [[<-|Hin] _]; [now apply order_refl|].
      rewrite List.Forall_forall in Hy. now apply Hy. }
    assert (Hyx : leb (fst y) (fst x) = true).
    { assert (Hin : In y (with_score (fst y) (x :: t1))).
      { rewrite Hsame, (with_score_head y t2 Hcy). now left. }
      apply with_score_in in Hin as [[<-|Hin] _]; [now apply order_refl|].
      rewrite List.Forall_forall in Hx. now apply Hx. }
    assert (Hhead : x = y).
    { specialize (Hsame (fst x)). rewrite (with_score_head x t1 Hcx) in Hsame.
      unfold with_score in Hsame. cbn [List.filter] in Hsame.
      unfold same_score at 2 in Hsame. rewrite Hyx, Hxy in Hsame.
      now inversion Hsame. }
    subst y. f_equal. apply IH; [exact Hc2'|exact Hc1'|exact Ht2|]. intros s.
    specialize (Hsame s). unfold with_score in *. cbn [List.filter] in Hsame.
    destruct (same_score (fst x) s); [now inversion Hsame|exact Hsame].
Qed.

(** Whatever list is descending and keeps, at every score, the scored
    entries in their input order is the list that [score_recipes] returns:
    on comparable scores the result does not depend on the sorting
    algorithm. *)
Lemma stable_sort_unique (recipes : list (Recipe F)) (pantry : gset string)
    (other : list (F * Recipe F)) :
  Forall (λ recipe, comparable (rank_score recipe pantry)) recipes →
  Forall (λ entry, comparable (fst entry)) other →
  descending other →
  (∀ s, with_score s other
        = with_score s (map (scored_entry pantry) (List.filter is_balanced recipes))) →
  other = score_recipes recipes pantry.
Proof.
  intros Hrecipes Hother Hdesc Hsame. rewrite score_recipes_unfold.
  assert (Hscored : Forall (λ entry, comparable (fst entry))
                      (map (scored_entry pantry) (List.filter is_balanced recipes))).
  { apply List.Forall_forall. intros entry Hin.
    apply List.in_map_iff in Hin as (recipe & <- & Hin).
    apply filter_In in Hin as [Hin _]. rewrite List.Forall_forall in Hrecipes.
    now apply Hrecipes. }
  apply descending_unique; [exact Hother| |exact Hdesc| |].
  - eapply Permutation_Forall; [symmetry; apply sort_desc_perm|exact Hscored].
  - now apply sort_desc_descending.
  - intros s. now rewrite sort_desc_with_score.
Qed.

(** The recipes of the result at one score, read off the input. *)
Lemma score_recipes_with_score (recipes : list (Recipe F)) (pantry : gset string) (s : F) :
  map snd (with_score s (score_recipes recipes pantry))
  = List.filter (λ recipe, is_balanced recipe && same_score (rank_score recipe pantry) s)
                recipes.
Proof.
  rewrite score_recipes_unfold, sort_desc_with_score. unfold with_score.
  induction recipes as [|recipe rest IH]; [reflexivity|].
  cbn [List.filter]. destruct (is_balanced recipe); cbn [andb map List.filter].
  - unfold scored_entry at 1. cbn [fst].
    destruct (same_score _ s); cbn [map]; now rewrite IH.
  - exact IH.
Qed.

End OrderedScores.

Lemma StronglySorted_impl {A : Type} (R R' : A → A → Prop) (l : list A) :
  (∀ a b, R a b → R' a b) → StronglySorted R l → StronglySorted R' l.
Proof.
  intros Himpl. induction 1 as [|a l Hl IH Ha]; constructor; [exact IH|].
  eapply List.Forall_impl; [|exact Ha]. apply Himpl.
Qed.

Lemma same_score_exact (x y : Q) : same_score x y = Qeq_bool x y.
Proof.
  unfold same_score. simpl.
  destruct (Qeq_bool x y) eqn:E.
  - apply Qeq_bool_iff in E. apply andb_true_iff.
    split; apply Qle_bool_iff; rewrite E; apply Qle_refl.
  - apply andb_false_iff.
    destruct (Qle_bool x y) eqn:E1; [|now left]. destruct (Qle_bool y x) eqn:E2; [|now right].
    apply Qle_bool_iff in E1, E2. exfalso.
    assert (Heq : (x == y)%Q) by now apply Qle_antisym.
    apply Qeq_bool_iff in Heq. congruence.
Qed.

Lemma same_score_binary64 (x y : float) : same_score x y = PrimFloat.eqb x y.
Proof. symmetry. apply BinaryOrder.eqb_leb. Qed.

(** C2: [score_recipes] returns the balanced recipes of the input, each
    once per occurrence and paired with
    [ingredient_score * 0.8 + balance_score * 0.2]; no entry holds an
    unbalanced recipe.  For every score the recipes of the result with that
    score are, in the same order, the balanced recipes of the input with
    that score, and the scores do not increase along the result: in exact
    arithmetic always, in binary64 when no score is a NaN. *)
Theorem score_recipes_spec :
  (∀ (F : Type) (HF : PyFloat F) (recipes : list (Recipe F)) (pantry : gset string),
     Permutation
       (score_recipes recipes pantry)
       (map (λ recipe,
               (add (mul (ingredient_score recipe pantry) (lit 8 10))
                    (mul (balance_score recipe) (lit 2 10)), recipe))
            (List.filter is_balanced recipes))
     ∧ Forall (λ entry, is_balanced (snd entry) = true ∧ In (snd entry) recipes)
              (score_recipes recipes pantry))
  ∧ (∀ (recipes : list (Recipe Q)) (pantry : gset string),
       let out := score_recipes recipes pantry in
       StronglySorted (λ a b, (fst b <= fst a)%Q) out
       ∧ ∀ s : Q,
           map snd (List.filter (λ entry, Qeq_bool (fst entry) s) out)
           = List.filter
               (λ recipe,
                  is_balanced recipe
                  && Qeq_bool
                       (ingredient_score recipe pantry * lit 8 10
                        + balance_score recipe * lit 2 10)%Q s)
               recipes)
  ∧ (∀ (recipes : list (Recipe float)) (pantry : gset string),
       let out := score_recipes recipes pantry in
       (Forall (λ entry, PrimFloat.is_nan (fst entry) = false) out →
        StronglySorted (λ a b, PrimFloat.leb (fst b) (fst a) = true) out)
       ∧ ∀ s : float,
           map snd (List.filter (λ entry, PrimFloat.eqb (fst entry) s) out)
           = List.filter
               (λ recipe,
                  is_balanced recipe
                  && PrimFloat.eqb
                       (ingredient_score recipe pantry * lit 8 10
                        + balance_score recipe * lit 2 10)%float s)
               recipes).
Proof.
  split; [|split].
  - intros F HF recipes pantry. split.
    + rewrite score_recipes_unfold. apply sort_desc_perm.
    + eapply List.Forall_impl; [|apply score_recipes_entries]. simpl. tauto.
  - intros recipes pantry out. subst out. split.
    + apply (StronglySorted_impl (λ a b, leb (fst b) (fst a) = true)).
      { intros a b. simpl. apply Qle_bool_iff. }
      rewrite score_recipes_unfold. apply (sort_desc_descending (λ _, True)).
      apply List.Forall_forall. auto.
    + intros s.
      rewrite (List.filter_ext _ (λ entry, same_score (fst entry) s))
        by (intros entry; now rewrite same_score_exact).
      etransitivity; [apply (score_recipes_with_score (λ _, True))|].
      apply List.filter_ext. intros recipe. now rewrite same_score_exact.
  - intros recipes pantry out. subst out. split.
    + intros Hnan. rewrite score_recipes_unfold in *.
      change (descending
                (sort_desc (map (scored_entry pantry) (List.filter is_balanced recipes)))).
      apply (sort_desc_descending not_nan).
      eapply Permutation_Forall; [apply sort_desc_perm|exact Hnan].
    + intros s.
      rewrite (List.filter_ext _ (λ entry, same_score (fst entry) s))
        by (intros entry; now rewrite same_score_binary64).
      etransitivity; [apply (score_recipes_with_score not_nan)|].
      apply List.filter_ext. intros recipe. now rewrite same_score_binary64.
Qed.

(** The collection of [score_recipes_tie]: none of the four scores is a
    NaN, so the result is descending. *)
Lemma score_recipes_spec_witness :
  let recipe nm core supporting ms : Recipe float :=
    {| name := nm; servings := 1; core_ingredients := core;
       supporting_ingredients := supporting; instructions := []; macros := ms;
       tags := []; notes := "" |} in
  StronglySorted (λ a b, PrimFloat.leb (fst b) (fst a) = true)
    (score_recipes
       [recipe "A" ["egg"] [] Samples.on_target;
        recipe "U" ["egg"] ["cheese"] {["carbs" := 100%float]};
        recipe "C" ["tofu"] [] Samples.on_target;
        recipe "D" ["egg"] [] Samples.on_target;
        recipe "B" ["egg"] ["cheese"] Samples.on_target]
       (list_to_set ["egg"; "cheese"])).
Proof.
  intros recipe. destruct score_recipes_spec as (_ & _ & Hfloat).
  apply Hfloat. vm_compute. repeat constructor.
Defined.

(** The scoring of a small collection: the unbalanced recipe is dropped,
    and the two recipes that tie at 0.8 keep their input order. *)
Example score_recipes_tie :
  let on_target : gmap string float :=
    <["carbs" := 1%float]> (<["protein" := 0.75%float]> {["fat" := PrimFloat.div 1 3]}) in
  let recipe nm core supporting ms : Recipe float :=
    {| name := nm; servings := 1; core_ingredients := core;
       supporting_ingredients := supporting; instructions := []; macros := ms;
       tags := []; notes := "" |} in
  map (λ entry, (fst entry, name (snd entry)))
      (score_recipes
         [recipe "A" ["egg"] [] on_target;
          recipe "U" ["egg"] ["cheese"] {["carbs" := 100%float]};
          recipe "C" ["tofu"] [] on_target;
          recipe "D" ["egg"] [] on_target;
          recipe "B" ["egg"] ["cheese"] on_target]
         (list_to_set ["egg"; "cheese"]))
  = [(1%float, "B"); (lit 8 10, "A"); (lit 8 10, "D"); (lit 2 10, "C")].
Proof. vm_compute. reflexivity. Qed.

(** ** Exit behaviour *)

Section CliFacts.

Context {F : Type} `{PyFloat F}.

Lemma score_recipes_nil (recipes : list (Recipe F)) (pantry : gset string) :
  score_recipes recipes pantry = [] ↔ Forall (λ recipe, is_balanced recipe = false) recipes.
Proof.
  rewrite score_recipes_unfold. split.
  - intros E. pose proof (sort_desc_perm (map (scored_entry pantry)
                                              (List.filter is_balanced recipes))) as Hp.
    rewrite E in Hp. apply Permutation_nil in Hp. apply map_eq_nil in Hp.
    apply List.Forall_forall. intros recipe Hin.
    destruct (is_balanced recipe) eqn:Eb; [|reflexivity]. exfalso.
    assert (Hf : In recipe (List.filter is_balanced recipes)) by (apply filter_In; auto).
    rewrite Hp in Hf. exact Hf.
  - intros Hall. replace (List.filter is_balanced recipes) with (@nil (Recipe F));
      [reflexivity|].
    induction Hall as [|recipe rest Hr _ IH]; [reflexivity|]. simpl. now rewrite Hr.
Qed.

Lemma score_recipes_length (recipes : list (Recipe F)) (pantry : gset string) :
  length (score_recipes recipes pantry) = length (List.filter is_balanced recipes).
Proof.
  rewrite score_recipes_unfold, (Permutation_length (sort_desc_perm _)).
  apply length_map.
Qed.

Lemma render_length (rank : nat) (matches : list (F * Recipe F)) (pantry : gset string)
    (show : bool) :
  length (render rank matches pantry show) = length matches.
Proof.
  revert rank. induction matches as [|[score recipe] rest IH]; intros rank; simpl;
    [reflexivity|]. now rewrite IH.
Qed.

End CliFacts.

(** C8: a run ends in one of three distinguished ways.  With an empty
    resolved pantry, or with a recipe path that does not exist, it ends in
    [parser.error] (usage message, exit status 2); the message for the
    path names it as pathlib writes it.  When the collection
    loads and none of its recipes is balanced, [main] prints the diagnostic
    on standard error, prints nothing on standard output and returns 1.
    When at least one loaded recipe is balanced it prints at least one
    suggestion ([max(1, top)] of them if there are that many) and returns
    0.  A returned status is 0 exactly when something was suggested. *)
Theorem main_exit_behaviour :
  ∀ (F : Type) (HF : PyFloat F) (args : Args) (world : World F),
    let pantry := resolve_pantry args world in
    let path := Path (args_recipes args) in
    (pantry = ∅ ∨ file_at world path = None →
     ∃ message, main args world = ParserError message
                ∧ exit_status (main args world) = 2%Z)
    ∧ (pantry = ∅ →
       main args world
       = ParserError "No ingredients provided. Add them as arguments or via the prompt.")
    ∧ (pantry ≠ ∅ → file_at world path = None →
       main args world = ParserError ("Recipe file not found: " +:+ path))
    ∧ (∀ recipes : list (Recipe F),
         pantry ≠ ∅ → load_recipes world path = Some recipes →
         (Forall (λ recipe, is_balanced recipe = false) recipes →
          main args world
          = Returned 1 [] ["No balanced recipes found in the collection."]
          ∧ exit_status (main args world) = 1%Z)
         ∧ (Exists (λ recipe, is_balanced recipe = true) recipes →
            ∃ first more,
              main args world = Returned 0 (first :: more) []
              ∧ exit_status (main args world) = 0%Z
              ∧ length (first :: more)
                = Nat.min (Z.to_nat (Z.max 1 (args_top args)))
                          (length (List.filter is_balanced recipes))))
    ∧ (∀ status out err,
         main args world = Returned status out err →
         (status = 0%Z ∧ out ≠ [] ∧ err = []) ∨ (status = 1%Z ∧ out = [] ∧ err ≠ [])).
Proof.
  intros F HF args world pantry path.
  assert (Hempty : pantry = ∅ →
            main args world
            = ParserError "No ingredients provided. Add them as arguments or via the prompt.").
  { intros E. unfold main. fold pantry. now rewrite decide_True. }
  assert (Hmissing : pantry ≠ ∅ → file_at world path = None →
            main args world = ParserError ("Recipe file not found: " +:+ path)).
  { intros Hne E. unfold main. fold pantry. rewrite decide_False by exact Hne.
    fold path. now rewrite E. }
  assert (Hloaded : ∀ recipes, pantry ≠ ∅ → load_recipes world path = Some recipes →
            main args world
            = match score_recipes recipes pantry with
              | [] => Returned 1 [] ["No balanced recipes found in the collection."]
              | _ :: _ =>
                  Returned 0
                    (render 1 (firstn (Z.to_nat (Z.max 1 (args_top args)))
                                      (score_recipes recipes pantry))
                            pantry (args_show_missing args)) []
              end).
  { intros recipes Hne Hload. unfold main. fold pantry. rewrite decide_False by exact Hne.
    fold path. rewrite Hload.
    unfold load_recipes in Hload. destruct (file_at world path) as [[raw|]|]; try discriminate.
    reflexivity. }
  split; [|split; [exact Hempty|split; [exact Hmissing|split]]].
  - intros Hor. destruct (decide (pantry = ∅)) as [E|Hne].
    + eexists. rewrite (Hempty E). split; reflexivity.
    + destruct Hor as [E|E]; [contradiction|].
      eexists. rewrite (Hmissing Hne E). split; reflexivity.
  - intros recipes Hne Hload. rewrite (Hloaded recipes Hne Hload). split.
    + intros Hnone. apply (score_recipes_nil recipes pantry) in Hnone. rewrite Hnone.
      split; reflexivity.
    + intros Hsome.
      pose proof (score_recipes_length recipes pantry) as Hlen.
      destruct (score_recipes recipes pantry) as [|entry rest] eqn:Es.
      { exfalso. apply (score_recipes_nil recipes pantry) in Es.
        apply List.Exists_exists in Hsome as (recipe & Hin & Hbal).
        rewrite List.Forall_forall in Es. specialize (Es recipe Hin). congruence. }
      assert (Hlimit : ∃ k, Z.to_nat (Z.max 1 (args_top args)) = S k).
      { exists (Nat.pred (Z.to_nat (Z.max 1 (args_top args)))). lia. }
      destruct Hlimit as [k Hk]. rewrite Hk in *. destruct entry as [score recipe].
      cbn [firstn render]. eexists _, _. split; [reflexivity|]. split; [reflexivity|].
      cbn [length]. rewrite render_length, length_firstn. rewrite <- Hlen. cbn [length]. lia.
  - intros status out err Hmain.
    unfold main in Hmain. fold pantry path in Hmain.
    destruct (decide (pantry = ∅)); [discriminate|].
    destruct (file_at world path) as [content|] eqn:Ef; [|discriminate].
    destruct (load_recipes world path) as [recipes|]; [|discriminate].
    destruct (score_recipes recipes pantry) as [|[score recipe] rest].
    + injection Hmain as <- <- <-. right. repeat split; discriminate.
    + injection Hmain as <- <- <-. left. split; [reflexivity|]. split; [|reflexivity].
      assert (Hlimit : ∃ k, Z.to_nat (Z.max 1 (args_top args)) = S k).
      { exists (Nat.pred (Z.to_nat (Z.max 1 (args_top args)))). lia. }
      destruct Hlimit as [k ->]. discriminate.
Qed.

(** The four kinds of run: no ingredients and no input, a missing recipe
    file, a collection without balanced recipes, and a suggestion. *)
Lemma main_exit_behaviour_witness :
  main (Samples.args_with [" , "] "data/recipes.json")
       (Samples.world_with [Samples.raw_omelette])
  = ParserError "No ingredients provided. Add them as arguments or via the prompt."
  ∧ main (Samples.args_with ["Egg, cheese"] "./recipes.json")
         (Samples.world_with [Samples.raw_omelette])
    = ParserError "Recipe file not found: recipes.json"
  ∧ main (Samples.args_with ["Egg, cheese"] "data/recipes.json")
         (Samples.world_with [Samples.raw_syrup])
    = Returned 1 [] ["No balanced recipes found in the collection."]
  ∧ ∃ first more,
      main (Samples.args_with ["Egg, cheese"] "data/recipes.json")
           (Samples.world_with [Samples.raw_syrup; Samples.raw_omelette])
      = Returned 0 (first :: more) [].
Proof.
  assert (Hne : ∀ path (world : World float),
            resolve_pantry (Samples.args_with ["Egg, cheese"] path) world
            ≠ (∅ : gset string)).
  { intros path world. apply (bool_decide_unpack _). vm_compute. exact I. }
  split; [|split; [|split]].
  - destruct (main_exit_behaviour float binary64
                (Samples.args_with [" , "] "data/recipes.json")
                (Samples.world_with [Samples.raw_omelette])) as (_ & Hempty & _).
    apply Hempty. vm_compute. reflexivity.
  - destruct (main_exit_behaviour float binary64
                (Samples.args_with ["Egg, cheese"] "./recipes.json")
                (Samples.world_with [Samples.raw_omelette])) as (_ & _ & Hmissing & _).
    etransitivity; [apply Hmissing; [apply Hne|reflexivity]|].
    vm_compute. reflexivity.
  - destruct (main_exit_behaviour float binary64
                (Samples.args_with ["Egg, cheese"] "data/recipes.json")
                (Samples.world_with [Samples.raw_syrup])) as (_ & _ & _ & Hloaded & _).
    destruct (Hloaded [Samples.syrup]) as [Hnone _];
      [apply Hne|vm_compute; reflexivity|].
    apply Hnone. repeat constructor.
  - destruct (main_exit_behaviour float binary64
                (Samples.args_with ["Egg, cheese"] "data/recipes.json")
                (Samples.world_with [Samples.raw_syrup; Samples.raw_omelette]))
      as (_ & _ & _ & Hloaded & _).
    destruct (Hloaded [Samples.syrup; Samples.omelette]) as [_ Hsome];
      [apply Hne|vm_compute; reflexivity|].
    destruct Hsome as (first & more & Hmain & _).
    + apply Exists_cons_tl, Exists_cons_hd. vm_compute. reflexivity.
    + exists first, more. exact Hmain.
Defined.

(** pathlib drops [.] components, doubled and trailing slashes, keeps
    [..] and a root of exactly two slashes, and writes the empty path as
    [.]. *)
Example path_values :
  map Path ["./missing.json"; "data//recipes.json/"; "../a/./b"; "//x"; "///x"; ""; "./"]
  = ["missing.json"; "data/recipes.json"; "../a/b"; "//x"; "/x"; "."; "."].
Proof. vm_compute. reflexivity. Qed.

(** A raw entry with mixed case, punctuation and an item that normalizes
    to nothing: it loads, to the two normalized lists. *)
Lemma from_dict_normalizes_witness :
  ∃ recipe : Recipe float,
    from_dict Samples.raw_omelette = Some recipe
    ∧ core_ingredients recipe = ["egg"; "tomato"]
    ∧ supporting_ingredients recipe = ["cheese"].
Proof.
  destruct (from_dict_normalizes float) as (_ & Hbuilds & _).
  destruct (Hbuilds Samples.raw_omelette) as (recipe & Hfrom & Hc & Hs).
  - unfold unreadable. simpl. intuition discriminate.
  - exists recipe. split; [exact Hfrom|]. rewrite Hc, Hs. split; vm_compute; reflexivity.
Defined.

(** ** Sanity checks of the embedding *)

Example normalize_token_mixed : normalize_token "  Red  Bell-Pepper! " = "red bellpepper".
Proof. reflexivity. Qed.

Example normalize_token_punctuation : normalize_token " ,;- " = "".
Proof. reflexivity. Qed.

Example parse_ingredients_chunks :
  parse_ingredients ["Tomato, Onion"] = parse_ingredients ["tomato"; "onion"]
  ∧ parse_ingredients ["Tomato, Onion"] = list_to_set ["tomato"; "onion"].
Proof. split; apply (bool_decide_unpack _); vm_compute; exact I. Qed.

(** The decimal literals of the source in binary64. *)
Example literals_binary64 :
  lit 4 10 = 0x1.999999999999ap-2%float ∧ lit 3 10 = 0x1.3333333333333p-2%float
  ∧ lit 1 10 = 0x1.999999999999ap-4%float ∧ lit 6 10 = 0x1.3333333333333p-1%float
  ∧ lit 75 100 = 0.75%float ∧ lit 25 100 = 0.25%float
  ∧ lit 8 10 = 0x1.999999999999ap-1%float ∧ lit 2 10 = 0x1.999999999999ap-3%float.
Proof. vm_compute. repeat split. Qed.

(** The end-to-end example of the specification: coverage 0.875, balance 1
    and rank score 0.9 (in binary64 the float just above it). *)
Example rank_score_end_to_end :
  let recipe : Recipe float :=
    {| name := "Frittata"; servings := 2; core_ingredients := ["egg"; "tomato"];
       supporting_ingredients := ["cheese"; "onion"]; instructions := [];
       macros := Samples.on_target; tags := []; notes := "" |} in
  let pantry : gset string := list_to_set ["egg"; "cheese"; "tomato"] in
  is_balanced recipe = true
  ∧ ingredient_score recipe pantry = 0.875%float
  ∧ balance_score recipe = 1%float
  ∧ rank_score recipe pantry = 0x1.ccccccccccccep-1%float.
Proof. vm_compute. repeat split. Qed.

(** * Further properties of the code *)

(** ** Strings again *)

Module StrMore.

Import StrFacts.

Lemma list_of_append (a b : string) :
  list_ascii_of_string (a +:+ b) = list_ascii_of_string a ++ list_ascii_of_string b.
Proof. induction a as [|ch a IH]; simpl; [reflexivity|]. now rewrite IH. Qed.

Lemma string_of_inj (a b : chars) :
  string_of_list_ascii a = string_of_list_ascii b → a = b.
Proof.
  intros E. apply (f_equal list_ascii_of_string) in E.
  now rewrite !list_ascii_of_string_of_list_ascii in E.
Qed.

Lemma split_nonempty_word (nxt : ascii) (rest : chars) :
  Chars.isspace nxt = false → ∃ w ws, Str.split (nxt :: rest) = w :: ws.
Proof.
  intros E. destruct (Str.split (nxt :: rest)) as [|w ws] eqn:Es.
  - now apply split_nonspace_head in Es.
  - eauto.
Qed.

(** A whitespace character separates: the words before it and the words
    after it. *)
Lemma split_app_space (a : chars) (sp : ascii) (b : chars) :
  Chars.isspace sp = true →
  Str.split (a ++ sp :: b) = Str.split a ++ Str.split b.
Proof.
  intros Esp. induction a as [|ch rest IH].
  - change ([] ++ sp :: b) with (sp :: b). now rewrite split_space.
  - rewrite <- app_comm_cons. destruct (Chars.isspace ch) eqn:Ech.
    + now rewrite !(split_space ch) by exact Ech.
    + destruct rest as [|nxt rest'].
      * change ([] ++ sp :: b) with (sp :: b).
        rewrite (split_end_of_word _ _ _ Ech Esp), (split_last _ Ech).
        reflexivity.
      * rewrite <- app_comm_cons in *. destruct (Chars.isspace nxt) eqn:Enxt.
        -- rewrite !(split_end_of_word _ nxt _ Ech Enxt).
           rewrite !(split_space nxt) in IH by exact Enxt. now rewrite IH.
        -- destruct (split_inside_word ch nxt (rest' ++ sp :: b) Ech Enxt)
             as (w & ws & E1 & ->).
           destruct (split_inside_word ch nxt rest' Ech Enxt) as (w' & ws' & E1' & ->).
           rewrite IH, E1' in E1. simpl in E1. injection E1 as <- <-. reflexivity.
Qed.

Lemma split_all_space (s : chars) :
  Str.split s = [] ↔ Forall (λ ch, Chars.isspace ch = true) s.
Proof.
  induction s as [|ch rest IH].
  - split; [constructor|reflexivity].
  - destruct (Chars.isspace ch) eqn:E.
    + rewrite (split_space _ _ E), IH. split.
      * now constructor.
      * now inversion 1.
    + split.
      * intros Es. now apply split_nonspace_head in Es.
      * inversion 1; congruence.
Qed.

Lemma split_on_nonempty (sep : ascii) (chunk : chars) : Str.split_on sep chunk ≠ [].
Proof.
  destruct chunk as [|ch rest]; simpl; [discriminate|].
  destruct (Ascii.eqb ch sep); [discriminate|].
  destruct (Str.split_on sep rest); discriminate.
Qed.

(** A comma separates: the pieces before it and the pieces after it. *)
Lemma split_on_app (sep : ascii) (a b : chars) :
  Str.split_on sep (a ++ sep :: b) = Str.split_on sep a ++ Str.split_on sep b.
Proof.
  induction a as [|ch rest IH]; simpl.
  - now rewrite Ascii.eqb_refl.
  - destruct (Ascii.eqb ch sep); [now rewrite IH|].
    rewrite IH. destruct (Str.split_on sep rest) as [|piece pieces] eqn:E; [|reflexivity].
    exfalso. exact (split_on_nonempty _ _ E).
Qed.

End StrMore.

(** ** The pantry *)

Module PantryFacts.

Lemma add_pieces_in (pieces : list chars) (pantry : gset string) (x : string) :
  x ∈ fold_left
        (λ (pantry : gset string) token,
           let normalized := normalize_token (string_of_list_ascii token) in
           if truthy normalized then pantry ∪ {[normalized]} else pantry)
        pieces pantry
  ↔ x ∈ pantry ∨ ∃ piece, In piece pieces ∧ piece_token piece = x ∧ x ≠ "".
Proof.
  revert pantry. induction pieces as [|piece rest IH]; intros pantry; simpl.
  - split; [auto|]. intros [Hx|(? & [] & _)]. exact Hx.
  - rewrite IH. fold (piece_token piece).
    destruct (truthy (piece_token piece)) eqn:Et.
    + apply NormalizeFacts.truthy_nonempty in Et.
      rewrite elem_of_union, elem_of_singleton. split.
      * intros [[Hx|Hx]|(p & Hin & Hp & Hne)].
        -- left. exact Hx.
        -- right. exists piece. subst x. auto.
        -- right. exists p. auto.
      * intros [Hx|(p & [Hp0|Hin] & Hp & Hne)].
        -- left; left. exact Hx.
        -- subst p. left; right. symmetry. exact Hp.
        -- right. exists p. auto.
    + assert (Hempty : piece_token piece = "").
      { destruct (String.eqb_spec (piece_token piece) "") as [E|E]; [exact E|].
        apply NormalizeFacts.truthy_nonempty in E. congruence. }
      split.
      * intros [Hx|(p & Hin & Hp)]; [left; exact Hx|right; exists p; tauto].
      * intros [Hx|(p & [Hp0|Hin] & Hp & Hne)].
        -- left. exact Hx.
        -- subst p. congruence.
        -- right. exists p. auto.
Qed.

Lemma parse_chunks_in (raw_inputs : list string) (pantry : gset string) (x : string) :
  x ∈ fold_left
        (λ (pantry : gset string) chunk,
           fold_left
             (λ (pantry : gset string) token,
                let normalized := normalize_token (string_of_list_ascii token) in
                if truthy normalized then pantry ∪ {[normalized]} else pantry)
             (Str.split_on ","%char (list_ascii_of_string chunk)) pantry)
        raw_inputs pantry
  ↔ x ∈ pantry
    ∨ ∃ chunk piece,
        In chunk raw_inputs
        ∧ In piece (Str.split_on ","%char (list_ascii_of_string chunk))
        ∧ piece_token piece = x ∧ x ≠ "".
Proof.
  revert pantry. induction raw_inputs as [|chunk rest IH]; intros pantry; simpl.
  - split; [auto|]. intros [Hx|(? & ? & [] & _)]. exact Hx.
  - rewrite IH, add_pieces_in. split.
    + intros [[Hx|(p & Hin & Hp)]|(c & p & Hc & Hin & Hp)].
      * now left.
      * right. exists chunk, p. auto.
      * right. exists c, p. auto.
    + intros [Hx|(c & p & [<-|Hc] & Hin & Hp)].
      * auto.
      * left; right. exists p. auto.
      * right. exists c, p. auto.
Qed.

Lemma parse_ingredients_in (raw_inputs : list string) (x : string) :
  x ∈ parse_ingredients raw_inputs
  ↔ ∃ chunk piece,
      In chunk raw_inputs
      ∧ In piece (Str.split_on ","%char (list_ascii_of_string chunk))
      ∧ piece_token piece = x ∧ x ≠ "".
Proof.
  unfold parse_ingredients. rewrite parse_chunks_in. split.
  - intros [Hx|Hx]; [|exact Hx]. now apply not_elem_of_empty in Hx.
  - auto.
Qed.

Lemma parse_ingredients_stored (raw_inputs : list string) (x : string) :
  x ∈ parse_ingredients raw_inputs → x ≠ "" ∧ normalize_token x = x.
Proof.
  rewrite parse_ingredients_in. intros (chunk & piece & _ & _ & <- & Hne).
  split; [exact Hne|]. apply NormalizeFacts.normalize_token_fixed.
Qed.

Lemma parse_ingredients_app (a b : list string) :
  parse_ingredients (a ++ b) = parse_ingredients a ∪ parse_ingredients b.
Proof.
  apply set_eq. intros x. rewrite elem_of_union, !parse_ingredients_in. split.
  - intros (c & p & Hc & Hrest). apply in_app_or in Hc as [Hc|Hc];
      [left|right]; exists c, p; auto.
  - intros [(c & p & Hc & Hrest)|(c & p & Hc & Hrest)]; exists c, p;
      (split; [apply in_or_app; auto|exact Hrest]).
Qed.

End PantryFacts.

Module TokenFacts.

Lemma tokenize_in (phrase token : string) :
  token ∈ tokenize phrase
  ↔ In (list_ascii_of_string token) (Str.split (list_ascii_of_string phrase)).
Proof.
  unfold tokenize. rewrite elem_of_list_to_set, list_elem_of_In, List.in_map_iff. split.
  - intros (w & <- & Hin). now rewrite list_ascii_of_string_of_list_ascii.
  - intros Hin. exists (list_ascii_of_string token).
    split; [apply string_of_list_ascii_of_string|exact Hin].
Qed.

Lemma tokenize_empty (phrase : string) :
  tokenize phrase = ∅ ↔ Str.split (list_ascii_of_string phrase) = [].
Proof.
  split.
  - intros E. destruct (Str.split (list_ascii_of_string phrase)) as [|w ws] eqn:Es;
      [reflexivity|]. exfalso.
    assert (Hin : string_of_list_ascii w ∈ tokenize phrase).
    { apply tokenize_in. rewrite list_ascii_of_string_of_list_ascii, Es. now left. }
    rewrite E in Hin. now apply not_elem_of_empty in Hin.
  - intros E. unfold tokenize. now rewrite E.
Qed.

Lemma tokenize_app_space (a b : string) :
  tokenize (a +:+ " " +:+ b) = tokenize a ∪ tokenize b.
Proof.
  apply set_eq. intros t. rewrite elem_of_union, !tokenize_in, !StrMore.list_of_append.
  change (list_ascii_of_string " ") with [Chars.space].
  change ([Chars.space] ++ list_ascii_of_string b)
    with (Chars.space :: list_ascii_of_string b).
  rewrite StrMore.split_app_space by reflexivity. apply in_app_iff.
Qed.

End TokenFacts.

(** X1: an element of the parsed pantry is the normal form, other than the
    empty string, of a piece between commas of one of the inputs, and every
    such normal form is an element; so every pantry item is a non-empty
    string that [normalize_token] leaves unchanged, and an empty list of
    inputs gives the empty pantry. *)
Theorem parse_ingredients_members :
  (∀ (raw_inputs : list string) (x : string),
     x ∈ parse_ingredients raw_inputs
     ↔ ∃ chunk piece,
         In chunk raw_inputs
         ∧ In piece (Str.split_on ","%char (list_ascii_of_string chunk))
         ∧ x = normalize_token (string_of_list_ascii piece) ∧ x ≠ "")
  ∧ (∀ (raw_inputs : list string) (x : string),
       x ∈ parse_ingredients raw_inputs → x ≠ "" ∧ normalize_token x = x)
  ∧ parse_ingredients [] = ∅.
Proof.
  split; [|split; [exact PantryFacts.parse_ingredients_stored|reflexivity]].
  intros raw_inputs x. rewrite PantryFacts.parse_ingredients_in. unfold piece_token.
  split; intros (chunk & piece & Hc & Hp & E & Hne); exists chunk, piece; auto.
Qed.

(** Two inputs with mixed case, an empty piece and punctuation. *)
Lemma parse_ingredients_members_witness :
  "bell pepper" ∈ parse_ingredients ["Egg,,Bell  Pepper!"; " ; "]
  ∧ normalize_token "bell pepper" = "bell pepper".
Proof.
  destruct parse_ingredients_members as (Hin & Hstored & _).
  assert (Hx : "bell pepper" ∈ parse_ingredients ["Egg,,Bell  Pepper!"; " ; "]).
  { apply Hin. exists "Egg,,Bell  Pepper!", (list_ascii_of_string "Bell  Pepper!").
    split; [now left|]. split; [vm_compute; auto|]. split; [reflexivity|discriminate]. }
  split; [exact Hx|]. exact (proj2 (Hstored _ _ Hx)).
Defined.

(** X2: the parsed pantry is the union of the pantries of the inputs, so
    the order of the inputs and their repetition do not matter, and one
    input with a comma gives what its two parts give as separate inputs. *)
Theorem parse_ingredients_union :
  (∀ a b : list string,
     parse_ingredients (a ++ b) = parse_ingredients a ∪ parse_ingredients b)
  ∧ (∀ a b : list string, Permutation a b → parse_ingredients a = parse_ingredients b)
  ∧ (∀ a : list string, parse_ingredients (a ++ a) = parse_ingredients a)
  ∧ (∀ left right : string,
       parse_ingredients [left +:+ "," +:+ right] = parse_ingredients [left; right]).
Proof.
  split; [exact PantryFacts.parse_ingredients_app|]. split; [|split].
  - intros a b Hperm. apply set_eq. intros x. rewrite !PantryFacts.parse_ingredients_in.
    split; intros (c & p & Hc & Hrest); exists c, p; (split; [|exact Hrest]).
    + now apply (Permutation_in _ Hperm).
    + now apply (Permutation_in _ (Permutation_sym Hperm)).
  - intros a. rewrite PantryFacts.parse_ingredients_app. apply union_idemp_L.
  - intros l r. apply set_eq. intros x. rewrite !PantryFacts.parse_ingredients_in.
    assert (Hsplit : Str.split_on ","%char (list_ascii_of_string (l +:+ "," +:+ r))
                     = Str.split_on ","%char (list_ascii_of_string l)
                       ++ Str.split_on ","%char (list_ascii_of_string r)).
    { rewrite !StrMore.list_of_append.
      change (list_ascii_of_string "," ++ list_ascii_of_string r)
        with (","%char :: list_ascii_of_string r).
      apply StrMore.split_on_app. }
    split.
    + intros (c & p & [<-|[]] & Hp & Hrest). rewrite Hsplit in Hp.
      apply in_app_or in Hp as [Hp|Hp].
      * exists l, p. split; [now left|auto].
      * exists r, p. split; [right; now left|auto].
    + intros (c & p & [<-|[<-|[]]] & Hp & Hrest);
        exists (l +:+ "," +:+ r), p; (split; [now left|]);
        (split; [rewrite Hsplit; apply in_or_app; auto|exact Hrest]).
Qed.

(** Two inputs in both orders. *)
Lemma parse_ingredients_union_witness :
  parse_ingredients ["egg"; "Tomato, onion"] = parse_ingredients ["Tomato, onion"; "egg"].
Proof.
  destruct parse_ingredients_union as (_ & Hperm & _).
  apply Hperm. apply perm_swap.
Defined.

(** X3: when the command line gives at least one ingredient, the pantry is
    the parsed command line, whatever the interactive flag and the standard
    input are: nothing is read.  Otherwise the pantry is the parsed input
    line, or empty at the end of input.  In every case its items are
    non-empty normal forms. *)
Theorem resolve_pantry_cases :
  ∀ (F : Type) (args : Args) (world : World F),
    let given := parse_ingredients (args_ingredients args) in
    (given ≠ ∅ → resolve_pantry args world = given)
    ∧ (given = ∅ →
       resolve_pantry args world
       = match stdin_line world with
         | None => ∅
         | Some raw => parse_ingredients [raw]
         end)
    ∧ (∀ x, x ∈ resolve_pantry args world → x ≠ "" ∧ normalize_token x = x).
Proof.
  intros F args world given.
  assert (Hgiven : given ≠ ∅ → resolve_pantry args world = given).
  { intros Hne. unfold resolve_pantry, ensure_ingredients. fold given.
    rewrite (bool_decide_eq_false_2 _ Hne). now destruct (args_interactive args). }
  assert (Hprompt : given = ∅ →
            resolve_pantry args world
            = match stdin_line world with
              | None => ∅
              | Some raw => parse_ingredients [raw]
              end).
  { intros E. unfold resolve_pantry, ensure_ingredients. fold given.
    rewrite (bool_decide_eq_true_2 _ E), orb_true_r. simpl.
    destruct (stdin_line world); [reflexivity|exact E]. }
  split; [exact Hgiven|]. split; [exact Hprompt|].
  intros x Hx. destruct (decide (given = ∅)) as [E|Hne].
  - rewrite (Hprompt E) in Hx. destruct (stdin_line world) as [raw|].
    + exact (PantryFacts.parse_ingredients_stored _ _ Hx).
    + now apply not_elem_of_empty in Hx.
  - rewrite (Hgiven Hne) in Hx. exact (PantryFacts.parse_ingredients_stored _ _ Hx).
Qed.

(** The interactive flag with an ingredient on the command line and a line
    waiting on standard input; and no ingredient with that line. *)
Lemma resolve_pantry_cases_witness :
  resolve_pantry (F:=float)
    {| args_ingredients := ["Egg"]; args_recipes := "r.json"; args_top := 1;
       args_show_missing := false; args_interactive := true |}
    {| stdin_line := Some "tomato"; file_at := λ _, None |}
  = parse_ingredients ["Egg"]
  ∧ resolve_pantry (F:=float)
      {| args_ingredients := [" , "]; args_recipes := "r.json"; args_top := 1;
         args_show_missing := false; args_interactive := false |}
      {| stdin_line := Some "tomato"; file_at := λ _, None |}
    = parse_ingredients ["tomato"].
Proof.
  split.
  - apply (resolve_pantry_cases float). apply (bool_decide_unpack _). vm_compute. exact I.
  - apply (resolve_pantry_cases float). apply (bool_decide_unpack _). vm_compute. exact I.
Defined.

(** X4: the tokens of a phrase are not empty and hold no whitespace; a
    phrase has no token exactly when all its characters are whitespace; the
    tokens of two phrases joined by a space are the tokens of the one and
    of the other, so the order of the words of a phrase and their
    repetition do not change its tokens. *)
Theorem tokenize_words :
  (∀ phrase token : string,
     token ∈ tokenize phrase →
     token ≠ "" ∧ Forall (λ ch, Chars.isspace ch = false) (list_ascii_of_string token))
  ∧ (∀ phrase : string,
       tokenize phrase = ∅
       ↔ Forall (λ ch, Chars.isspace ch = true) (list_ascii_of_string phrase))
  ∧ (∀ a b : string, tokenize (a +:+ " " +:+ b) = tokenize a ∪ tokenize b)
  ∧ (∀ a b : string, tokenize (a +:+ " " +:+ b) = tokenize (b +:+ " " +:+ a))
  ∧ (∀ a : string, tokenize (a +:+ " " +:+ a) = tokenize a).
Proof.
  split; [|split; [|split; [|split]]].
  - intros phrase token Hin. apply TokenFacts.tokenize_in in Hin.
    pose proof (StrFacts.split_words (list_ascii_of_string phrase)) as Hw.
    rewrite List.Forall_forall in Hw. destruct (Hw _ Hin) as [Hne Hsp].
    split; [|exact Hsp]. intros ->. now apply Hne.
  - intros phrase. rewrite TokenFacts.tokenize_empty. apply StrMore.split_all_space.
  - exact TokenFacts.tokenize_app_space.
  - intros a b. rewrite !TokenFacts.tokenize_app_space. apply union_comm_L.
  - intros a. rewrite TokenFacts.tokenize_app_space. apply union_idemp_L.
Qed.

(** A token of a phrase with tabs and doubled spaces. *)
Lemma tokenize_words_witness :
  "bell" ≠ ""
  ∧ Forall (λ ch, Chars.isspace ch = false) (list_ascii_of_string "bell").
Proof.
  destruct tokenize_words as (Htok & _).
  apply (Htok "red  bell pepper "). apply (bool_decide_unpack _). vm_compute. exact I.
Defined.

(** X5: with an ingredient on the command line the run does not depend on
    standard input: two worlds with the same files give the same outcome. *)
Theorem main_ignores_stdin :
  ∀ (F : Type) (HF : PyFloat F) (args : Args) (world world' : World F),
    parse_ingredients (args_ingredients args) ≠ ∅ →
    (∀ path, file_at world path = file_at world' path) →
    main args world = main args world'.
Proof.
  intros F HF args world world' Hgiven Hfiles.
  assert (Hpantry : resolve_pantry args world = resolve_pantry args world').
  { unfold resolve_pantry, ensure_ingredients.
    rewrite (bool_decide_eq_false_2 _ Hgiven). now destruct (args_interactive args). }
  unfold main, load_recipes. now rewrite Hpantry, Hfiles.
Qed.

(** The sample collection, with and without a line on standard input. *)
Lemma main_ignores_stdin_witness :
  main (Samples.args_with ["Egg, cheese"] "data/recipes.json")
       (Samples.world_with [Samples.raw_omelette])
  = main (Samples.args_with ["Egg, cheese"] "data/recipes.json")
         {| stdin_line := Some "sugar";
            file_at := file_at (Samples.world_with [Samples.raw_omelette]) |}.
Proof.
  apply main_ignores_stdin; [|reflexivity].
  apply (bool_decide_unpack _). vm_compute. exact I.
Defined.

(** ** The matcher again *)

Module MatcherMore.

(** The matcher in integer arithmetic, for an arithmetic whose threshold
    test agrees with the exact one up to [bound] tokens. *)
Lemma matches_arith {F : Type} `{PyFloat F} (bound : nat) :
  (∀ overlap smaller,
     0 < smaller → smaller ≤ bound → overlap ≤ smaller →
     leb (lit 6 10) (div (of_int overlap) (of_int smaller)) = true
     ↔ 3 * smaller ≤ 5 * overlap) →
  ∀ (ingredient : string) (pantry : gset string),
    size (tokenize ingredient) ≤ bound →
    ingredient_matches ingredient pantry = true
    ↔ ∃ item, item ∈ pantry
        ∧ 0 < size (tokenize ingredient ∩ tokenize item)
        ∧ 3 * Nat.min (size (tokenize ingredient)) (size (tokenize item))
          ≤ 5 * size (tokenize ingredient ∩ tokenize item).
Proof.
  intros Hthr ingredient pantry Hsmall. rewrite ingredient_matches_true. unfold covers.
  split; intros (item & Hin & Hpos & Hcov); exists item; (split; [exact Hin|]);
    (split; [exact Hpos|]);
    pose proof (subseteq_size _ _
                  (intersection_subseteq_l (tokenize ingredient) (tokenize item)));
    pose proof (subseteq_size _ _
                  (intersection_subseteq_r (tokenize ingredient) (tokenize item))).
  - apply Hthr in Hcov; [exact Hcov|lia..].
  - apply Hthr; [lia..|exact Hcov].
Qed.

Lemma matches_arith_exact (ingredient : string) (pantry : gset string) :
  ingredient_matches (F:=Q) ingredient pantry = true
  ↔ ∃ item, item ∈ pantry
      ∧ 0 < size (tokenize ingredient ∩ tokenize item)
      ∧ 3 * Nat.min (size (tokenize ingredient)) (size (tokenize item))
        ≤ 5 * size (tokenize ingredient ∩ tokenize item).
Proof.
  apply (matches_arith (size (tokenize ingredient))); [|lia].
  intros overlap smaller Hpos _ _. now apply ExactFacts.coverage_threshold.
Qed.

Lemma matches_arith_binary64 (ingredient : string) (pantry : gset string) :
  size (tokenize ingredient) ≤ 200 →
  ingredient_matches (F:=float) ingredient pantry = true
  ↔ ∃ item, item ∈ pantry
      ∧ 0 < size (tokenize ingredient ∩ tokenize item)
      ∧ 3 * Nat.min (size (tokenize ingredient)) (size (tokenize item))
        ≤ 5 * size (tokenize ingredient ∩ tokenize item).
Proof.
  apply (matches_arith 200). intros overlap smaller.
  apply BinaryTables.coverage_threshold_binary64.
Qed.

(** When one token set holds the other, the shared tokens are the smaller
    set. *)
Lemma nested_overlap (A B : gset string) :
  A ≠ ∅ → B ≠ ∅ → A ⊆ B ∨ B ⊆ A →
  0 < size (A ∩ B) ∧ size (A ∩ B) = Nat.min (size A) (size B).
Proof.
  intros HA HB Hnested.
  assert (HsA : size A ≠ 0).
  { apply size_non_empty_iff. intros E. apply HA. now apply leibniz_equiv. }
  assert (HsB : size B ≠ 0).
  { apply size_non_empty_iff. intros E. apply HB. now apply leibniz_equiv. }
  destruct Hnested as [Hsub|Hsub].
  - rewrite (subseteq_intersection_1_L _ _ Hsub).
    pose proof (subseteq_size _ _ Hsub). lia.
  - rewrite (comm_L (∩) A B), (subseteq_intersection_1_L _ _ Hsub).
    pose proof (subseteq_size _ _ Hsub). lia.
Qed.

(** With one token in the ingredient, sharing a token is holding it. *)
Lemma single_overlap (A B : gset string) :
  size A = 1 →
  (0 < size (A ∩ B) ∧ 3 * Nat.min (size A) (size B) ≤ 5 * size (A ∩ B)) ↔ A ⊆ B.
Proof.
  intros HA. split.
  - intros [Hpos _].
    assert (E : A ∩ B = A).
    { apply set_subseteq_size_eq; [apply intersection_subseteq_l|lia]. }
    rewrite <- E. apply intersection_subseteq_r.
  - intros Hsub. rewrite (subseteq_intersection_1_L _ _ Hsub).
    pose proof (subseteq_size _ _ Hsub). lia.
Qed.

End MatcherMore.

(** X6: an ingredient matches the union of two pantries exactly when it
    matches one of them, and it matches the empty pantry never; the answer
    depends on the ingredient only through its tokens, so the order of its
    words does not matter; a pantry item without tokens changes nothing. *)
Theorem ingredient_matches_union :
  ∀ (F : Type) (HF : PyFloat F),
    (∀ (ingredient : string) (P Q : gset string),
       ingredient_matches ingredient (P ∪ Q)
       = ingredient_matches ingredient P || ingredient_matches ingredient Q)
    ∧ (∀ ingredient : string, ingredient_matches ingredient ∅ = false)
    ∧ (∀ (ingredient other : string) (pantry : gset string),
         tokenize ingredient = tokenize other →
         ingredient_matches ingredient pantry = ingredient_matches other pantry)
    ∧ (∀ (a b : string) (pantry : gset string),
         ingredient_matches (a +:+ " " +:+ b) pantry
         = ingredient_matches (b +:+ " " +:+ a) pantry)
    ∧ (∀ (ingredient item : string) (pantry : gset string),
         tokenize item = ∅ →
         ingredient_matches ingredient ({[item]} ∪ pantry)
         = ingredient_matches ingredient pantry).
Proof.
  intros F HF.
  assert (Hunion : ∀ (ingredient : string) (P Q : gset string),
            ingredient_matches ingredient (P ∪ Q)
            = ingredient_matches ingredient P || ingredient_matches ingredient Q).
  { intros ingredient P Q. apply Bool.eq_true_iff_eq.
    rewrite orb_true_iff, !ingredient_matches_true. split.
    - intros (item & Hin & Hc). apply elem_of_union in Hin as [Hin|Hin]; eauto.
    - intros [(item & Hin & Hc)|(item & Hin & Hc)]; exists item;
        (split; [apply elem_of_union; auto|exact Hc]). }
  assert (Htokens : ∀ (ingredient other : string) (pantry : gset string),
            tokenize ingredient = tokenize other →
            ingredient_matches ingredient pantry = ingredient_matches other pantry).
  { intros ingredient other pantry E. apply Bool.eq_true_iff_eq.
    rewrite !ingredient_matches_true. unfold covers. now rewrite E. }
  split; [exact Hunion|]. split; [|split; [exact Htokens|split]].
  - intros ingredient. destruct (ingredient_matches ingredient ∅) eqn:E; [|reflexivity].
    apply ingredient_matches_true in E as (item & Hin & _).
    now apply not_elem_of_empty in Hin.
  - intros a b pantry. apply Htokens.
    rewrite !TokenFacts.tokenize_app_space. apply union_comm_L.
  - intros ingredient item pantry Hnone. rewrite Hunion.
    destruct (ingredient_matches ingredient {[item]}) eqn:E; [|reflexivity].
    apply ingredient_matches_true in E as (it & Hin & Hpos & _).
    apply elem_of_singleton in Hin as ->. exfalso.
    rewrite Hnone, intersection_empty_r_L, size_empty in Hpos. lia.
Qed.

(** The words of an ingredient in another order. *)
Lemma ingredient_matches_union_witness :
  ingredient_matches (F:=float) "pepper bell" {["bell pepper"]}
  = ingredient_matches (F:=float) "bell pepper" {["bell pepper"]}.
Proof.
  destruct (ingredient_matches_union float binary64) as (_ & _ & Htokens & _).
  apply Htokens. apply (bool_decide_unpack _). vm_compute. exact I.
Defined.

(** X7: an ingredient matches as soon as the tokens of some pantry item
    are among its own, or its own tokens among those of the item (both
    having tokens); in particular an ingredient with a token matches a
    pantry that holds it.  In exact arithmetic always, in binary64 for an
    ingredient of at most 200 tokens. *)
Theorem nested_tokens_match :
  (∀ (ingredient item : string) (pantry : gset string),
     item ∈ pantry → tokenize ingredient ≠ ∅ → tokenize item ≠ ∅ →
     tokenize item ⊆ tokenize ingredient ∨ tokenize ingredient ⊆ tokenize item →
     ingredient_matches (F:=Q) ingredient pantry = true)
  ∧ (∀ (ingredient item : string) (pantry : gset string),
       size (tokenize ingredient) ≤ 200 →
       item ∈ pantry → tokenize ingredient ≠ ∅ → tokenize item ≠ ∅ →
       tokenize item ⊆ tokenize ingredient ∨ tokenize ingredient ⊆ tokenize item →
       ingredient_matches (F:=float) ingredient pantry = true)
  ∧ (∀ (ingredient : string) (pantry : gset string),
       size (tokenize ingredient) ≤ 200 →
       ingredient ∈ pantry → tokenize ingredient ≠ ∅ →
       ingredient_matches (F:=float) ingredient pantry = true).
Proof.
  assert (Hcover : ∀ ingredient item : string,
            tokenize ingredient ≠ ∅ → tokenize item ≠ ∅ →
            tokenize item ⊆ tokenize ingredient ∨ tokenize ingredient ⊆ tokenize item →
            0 < size (tokenize ingredient ∩ tokenize item)
            ∧ 3 * Nat.min (size (tokenize ingredient)) (size (tokenize item))
              ≤ 5 * size (tokenize ingredient ∩ tokenize item)).
  { intros ingredient item Hi Ht Hnested.
    destruct (MatcherMore.nested_overlap (tokenize ingredient) (tokenize item))
      as [Hpos Hsize]; [exact Hi|exact Ht|tauto|]. lia. }
  split; [|split].
  - intros ingredient item pantry Hin Hi Ht Hnested.
    apply MatcherMore.matches_arith_exact. exists item. split; [exact Hin|]. now apply Hcover.
  - intros ingredient item pantry Hsmall Hin Hi Ht Hnested.
    apply MatcherMore.matches_arith_binary64; [exact Hsmall|].
    exists item. split; [exact Hin|]. now apply Hcover.
  - intros ingredient pantry Hsmall Hin Hi.
    apply MatcherMore.matches_arith_binary64; [exact Hsmall|].
    exists ingredient. split; [exact Hin|]. apply Hcover; auto.
Qed.

(** The longer phrase in the recipe and the longer phrase in the pantry. *)
Lemma nested_tokens_match_witness :
  ingredient_matches (F:=Q) "extra virgin olive oil" {["olive oil"]} = true
  ∧ ingredient_matches (F:=float) "oil" (list_to_set ["salt"; "extra virgin olive oil"])
    = true.
Proof.
  destruct nested_tokens_match as (Hexact & Hfloat & _). split.
  - apply (Hexact _ "olive oil").
    + set_solver.
    + apply (bool_decide_unpack _). vm_compute. exact I.
    + apply (bool_decide_unpack _). vm_compute. exact I.
    + left. apply (bool_decide_unpack _). vm_compute. exact I.
  - apply (Hfloat _ "extra virgin olive oil").
    + vm_compute. lia.
    + set_solver.
    + apply (bool_decide_unpack _). vm_compute. exact I.
    + apply (bool_decide_unpack _). vm_compute. exact I.
    + right. apply (bool_decide_unpack _). vm_compute. exact I.
Defined.

(** X8: an ingredient of one token matches exactly when some pantry item
    has that token among its own: a whole-word occurrence, never a part of
    a word.  In exact arithmetic and in binary64. *)
Theorem single_token_matches :
  (∀ (ingredient : string) (pantry : gset string),
     size (tokenize ingredient) = 1 →
     ingredient_matches (F:=Q) ingredient pantry = true
     ↔ ∃ item, item ∈ pantry ∧ tokenize ingredient ⊆ tokenize item)
  ∧ (∀ (ingredient : string) (pantry : gset string),
       size (tokenize ingredient) = 1 →
       ingredient_matches (F:=float) ingredient pantry = true
       ↔ ∃ item, item ∈ pantry ∧ tokenize ingredient ⊆ tokenize item).
Proof.
  split; intros ingredient pantry Hone.
  - rewrite MatcherMore.matches_arith_exact. split.
    + intros (item & Hin & Hc). exists item. split; [exact Hin|].
      now apply (MatcherMore.single_overlap _ _ Hone).
    + intros (item & Hin & Hsub). exists item. split; [exact Hin|].
      now apply (MatcherMore.single_overlap _ _ Hone).
  - rewrite MatcherMore.matches_arith_binary64 by lia. split.
    + intros (item & Hin & Hc). exists item. split; [exact Hin|].
      now apply (MatcherMore.single_overlap _ _ Hone).
    + intros (item & Hin & Hsub). exists item. split; [exact Hin|].
      now apply (MatcherMore.single_overlap _ _ Hone).
Qed.

(** The word "egg" against "eggplant" and against "boiled egg". *)
Lemma single_token_matches_witness :
  (ingredient_matches (F:=float) "egg" (list_to_set ["eggplant"; "boiled egg"]) = true
   ↔ ∃ item, item ∈ (list_to_set ["eggplant"; "boiled egg"] : gset string)
             ∧ tokenize "egg" ⊆ tokenize item).
Proof.
  destruct single_token_matches as (_ & Hfloat).
  apply Hfloat. vm_compute. reflexivity.
Defined.

(** ** Loading *)

Module LoadFacts.

Lemma load_entries_none {F : Type} (raw : list (RecipeData F)) :
  load_entries raw = None ↔ Exists unreadable raw.
Proof.
  induction raw as [|data rest IH]; simpl.
  - split; [discriminate|]. now inversion 1.
  - destruct (from_dict data) as [recipe|] eqn:Ed.
    + assert (Hread : ¬ unreadable data).
      { intros E. apply EntryFacts.from_dict_none in E. congruence. }
      destruct (load_entries rest) as [loaded|].
      * split; [discriminate|]. inversion 1 as [|? ? Hrest]; subst; [contradiction|].
        apply IH in Hrest. discriminate.
      * split; [|reflexivity]. intros _. apply Exists_cons_tl. now apply IH.
    + split; [|reflexivity]. intros _. apply Exists_cons_hd.
      now apply EntryFacts.from_dict_none.
Qed.

Lemma norm_list_app (a b : list string) : norm_list (a ++ b) = norm_list a ++ norm_list b.
Proof. unfold norm_list. now rewrite map_app, List.filter_app. Qed.

Lemma norm_list_fixed (items : list string) :
  Forall (λ item, item ≠ "" ∧ normalize_token item = item) items →
  norm_list items = items.
Proof.
  unfold norm_list. induction 1 as [|item rest [Hne Hfix] _ IH]; [reflexivity|].
  simpl. rewrite Hfix, (proj2 (NormalizeFacts.truthy_nonempty item) Hne). now f_equal.
Qed.

End LoadFacts.

(** X9: loading is all or nothing.  The conversion of the entries of the
    file ([load_entries]) returns recipes exactly when [Recipe.from_dict]
    returns a recipe for every entry, that is when every entry has a name
    and no read of a field raises (the entry is an object, [int] accepts
    its servings and [float] its macros, its lists can be iterated and the
    items of its ingredient lists are strings); then the recipes are the
    entries converted one by one, in their order.  One entry without a
    name, or with a field whose read raises, makes the whole load fail,
    whatever the other entries are. *)
Theorem load_entries_all_or_nothing :
  ∀ (F : Type) (raw : list (RecipeData F)),
    (∀ recipes, load_entries raw = Some recipes
                ↔ Forall2 (λ data recipe, from_dict data = Some recipe) raw recipes)
    ∧ (load_entries raw = None ↔ Exists unreadable raw)
    ∧ (∀ recipes, load_entries raw = Some recipes →
                  map (λ recipe, Some (name recipe)) recipes = map data_name raw).
Proof.
  intros F raw. split; [|split].
  - induction raw as [|data rest IH]; intros recipes; simpl.
    + split; [intros [= <-]; constructor|]. now inversion 1.
    + destruct (from_dict data) as [recipe|] eqn:Ed.
      * destruct (load_entries rest) as [loaded|].
        -- split.
           ++ intros [= <-]. constructor; [exact Ed|]. now apply IH.
           ++ inversion 1 as [|? r ? rs Hr Hrs]; subst. rewrite Ed in Hr.
              injection Hr as <-. apply IH in Hrs. now injection Hrs as <-.
        -- split; [discriminate|].
           inversion 1 as [|? r ? rs Hr Hrs]; subst. apply IH in Hrs. discriminate.
      * split; [discriminate|]. inversion 1; congruence.
  - apply LoadFacts.load_entries_none.
  - induction raw as [|data rest IH]; intros recipes; simpl.
    + now intros [= <-].
    + destruct (from_dict data) as [recipe|] eqn:Ed; [|discriminate].
      destruct (load_entries rest) as [loaded|]; [|discriminate].
      intros [= <-]. simpl. f_equal; [|now apply IH].
      destruct (EntryFacts.from_dict_some data recipe Ed)
        as (nm & core & supporting & sv & steps & ms & tg & -> & _ & _ & _ & _ & _ & _ & ->).
      reflexivity.
Qed.

(** The two sample entries, and the same two followed by an entry with a
    name whose servings [int] rejects. *)
Lemma load_entries_all_or_nothing_witness :
  map (λ recipe, Some (name recipe)) [Samples.syrup; Samples.omelette]
  = map data_name [Samples.raw_syrup; Samples.raw_omelette]
  ∧ load_entries
      [Samples.raw_syrup; Samples.raw_omelette;
       {| data_name := Some "Soup"; data_servings := Invalid;
          data_core_ingredients := Value ["leek"];
          data_supporting_ingredients := Absent; data_instructions := Absent;
          data_macros := Absent; data_tags := Absent; data_notes := None |}]
    = None.
Proof.
  split.
  - destruct (load_entries_all_or_nothing float [Samples.raw_syrup; Samples.raw_omelette])
      as (_ & _ & Hnames).
    apply Hnames. vm_compute. reflexivity.
  - apply (load_entries_all_or_nothing float).
    apply Exists_cons_tl, Exists_cons_tl, Exists_cons_hd.
    unfold unreadable. simpl. auto 10.
Defined.

(** X10: the normalization of an ingredient list keeps the order, never
    adds an entry, works entry by entry, and leaves a list of non-empty
    normal forms as it is; applied twice it gives what it gives applied
    once, so a stored recipe loads again to the same ingredient lists. *)
Theorem norm_list_stable :
  (∀ items : list string, norm_list (norm_list items) = norm_list items)
  ∧ (∀ a b : list string, norm_list (a ++ b) = norm_list a ++ norm_list b)
  ∧ (∀ items : list string, length (norm_list items) ≤ length items)
  ∧ (∀ items : list string,
       Forall (λ item, item ≠ "" ∧ normalize_token item = item) items →
       norm_list items = items)
  ∧ (∀ (F : Type) (data : RecipeData F) (recipe : Recipe F),
       from_dict data = Some recipe →
       from_dict {| data_name := Some (name recipe);
                    data_servings := Value (servings recipe);
                    data_core_ingredients := Value (core_ingredients recipe);
                    data_supporting_ingredients := Value (supporting_ingredients recipe);
                    data_instructions := Value (instructions recipe);
                    data_macros := Value (macros recipe);
                    data_tags := Value (tags recipe);
                    data_notes := Some (notes recipe) |}
       = Some recipe).
Proof.
  split; [|split; [|split; [|split]]].
  - intros items. apply LoadFacts.norm_list_fixed, NormalizeFacts.norm_list_stored.
  - exact LoadFacts.norm_list_app.
  - intros items. unfold norm_list.
    etransitivity; [apply List.filter_length_le|]. now rewrite List.length_map.
  - exact LoadFacts.norm_list_fixed.
  - intros F data recipe Hfrom.
    destruct (EntryFacts.from_dict_some data recipe Hfrom)
      as (nm & core & supporting & sv & steps & ms & tg & _ & _ & _ & _ & _ & _ & _ & ->).
    unfold from_dict. simpl.
    now rewrite !(LoadFacts.norm_list_fixed _ (NormalizeFacts.norm_list_stored _)).
Qed.

(** A list that is already normal, and the sample entry loaded twice. *)
Lemma norm_list_stable_witness :
  norm_list ["egg"; "bell pepper"] = ["egg"; "bell pepper"]
  ∧ from_dict {| data_name := Some (name Samples.omelette);
                 data_servings := Value (servings Samples.omelette);
                 data_core_ingredients := Value (core_ingredients Samples.omelette);
                 data_supporting_ingredients :=
                   Value (supporting_ingredients Samples.omelette);
                 data_instructions := Value (instructions Samples.omelette);
                 data_macros := Value (macros Samples.omelette);
                 data_tags := Value (tags Samples.omelette);
                 data_notes := Some (notes Samples.omelette) |}
    = Some Samples.omelette.
Proof.
  destruct norm_list_stable as (_ & _ & _ & Hfixed & Hreload). split.
  - apply Hfixed. repeat constructor; try discriminate; reflexivity.
  - apply (Hreload float Samples.raw_omelette). vm_compute. reflexivity.
Defined.

(** ** Coverage and balance again *)

Module ExactMore.

Local Open Scope Q_scope.

Lemma ratio_one_iff (hits len : nat) :
  (0 < len)%nat → of_int (F:=Q) hits / of_int len == 1 ↔ hits = len.
Proof.
  intros Hlen. destruct len as [|k]; [lia|]. simpl.
  unfold Qeq, Qdiv, Qmult, Qinv, inject_Z.
  change (Z.of_nat (S k)) with (Z.pos (Pos.of_succ_nat k)). cbn [Qnum Qden]. lia.
Qed.

(** The coverage score from the two shares. *)
Lemma score_of_shares (hits len shits slen : nat) :
  (0 < len)%nat →
  score_of_counts (F:=Q) hits len shits slen
  == of_int hits / of_int len * (3 # 4)
     + match slen with S _ => of_int shits / of_int slen | O => 0 end * (1 # 4).
Proof.
  intros Hlen. destruct len as [|k]; [lia|]. unfold score_of_counts, weighted.
  assert (E75 : lit (F:=Q) 75 100 == 3 # 4) by reflexivity.
  assert (E25 : lit (F:=Q) 25 100 == 1 # 4) by reflexivity.
  cbn [add mul exact]. change (@zero Q exact) with 0.
  destruct slen; rewrite E75, E25; reflexivity.
Qed.

Lemma abs_cases (x c : Q) : Qabs x == c → x == c ∨ x == - c.
Proof.
  intros E. destruct (Qlt_le_dec x 0) as [Hneg|Hpos].
  - right. rewrite Qabs_neg in E by now apply Qlt_le_weak. lra.
  - left. now rewrite Qabs_pos in E.
Qed.

Lemma abs_zero (x t : Q) : Qabs (x - t) == 0 → x == t.
Proof. intros E. apply abs_cases in E. destruct E; lra. Qed.

(** The three deviations of a map of ratios. *)
Lemma deviation_exact (ratios : gmap string Q) :
  deviation ratios "carbs" = Qabs (default 0 (ratios !! "carbs") - (4 # 10))
  ∧ deviation ratios "protein" = Qabs (default 0 (ratios !! "protein") - (3 # 10))
  ∧ deviation ratios "fat" = Qabs (default 0 (ratios !! "fat") - (3 # 10)).
Proof. repeat split. Qed.

Lemma deviation_nonneg (ratios : gmap string Q) (macro : string) :
  0 <= deviation ratios macro.
Proof. unfold deviation. apply Qabs_nonneg. Qed.

(** The balance test on the three deviations. *)
Lemma within_tolerance_exact (ratios : gmap string Q) :
  within_tolerance ratios = true
  ↔ deviation ratios "carbs" <= 1 # 10
    ∧ deviation ratios "protein" <= 1 # 10
    ∧ deviation ratios "fat" <= 1 # 10.
Proof.
  rewrite within_tolerance_unfold. simpl. rewrite !Qle_bool_iff.
  change (@RATIO_TOLERANCE Q exact) with (1 # 10). reflexivity.
Qed.

(** The score on the three deviations. *)
Lemma score_of_ratios_exact (ratios : gmap string Q) :
  score_of_ratios ratios
  == py_max zero
       (py_min one
          (1 - (deviation ratios "carbs" + deviation ratios "protein"
                + deviation ratios "fat") * (10 # 3))).
Proof.
  rewrite score_of_ratios_unfold. apply ExactMacroFacts.clamp_eq.
  apply ExactMacroFacts.raw_score_value.
Qed.

End ExactMore.

Lemma matches_nothing {F : Type} `{PyFloat F} (ingredient : string) :
  ingredient_matches ingredient ∅ = false.
Proof.
  destruct (ingredient_matches ingredient ∅) eqn:E; [|reflexivity].
  apply ingredient_matches_true in E as (item & Hin & _).
  now apply not_elem_of_empty in Hin.
Qed.

Lemma count_hits_nothing {F : Type} `{PyFloat F} (ingredients : list string) :
  count_hits ingredients ∅ = 0.
Proof.
  unfold count_hits. induction ingredients as [|i rest IH]; [reflexivity|].
  simpl. now rewrite matches_nothing.
Qed.

(** X11: in exact arithmetic, a recipe with core and supporting ingredients
    scores 1 exactly when all of both lists are matched; a recipe without
    supporting ingredients scores at most 0.75, and 0.75 exactly when all
    its core ingredients are matched; over the empty pantry every recipe
    scores 0. *)
Theorem coverage_extremes :
  ∀ (recipe : Recipe Q) (pantry : gset string),
    let core := core_ingredients recipe in
    let supporting := supporting_ingredients recipe in
    (core ≠ [] → supporting ≠ [] →
     (ingredient_score recipe pantry == 1)%Q
     ↔ count_hits (F:=Q) core pantry = length core
       ∧ count_hits (F:=Q) supporting pantry = length supporting)
    ∧ (core ≠ [] → supporting = [] →
       (ingredient_score recipe pantry <= 3 # 4)%Q
       ∧ ((ingredient_score recipe pantry == 3 # 4)%Q
          ↔ count_hits (F:=Q) core pantry = length core))
    ∧ (ingredient_score recipe ∅ == 0)%Q.
Proof.
  intros recipe pantry core supporting. subst core supporting.
  assert (Hlen : ∀ l : list string, l ≠ [] → 0 < length l).
  { intros [|? ?] Hl; [congruence|simpl; lia]. }
  split; [|split].
  - intros Hcore Hsupp. rewrite ingredient_score_counts.
    rewrite ExactMore.score_of_shares by auto.
    pose proof (ExactFacts.ratio_bounds _ _
                  (count_hits_le_length (F:=Q) (core_ingredients recipe) pantry)
                  (Hlen _ Hcore)) as Hc.
    pose proof (ExactFacts.ratio_bounds _ _
                  (count_hits_le_length (F:=Q) (supporting_ingredients recipe) pantry)
                  (Hlen _ Hsupp)) as Hs.
    pose proof (ExactMore.ratio_one_iff
                  (count_hits (F:=Q) (core_ingredients recipe) pantry) _
                  (Hlen _ Hcore)) as Hc1.
    pose proof (ExactMore.ratio_one_iff
                  (count_hits (F:=Q) (supporting_ingredients recipe) pantry) _
                  (Hlen _ Hsupp)) as Hs1.
    destruct (length (supporting_ingredients recipe)) as [|m] eqn:Em;
      [specialize (Hlen _ Hsupp); lia|].
    set (cr := (of_int _ / of_int _)%Q) in *. set (sr := (of_int _ / of_int _)%Q) in *.
    clearbody cr sr. split.
    + intros E. split; [apply Hc1|apply Hs1]; lra.
    + intros [E1 E2]. apply Hc1 in E1. apply Hs1 in E2. lra.
  - intros Hcore Hsupp. rewrite ingredient_score_counts, Hsupp.
    rewrite ExactMore.score_of_shares by auto. cbn [length].
    pose proof (ExactFacts.ratio_bounds _ _
                  (count_hits_le_length (F:=Q) (core_ingredients recipe) pantry)
                  (Hlen _ Hcore)) as Hc.
    pose proof (ExactMore.ratio_one_iff
                  (count_hits (F:=Q) (core_ingredients recipe) pantry) _
                  (Hlen _ Hcore)) as Hc1.
    set (cr := (of_int _ / of_int _)%Q) in *. clearbody cr.
    split; [lra|]. split.
    + intros E. apply Hc1. lra.
    + intros E. apply Hc1 in E. lra.
  - rewrite ingredient_score_counts, !count_hits_nothing.
    destruct (core_ingredients recipe) as [|c cs] eqn:Ec; [reflexivity|].
    rewrite ExactMore.score_of_shares by (simpl; lia).
    destruct (length (supporting_ingredients recipe)); vm_compute; reflexivity.
Qed.

(** A recipe whose three ingredients are in the pantry, and one without
    supporting ingredients. *)
Lemma coverage_extremes_witness :
  (ingredient_score (F:=Q)
     {| name := "omelette"; servings := 1; core_ingredients := ["egg"; "tomato"];
        supporting_ingredients := ["cheese"]; instructions := []; macros := ∅;
        tags := []; notes := "" |} (list_to_set ["egg"; "tomato"; "cheese"]) == 1)%Q
  ∧ (ingredient_score (F:=Q)
       {| name := "boiled egg"; servings := 1; core_ingredients := ["egg"];
          supporting_ingredients := []; instructions := []; macros := ∅;
          tags := []; notes := "" |} {["egg"]} <= 3 # 4)%Q.
Proof.
  split.
  - apply coverage_extremes; [discriminate|discriminate|]. vm_compute. auto.
  - apply coverage_extremes; [discriminate|reflexivity].
Defined.

Lemma grams_agree {F : Type} `{PyFloat F} (self other : Recipe F) (macro : string) :
  macros self !! macro = macros other !! macro → grams self macro = grams other macro.
Proof. unfold grams. now intros ->. Qed.

(** X12: the ratios, the balance test and the balance score of a recipe
    depend only on its grams of carbs, protein and fat: two recipes that
    agree on these three have the same ratios, are balanced together and
    have the same balance score, whatever their other macros (fiber),
    names and ingredients are. *)
Theorem balance_depends_on_three_macros :
  ∀ (F : Type) (HF : PyFloat F) (self other : Recipe F),
    macros self !! "carbs" = macros other !! "carbs" →
    macros self !! "protein" = macros other !! "protein" →
    macros self !! "fat" = macros other !! "fat" →
    macro_ratios self = macro_ratios other
    ∧ is_balanced self = is_balanced other
    ∧ balance_score self = balance_score other.
Proof.
  intros F HF self other Hc Hp Hf.
  assert (E : macro_ratios self = macro_ratios other).
  { unfold macro_ratios. rewrite !calories_unfold.
    cbn [keys map fst TARGET_RATIOS getitem CAL_FACTORS String.eqb Ascii.eqb Bool.eqb].
    now rewrite (grams_agree self other "carbs" Hc), (grams_agree self other "protein" Hp),
      (grams_agree self other "fat" Hf). }
  unfold is_balanced, balance_score. now rewrite E.
Qed.

(** The sample macros with 12 grams of fiber added, under another name. *)
Lemma balance_depends_on_three_macros_witness :
  is_balanced (F:=float)
    {| name := "bran bowl"; servings := 4; core_ingredients := ["bran"];
       supporting_ingredients := []; instructions := [];
       macros := <["fiber" := 12%float]> Samples.on_target; tags := []; notes := "" |}
  = is_balanced Samples.omelette.
Proof.
  apply (balance_depends_on_three_macros float binary64); reflexivity.
Defined.

(** X13: a recipe without calories is never balanced and has balance score
    0, in binary64 and in exact arithmetic; so a recipe that lists no
    macros is never suggested, and every suggested recipe has calories that
    are not [<= 0]. *)
Theorem zero_calories_unbalanced :
  (∀ self : Recipe float,
     PrimFloat.leb (calories self) 0 = true →
     is_balanced self = false ∧ balance_score self = 0%float)
  ∧ (∀ self : Recipe Q,
       (calories self <= 0)%Q → is_balanced self = false ∧ balance_score self = 0%Q)
  ∧ (∀ self : Recipe float, macros self = ∅ → is_balanced self = false)
  ∧ (∀ self : Recipe Q, macros self = ∅ → is_balanced self = false)
  ∧ (∀ (recipes : list (Recipe float)) (pantry : gset string) (entry : float * Recipe float),
       In entry (score_recipes recipes pantry) →
       PrimFloat.leb (calories (snd entry)) 0 = false).
Proof.
  assert (Hfloat : ∀ self : Recipe float,
            PrimFloat.leb (calories self) 0 = true →
            is_balanced self = false ∧ balance_score self = 0%float).
  { intros self Hcal. unfold is_balanced, balance_score.
    assert (Hzero : leb (calories self) zero = true) by exact Hcal.
    rewrite (macro_ratios_zero self Hzero). split; vm_compute; reflexivity. }
  assert (Hexact : ∀ self : Recipe Q,
            (calories self <= 0)%Q →
            is_balanced self = false ∧ balance_score self = 0%Q).
  { intros self Hcal. unfold is_balanced, balance_score.
    assert (Hzero : leb (calories self) zero = true)
      by exact (proj2 (Qle_bool_iff _ _) Hcal).
    rewrite (macro_ratios_zero self Hzero). split; vm_compute; reflexivity. }
  split; [exact Hfloat|]. split; [exact Hexact|]. split; [|split].
  - intros self Hnone. apply Hfloat. rewrite calories_unfold. unfold grams.
    rewrite Hnone, !lookup_empty. vm_compute. reflexivity.
  - intros self Hnone. apply Hexact. rewrite calories_unfold. unfold grams.
    rewrite Hnone, !lookup_empty. vm_compute. discriminate.
  - intros recipes pantry entry Hin.
    pose proof (score_recipes_entries recipes pantry) as Hall.
    rewrite List.Forall_forall in Hall. destruct (Hall entry Hin) as (_ & Hbal & _).
    destruct (PrimFloat.leb (calories (snd entry)) 0) eqn:E; [|reflexivity].
    destruct (Hfloat _ E). congruence.
Qed.

(** A recipe without macros, and one with negative grams. *)
Lemma zero_calories_unbalanced_witness :
  is_balanced (F:=float)
    {| name := "water"; servings := 1; core_ingredients := ["water"];
       supporting_ingredients := []; instructions := []; macros := ∅;
       tags := []; notes := "" |} = false
  ∧ balance_score (F:=Q)
      {| name := "ice"; servings := 1; core_ingredients := ["ice"];
         supporting_ingredients := []; instructions := [];
         macros := {["carbs" := (-5)%Q]}; tags := []; notes := "" |} = 0%Q.
Proof.
  destruct zero_calories_unbalanced as (_ & Hexact & Hnone & _). split.
  - apply Hnone. reflexivity.
  - apply Hexact. vm_compute. discriminate.
Defined.

Module ScaleFacts.

Local Open Scope Q_scope.

(** The balance test and the score see the ratios up to equality of fractions. *)
Lemma balance_respects_ratios (ratios ratios' : gmap string Q) :
  default 0 (ratios !! "carbs") == default 0 (ratios' !! "carbs") →
  default 0 (ratios !! "protein") == default 0 (ratios' !! "protein") →
  default 0 (ratios !! "fat") == default 0 (ratios' !! "fat") →
  within_tolerance ratios = within_tolerance ratios'
  ∧ score_of_ratios ratios == score_of_ratios ratios'.
Proof.
  intros Hc Hp Hf.
  destruct (ExactMore.deviation_exact ratios) as (Ec & Ep & Ef).
  destruct (ExactMore.deviation_exact ratios') as (Ec' & Ep' & Ef').
  assert (Dc : deviation ratios "carbs" == deviation ratios' "carbs")
    by (rewrite Ec, Ec', Hc; reflexivity).
  assert (Dp : deviation ratios "protein" == deviation ratios' "protein")
    by (rewrite Ep, Ep', Hp; reflexivity).
  assert (Df : deviation ratios "fat" == deviation ratios' "fat")
    by (rewrite Ef, Ef', Hf; reflexivity).
  split.
  - apply Bool.eq_true_iff_eq. rewrite !ExactMore.within_tolerance_exact.
    now rewrite Dc, Dp, Df.
  - rewrite !ExactMore.score_of_ratios_exact. apply ExactMacroFacts.clamp_eq.
    now rewrite Dc, Dp, Df.
Qed.

Section Scaled.

Variables (k : Q) (self scaled : Recipe Q).
Hypothesis k_pos : 0 < k.
Hypothesis scaled_macros : macros scaled = Qmult k <$> macros self.

Lemma grams_scaled (macro : string) : grams scaled macro == k * grams self macro.
Proof.
  unfold grams. rewrite scaled_macros, lookup_fmap.
  destruct (macros self !! macro); simpl; [reflexivity|].
  change (@zero Q exact) with 0. ring.
Qed.

Lemma calories_scaled : calories scaled == k * calories self.
Proof.
  rewrite !ExactMacroFacts.calories_value, !grams_scaled. ring.
Qed.

Lemma ratio_scaled (macro : string) :
  macro = "carbs" ∨ macro = "protein" ∨ macro = "fat" →
  ratio scaled macro == ratio self macro.
Proof.
  intros Hmacro. pose proof calories_scaled as Hcal.
  destruct (Qlt_le_dec 0 (calories self)) as [Hpos|Hle].
  - assert (Hpos' : 0 < calories scaled) by (rewrite Hcal; nra).
    destruct (ratio_pos self (proj2 (ExactMacroFacts.leb_false _ _) Hpos))
      as (Ec & Ep & Ef).
    destruct (ratio_pos scaled (proj2 (ExactMacroFacts.leb_false _ _) Hpos'))
      as (Ec' & Ep' & Ef').
    assert (Hk : ¬ k == 0) by lra.
    assert (Hc : ¬ calories self == 0) by lra.
    destruct Hmacro as [->|[->| ->]].
    + rewrite Ec, Ec'. cbn [mul div exact]. rewrite Hcal, grams_scaled. now field.
    + rewrite Ep, Ep'. cbn [mul div exact]. rewrite Hcal, grams_scaled. now field.
    + rewrite Ef, Ef'. cbn [mul div exact]. rewrite Hcal, grams_scaled. now field.
  - assert (Hle' : calories scaled <= 0) by (rewrite Hcal; nra).
    assert (Hz : leb (calories self) zero = true)
      by exact (proj2 (Qle_bool_iff _ _) Hle).
    assert (Hz' : leb (calories scaled) zero = true)
      by exact (proj2 (Qle_bool_iff _ _) Hle').
    destruct (ratio_zero self Hz) as (Ec & Ep & Ef).
    destruct (ratio_zero scaled Hz') as (Ec' & Ep' & Ef').
    destruct Hmacro as [->|[->| ->]]; congruence.
Qed.

End Scaled.

End ScaleFacts.

(** X14: in exact arithmetic balance does not depend on the size of the
    portion: multiplying all the grams of a recipe by a positive factor
    leaves its three ratios, its being balanced and its balance score
    unchanged. *)
Theorem balance_scale_invariant :
  ∀ (k : Q) (self scaled : Recipe Q),
    (0 < k)%Q → macros scaled = Qmult k <$> macros self →
    (ratio scaled "carbs" == ratio self "carbs")%Q
    ∧ (ratio scaled "protein" == ratio self "protein")%Q
    ∧ (ratio scaled "fat" == ratio self "fat")%Q
    ∧ is_balanced scaled = is_balanced self
    ∧ (balance_score scaled == balance_score self)%Q.
Proof.
  intros k self scaled Hk Hscaled.
  pose proof (ScaleFacts.ratio_scaled k self scaled Hk Hscaled "carbs"
                ltac:(auto)) as Hc.
  pose proof (ScaleFacts.ratio_scaled k self scaled Hk Hscaled "protein"
                ltac:(auto)) as Hp.
  pose proof (ScaleFacts.ratio_scaled k self scaled Hk Hscaled "fat"
                ltac:(auto)) as Hf.
  split; [exact Hc|]. split; [exact Hp|]. split; [exact Hf|].
  apply (ScaleFacts.balance_respects_ratios (macro_ratios scaled) (macro_ratios self));
    assumption.
Qed.

(** The exact sample macros for one serving and for three. *)
Lemma balance_scale_invariant_witness :
  is_balanced (F:=Q)
    {| name := "bowl"; servings := 3; core_ingredients := []; supporting_ingredients := [];
       instructions := [];
       macros := Qmult 3 <$> (<["carbs" := 50%Q]>
                                (<["protein" := (75 # 2)%Q]> {["fat" := (50 # 3)%Q]}));
       tags := []; notes := "" |}
  = is_balanced (F:=Q)
      {| name := "bowl"; servings := 1; core_ingredients := [];
         supporting_ingredients := []; instructions := [];
         macros := <["carbs" := 50%Q]> (<["protein" := (75 # 2)%Q]> {["fat" := (50 # 3)%Q]});
         tags := []; notes := "" |}.
Proof.
  apply (balance_scale_invariant 3); [reflexivity|reflexivity].
Defined.

(** X15: in exact arithmetic the balance test and the balance score fit
    together.  For a balanced recipe the clamp does nothing: its score is
    1 minus the sum of its three deviations times 10/3.  A score above 2/3
    is the score of a balanced recipe.  The score is 1 exactly when the
    three ratios are the targets. *)
Theorem gate_and_score :
  ∀ self : Recipe Q,
    let d macro := deviation (macro_ratios self) macro in
    (is_balanced self = true →
     (balance_score self == 1 - (d "carbs" + d "protein" + d "fat") * (10 # 3))%Q)
    ∧ ((2 # 3 < balance_score self)%Q → is_balanced self = true)
    ∧ ((balance_score self == 1)%Q
       ↔ (ratio self "carbs" == 4 # 10)%Q ∧ (ratio self "protein" == 3 # 10)%Q
         ∧ (ratio self "fat" == 3 # 10)%Q).
Proof.
  intros self d. subst d. unfold is_balanced, balance_score.
  pose proof (ExactMore.score_of_ratios_exact (macro_ratios self)) as Hscore.
  pose proof (ExactMore.within_tolerance_exact (macro_ratios self)) as Hgate.
  pose proof (ExactMore.deviation_nonneg (macro_ratios self) "carbs") as Hc.
  pose proof (ExactMore.deviation_nonneg (macro_ratios self) "protein") as Hp.
  pose proof (ExactMore.deviation_nonneg (macro_ratios self) "fat") as Hf.
  destruct (ExactMore.deviation_exact (macro_ratios self)) as (Ec & Ep & Ef).
  fold (ratio self "carbs") in Ec. fold (ratio self "protein") in Ep.
  fold (ratio self "fat") in Ef.
  set (dc := deviation (macro_ratios self) "carbs") in *.
  set (dp := deviation (macro_ratios self) "protein") in *.
  set (df := deviation (macro_ratios self) "fat") in *.
  set (score := score_of_ratios (macro_ratios self)) in *.
  destruct (ExactMacroFacts.clamp_cases (1 - (dc + dp + df) * (10 # 3))%Q)
    as [[Hx E]|[[[Hx Hx'] E]|[Hx E]]]; rewrite E in Hscore; clear E.
  - split; [|split].
    + intros Hbal. apply Hgate in Hbal. lra.
    + intros Hhigh. lra.
    + split; [intros E1; lra|].
      intros (E1 & E2 & E3).
      assert (dc == 0)%Q by (rewrite Ec, E1; reflexivity).
      assert (dp == 0)%Q by (rewrite Ep, E2; reflexivity).
      assert (df == 0)%Q by (rewrite Ef, E3; reflexivity). lra.
  - split; [|split].
    + intros _. exact Hscore.
    + intros Hhigh. apply Hgate. lra.
    + split; [intros E1; lra|].
      intros (E1 & E2 & E3).
      assert (dc == 0)%Q by (rewrite Ec, E1; reflexivity).
      assert (dp == 0)%Q by (rewrite Ep, E2; reflexivity).
      assert (df == 0)%Q by (rewrite Ef, E3; reflexivity). lra.
  - split; [|split].
    + intros _. lra.
    + intros _. apply Hgate. lra.
    + split; [|intros _; exact Hscore].
      intros _.
      assert (Hdc : (dc == 0)%Q) by lra. assert (Hdp : (dp == 0)%Q) by lra.
      assert (Hdf : (df == 0)%Q) by lra.
      rewrite Ec in Hdc. rewrite Ep in Hdp. rewrite Ef in Hdf.
      auto using ExactMore.abs_zero.
Qed.

(** The exact sample macros: balanced, with score 1. *)
Lemma gate_and_score_witness : is_balanced Samples.bowl = true.
Proof.
  apply gate_and_score. vm_compute. reflexivity.
Defined.

Module FloorFacts.

Local Open Scope Q_scope.

Lemma abs_value (x : Q) : (0 <= x ∧ Qabs x == x) ∨ (x < 0 ∧ Qabs x == - x).
Proof.
  destruct (Qlt_le_dec x 0) as [Hneg|Hpos].
  - right. split; [exact Hneg|]. apply Qabs_neg. now apply Qlt_le_weak.
  - left. split; [exact Hpos|]. now apply Qabs_pos.
Qed.

(** The deviations of a recipe: from ratios that are all 0, or that add
    up to 1 as the targets do. *)
Lemma deviations_of_recipe (self : Recipe Q) :
  ∃ c p f : Q,
    deviation (macro_ratios self) "carbs" == Qabs (c - (4 # 10))
    ∧ deviation (macro_ratios self) "protein" == Qabs (p - (3 # 10))
    ∧ deviation (macro_ratios self) "fat" == Qabs (f - (3 # 10))
    ∧ ((c == 0 ∧ p == 0 ∧ f == 0) ∨ c + p + f == 1).
Proof.
  exists (ratio self "carbs"), (ratio self "protein"), (ratio self "fat").
  destruct (ExactMore.deviation_exact (macro_ratios self)) as (Ec & Ep & Ef).
  rewrite Ec, Ep, Ef. repeat split; try reflexivity.
  destruct (Qlt_le_dec 0 (calories self)) as [Hpos|Hle].
  - right. now apply ExactMacroFacts.ratios_sum.
  - left. assert (Hz : leb (calories self) zero = true)
      by exact (proj2 (Qle_bool_iff _ _) Hle).
    destruct (ratio_zero self Hz) as (-> & -> & ->). repeat split; reflexivity.
Qed.

(** Within the tolerance the deviations add up to at most 0.2. *)
Lemma balanced_deviations (self : Recipe Q) :
  is_balanced self = true →
  deviation (macro_ratios self) "carbs" + deviation (macro_ratios self) "protein"
  + deviation (macro_ratios self) "fat" <= 2 # 10.
Proof.
  unfold is_balanced. intros Hbal. apply ExactMore.within_tolerance_exact in Hbal.
  destruct (deviations_of_recipe self) as (c & p & f & Ec & Ep & Ef & Hsum).
  rewrite Ec, Ep, Ef in *. clear Ec Ep Ef.
  destruct (abs_value (c - (4 # 10))) as [[Hc Ac]|[Hc Ac]];
    destruct (abs_value (p - (3 # 10))) as [[Hp Ap]|[Hp Ap]];
    destruct (abs_value (f - (3 # 10))) as [[Hf Af]|[Hf Af]];
    rewrite Ac, Ap, Af in *; destruct Hsum as [(Zc & Zp & Zf)|Hsum]; lra.
Qed.

Lemma balanced_floor (self : Recipe Q) :
  is_balanced self = true → 1 # 3 <= balance_score self.
Proof.
  intros Hbal. pose proof (balanced_deviations self Hbal) as Hsum.
  unfold balance_score.
  pose proof (ExactMore.score_of_ratios_exact (macro_ratios self)) as Hscore.
  pose proof (ExactMore.deviation_nonneg (macro_ratios self) "carbs") as Hc.
  pose proof (ExactMore.deviation_nonneg (macro_ratios self) "protein") as Hp.
  pose proof (ExactMore.deviation_nonneg (macro_ratios self) "fat") as Hf.
  set (dc := deviation (macro_ratios self) "carbs") in *.
  set (dp := deviation (macro_ratios self) "protein") in *.
  set (df := deviation (macro_ratios self) "fat") in *.
  set (score := score_of_ratios (macro_ratios self)) in *.
  destruct (ExactMacroFacts.clamp_cases (1 - (dc + dp + df) * (10 # 3)))
    as [[Hx E]|[[[Hx Hx'] E]|[Hx E]]]; rewrite E in Hscore; lra.
Qed.

End FloorFacts.

(** X16: in exact arithmetic a balanced recipe has a balance score of at
    least 1/3.  The ratios of a recipe are all 0 or add up to 1 as the
    targets do, so deviations within the tolerance add up to at most 0.2,
    never to 0.3: the score 0 that three deviations of 0.1 would give is
    out of reach of a balanced recipe. *)
Theorem balanced_score_floor :
  ∀ self : Recipe Q,
    is_balanced self = true →
    (deviation (macro_ratios self) "carbs" + deviation (macro_ratios self) "protein"
     + deviation (macro_ratios self) "fat" <= 2 # 10)%Q
    ∧ (1 # 3 <= balance_score self)%Q.
Proof.
  intros self Hbal. split.
  - now apply FloorFacts.balanced_deviations.
  - now apply FloorFacts.balanced_floor.
Qed.

(** A recipe at the floor: half of its calories from carbs, 0.3 from
    protein and 0.2 from fat. *)
Lemma balanced_score_floor_witness :
  (1 # 3
   <= balance_score (F:=Q)
        {| name := "rice bowl"; servings := 1; core_ingredients := [];
           supporting_ingredients := []; instructions := [];
           macros := <["carbs" := (125 # 1)%Q]>
                       (<["protein" := (75 # 1)%Q]> {["fat" := (200 # 9)%Q]});
           tags := []; notes := "" |})%Q.
Proof.
  apply balanced_score_floor. vm_compute. reflexivity.
Defined.

(** ** Missing ingredients *)

Module MissingFacts.

Section Missing.

Context {F : Type} `{PyFloat F}.

(** The ingredients of a list that are not matched and those that are. *)
Lemma unmatched_length (ingredients : list string) (pantry : gset string) :
  length (List.filter (λ ingredient, negb (ingredient_matches ingredient pantry)) ingredients)
  + count_hits ingredients pantry
  = length ingredients.
Proof.
  unfold count_hits. induction ingredients as [|i rest IH]; [reflexivity|].
  simpl. destruct (ingredient_matches i pantry); simpl; lia.
Qed.

Lemma unmatched_none (ingredients : list string) (pantry : gset string) :
  List.filter (λ ingredient, negb (ingredient_matches ingredient pantry)) ingredients = []
  ↔ count_hits ingredients pantry = length ingredients.
Proof.
  pose proof (unmatched_length ingredients pantry) as Hlen. split.
  - intros E. rewrite E in Hlen. exact Hlen.
  - intros E. apply length_zero_iff_nil. lia.
Qed.

Lemma unmatched_mono (ingredients : list string) (P Q : gset string) :
  P ⊆ Q →
  List.filter (λ ingredient, negb (ingredient_matches ingredient Q)) ingredients
  `sublist_of`
  List.filter (λ ingredient, negb (ingredient_matches ingredient P)) ingredients.
Proof.
  intros Hsub. induction ingredients as [|i rest IH]; simpl; [constructor|].
  destruct (ingredient_matches i P) eqn:EP.
  - rewrite (ingredient_matches_mono i P Q Hsub EP). exact IH.
  - simpl. destruct (ingredient_matches i Q); simpl; now constructor.
Qed.

Lemma unmatched_all (ingredients : list string) :
  List.filter (λ ingredient, negb (ingredient_matches ingredient ∅)) ingredients
  = ingredients.
Proof.
  induction ingredients as [|i rest IH]; [reflexivity|].
  simpl. now rewrite matches_nothing, IH.
Qed.

End Missing.

End MissingFacts.

(** X17: the missing ingredients of a recipe and its matched ingredients
    split each list: the number of missing core (supporting) ingredients
    and the number of hits that the coverage score counts add up to the
    length of the list, so nothing is missing exactly when every
    ingredient is a hit.  A larger pantry leaves a sublist of what a
    smaller one leaves, in the same order; over the empty pantry the two
    lists are missing entirely. *)
Theorem missing_complements_hits :
  ∀ (F : Type) (HF : PyFloat F) (self : Recipe F) (pantry : gset string),
    let core := core_ingredients self in
    let supporting := supporting_ingredients self in
    (length (fst (missing self pantry)) + count_hits core pantry = length core
     ∧ length (snd (missing self pantry)) + count_hits supporting pantry
       = length supporting)
    ∧ (missing self pantry = ([], [])
       ↔ count_hits core pantry = length core
         ∧ count_hits supporting pantry = length supporting)
    ∧ (∀ larger : gset string,
         pantry ⊆ larger →
         fst (missing self larger) `sublist_of` fst (missing self pantry)
         ∧ snd (missing self larger) `sublist_of` snd (missing self pantry))
    ∧ missing self ∅ = (core, supporting).
Proof.
  intros F HF self pantry core supporting. subst core supporting. unfold missing.
  cbn [fst snd]. split; [|split; [|split]].
  - split; apply MissingFacts.unmatched_length.
  - rewrite <- !MissingFacts.unmatched_none. split.
    + intros E. injection E as E1 E2. auto.
    + intros [E1 E2]. now rewrite E1, E2.
  - intros larger Hsub. split; now apply MissingFacts.unmatched_mono.
  - now rewrite !MissingFacts.unmatched_all.
Qed.

(** The sample omelette when cheese is added to a pantry with egg. *)
Lemma missing_complements_hits_witness :
  fst (missing Samples.omelette (list_to_set ["egg"; "cheese"]))
  `sublist_of` fst (missing Samples.omelette {["egg"]}).
Proof.
  destruct (missing_complements_hits float binary64 Samples.omelette {["egg"]})
    as (_ & _ & Hmono & _).
  apply Hmono. apply (bool_decide_unpack _). vm_compute. exact I.
Defined.

(** ** The pantry and the recipe file normalize alike *)

Module StockFacts.

Lemma split_on_free (sep : ascii) (chunk : chars) :
  ¬ In sep chunk → Str.split_on sep chunk = [chunk].
Proof.
  induction chunk as [|ch rest IH]; intros Hfree; [reflexivity|].
  simpl. destruct (Ascii.eqb_spec ch sep) as [->|Hne].
  - exfalso. apply Hfree. now left.
  - rewrite IH; [reflexivity|]. intros Hin. apply Hfree. now right.
Qed.

(** A stored name, not empty and fixed by the normalizer, has a token. *)
Lemma stored_has_token (item : string) :
  item ≠ "" → normalize_token item = item → tokenize item ≠ ∅.
Proof.
  intros Hne Hfix Hnone. apply TokenFacts.tokenize_empty in Hnone.
  apply Hne. rewrite <- Hfix. unfold normalize_token.
  rewrite <- Hfix in Hnone. unfold normalize_token in Hnone.
  rewrite list_ascii_of_string_of_list_ascii in Hnone.
  rewrite NormalizeFacts.normalize_chars_unfold in *.
  rewrite StrFacts.split_join in Hnone by apply StrFacts.split_words.
  now rewrite Hnone.
Qed.

Lemma parse_free_in (raw_inputs : list string) (x : string) :
  Forall (λ raw, ¬ In ","%char (list_ascii_of_string raw)) raw_inputs →
  x ∈ parse_ingredients raw_inputs ↔ In x (norm_list raw_inputs).
Proof.
  intros Hfree. rewrite List.Forall_forall in Hfree.
  rewrite PantryFacts.parse_ingredients_in. unfold norm_list.
  rewrite filter_In, in_map_iff. split.
  - intros (chunk & piece & Hc & Hp & E & Hne).
    rewrite (split_on_free _ _ (Hfree _ Hc)) in Hp. destruct Hp as [<-|[]].
    unfold piece_token in E. rewrite string_of_list_ascii_of_string in E.
    split; [exists chunk; auto|]. now apply NormalizeFacts.truthy_nonempty.
  - intros [(raw & E & Hin) Ht]. exists raw, (list_ascii_of_string raw).
    split; [exact Hin|]. split; [rewrite (split_on_free _ _ (Hfree _ Hin)); now left|].
    unfold piece_token. rewrite string_of_list_ascii_of_string.
    split; [exact E|]. now apply NormalizeFacts.truthy_nonempty.
Qed.

Section Stocked.

Context {F : Type} `{PyFloat F}.

(** What decides that a stored ingredient found in the pantry matches:
    the arithmetic of the coverage test, exact or bounded. *)
Variable small : string → Prop.

Hypothesis held_matches :
  ∀ (ingredient : string) (pantry : gset string),
    small ingredient → ingredient ∈ pantry → tokenize ingredient ≠ ∅ →
    ingredient_matches ingredient pantry = true.

Lemma stocked_none (ingredients : list string) (pantry : gset string) :
  Forall (λ item, item ≠ "" ∧ normalize_token item = item) ingredients →
  Forall small ingredients →
  (∀ item, In item ingredients → item ∈ pantry) →
  List.filter (λ ingredient, negb (ingredient_matches ingredient pantry)) ingredients = [].
Proof.
  intros Hstored Hsmall Hheld.
  induction Hstored as [|i rest [Hne Hfix] _ IH]; [reflexivity|].
  apply Forall_cons in Hsmall as [Hi Hrest].
  simpl. rewrite held_matches.
  - simpl. apply IH; [exact Hrest|]. intros item Hin. apply Hheld. now right.
  - exact Hi.
  - apply Hheld. now left.
  - now apply stored_has_token.
Qed.

Lemma stocked_missing (data : RecipeData F) (recipe : Recipe F) (pantry : gset string) :
  from_dict data = Some recipe →
  Forall small (core_ingredients recipe ++ supporting_ingredients recipe) →
  (∀ item, In item (core_ingredients recipe ++ supporting_ingredients recipe) →
           item ∈ pantry) →
  missing recipe pantry = ([], []).
Proof.
  intros Hload Hsmall Hin. apply Forall_app in Hsmall as [Hc Hs].
  destruct (EntryFacts.from_dict_lists data recipe Hload) as [Ec Es]. unfold missing.
  rewrite (stocked_none (core_ingredients recipe) pantry).
  - rewrite (stocked_none (supporting_ingredients recipe) pantry); [reflexivity| | |].
    + rewrite Es. apply NormalizeFacts.norm_list_stored.
    + exact Hs.
    + intros item Hi. apply Hin, in_or_app. now right.
  - rewrite Ec. apply NormalizeFacts.norm_list_stored.
  - exact Hc.
  - intros item Hi. apply Hin, in_or_app. now left.
Qed.

Lemma stocked_names (data : RecipeData F) (recipe : Recipe F) :
  let names := items (data_core_ingredients data)
               ++ items (data_supporting_ingredients data) in
  from_dict data = Some recipe →
  Forall small (core_ingredients recipe ++ supporting_ingredients recipe) →
  Forall (λ raw, ¬ In ","%char (list_ascii_of_string raw)) names →
  missing recipe (parse_ingredients names) = ([], []).
Proof.
  intros names Hload Hsmall Hfree. apply (stocked_missing data); [exact Hload|exact Hsmall|].
  intros item Hin. apply (parse_free_in _ _ Hfree).
  destruct (EntryFacts.from_dict_lists data recipe Hload) as [Ec Es].
  subst names. rewrite LoadFacts.norm_list_app, <- Ec, <- Es. exact Hin.
Qed.

End Stocked.

Lemma held_overlap (ingredient : string) :
  tokenize ingredient ≠ ∅ →
  0 < size (tokenize ingredient ∩ tokenize ingredient)
  ∧ 3 * Nat.min (size (tokenize ingredient)) (size (tokenize ingredient))
    ≤ 5 * size (tokenize ingredient ∩ tokenize ingredient).
Proof.
  intros Hne.
  destruct (MatcherMore.nested_overlap (tokenize ingredient) (tokenize ingredient))
    as [Hpos Hsize]; [exact Hne|exact Hne|now left|]. lia.
Qed.

Lemma held_matches_exact (ingredient : string) (pantry : gset string) :
  True → ingredient ∈ pantry → tokenize ingredient ≠ ∅ →
  ingredient_matches (F:=Q) ingredient pantry = true.
Proof.
  intros _ Hin Hne. apply MatcherMore.matches_arith_exact. exists ingredient.
  split; [exact Hin|now apply held_overlap].
Qed.

Lemma held_matches_binary64 (ingredient : string) (pantry : gset string) :
  size (tokenize ingredient) ≤ 200 → ingredient ∈ pantry → tokenize ingredient ≠ ∅ →
  ingredient_matches (F:=float) ingredient pantry = true.
Proof.
  intros Hsmall Hin Hne. apply MatcherMore.matches_arith_binary64; [exact Hsmall|].
  exists ingredient. split; [exact Hin|now apply held_overlap].
Qed.

End StockFacts.

(** X18: an input without a comma is one piece, so on inputs without
    commas the parsed pantry holds exactly what [Recipe.from_dict] stores
    for the same list of names: the normal forms other than the empty
    string. *)
Theorem pantry_of_names :
  ∀ raw_inputs : list string,
    Forall (λ raw, ¬ In ","%char (list_ascii_of_string raw)) raw_inputs →
    parse_ingredients raw_inputs = list_to_set (norm_list raw_inputs).
Proof.
  intros raw_inputs Hfree. apply set_eq. intros x.
  rewrite elem_of_list_to_set, list_elem_of_In. now apply StockFacts.parse_free_in.
Qed.

(** Three names, one of them without a letter or digit. *)
Lemma pantry_of_names_witness :
  parse_ingredients ["Bell  Pepper"; "!"; "egg"]
  = list_to_set (norm_list ["Bell  Pepper"; "!"; "egg"]).
Proof.
  apply pantry_of_names. repeat constructor; vm_compute; intuition discriminate.
Defined.

(** X19: a loaded recipe misses nothing over a pantry that holds its
    stored ingredients; so when the names of the recipe file have no comma
    and are given as the inputs, nothing is missing.  In exact arithmetic
    always, in binary64 for ingredients of at most 200 tokens. *)
Theorem stocked_recipe_misses_nothing :
  (∀ (data : RecipeData Q) (recipe : Recipe Q) (pantry : gset string),
     from_dict data = Some recipe →
     (∀ item, In item (core_ingredients recipe ++ supporting_ingredients recipe) →
              item ∈ pantry) →
     missing recipe pantry = ([], []))
  ∧ (∀ (data : RecipeData Q) (recipe : Recipe Q),
       let names := items (data_core_ingredients data)
                    ++ items (data_supporting_ingredients data) in
       from_dict data = Some recipe →
       Forall (λ raw, ¬ In ","%char (list_ascii_of_string raw)) names →
       missing recipe (parse_ingredients names) = ([], []))
  ∧ (∀ (data : RecipeData float) (recipe : Recipe float) (pantry : gset string),
       from_dict data = Some recipe →
       Forall (λ item, size (tokenize item) ≤ 200)
              (core_ingredients recipe ++ supporting_ingredients recipe) →
       (∀ item, In item (core_ingredients recipe ++ supporting_ingredients recipe) →
                item ∈ pantry) →
       missing recipe pantry = ([], []))
  ∧ (∀ (data : RecipeData float) (recipe : Recipe float),
       let names := items (data_core_ingredients data)
                    ++ items (data_supporting_ingredients data) in
       from_dict data = Some recipe →
       Forall (λ item, size (tokenize item) ≤ 200)
              (core_ingredients recipe ++ supporting_ingredients recipe) →
       Forall (λ raw, ¬ In ","%char (list_ascii_of_string raw)) names →
       missing recipe (parse_ingredients names) = ([], [])).
Proof.
  assert (Hall : ∀ l : list string, Forall (λ _ : string, True) l).
  { intros l. apply List.Forall_forall. auto. }
  split; [|split; [|split]].
  - intros data recipe pantry Hload Hin.
    exact (StockFacts.stocked_missing _ StockFacts.held_matches_exact
             data recipe pantry Hload (Hall _) Hin).
  - intros data recipe names Hload Hfree.
    exact (StockFacts.stocked_names _ StockFacts.held_matches_exact
             data recipe Hload (Hall _) Hfree).
  - intros data recipe pantry Hload Hsmall Hin.
    exact (StockFacts.stocked_missing _ StockFacts.held_matches_binary64
             data recipe pantry Hload Hsmall Hin).
  - intros data recipe names Hload Hsmall Hfree.
    exact (StockFacts.stocked_names _ StockFacts.held_matches_binary64
             data recipe Hload Hsmall Hfree).
Qed.

(** The sample omelette over its own names, as the file gives them. *)
Lemma stocked_recipe_misses_nothing_witness :
  missing Samples.omelette
    (parse_ingredients
       (items (data_core_ingredients Samples.raw_omelette)
        ++ items (data_supporting_ingredients Samples.raw_omelette)))
  = ([], []).
Proof.
  destruct stocked_recipe_misses_nothing as (_ & _ & _ & Hnames).
  apply (Hnames Samples.raw_omelette).
  - reflexivity.
  - repeat constructor; vm_compute; lia.
  - repeat constructor; vm_compute; intuition discriminate.
Defined.

(** ** The ranking over two pantries *)

Module RankMore.

Local Open Scope Q_scope.

Lemma positive_length (l : list string) : l ≠ [] → (0 < length l)%nat.
Proof. destruct l; [congruence|simpl; lia]. Qed.

Lemma ingredient_score_bounds (recipe : Recipe Q) (pantry : gset string) :
  0 <= ingredient_score recipe pantry <= 1.
Proof.
  rewrite ingredient_score_counts.
  destruct (core_ingredients recipe) as [|c cs] eqn:Ec.
  { vm_compute. split; discriminate. }
  rewrite <- Ec. assert (Hc : core_ingredients recipe ≠ []) by (rewrite Ec; discriminate).
  rewrite ExactMore.score_of_shares by now apply positive_length.
  pose proof (ExactFacts.ratio_bounds _ _
                (count_hits_le_length (F:=Q) (core_ingredients recipe) pantry)
                (positive_length _ Hc)) as Hcore.
  set (cr := of_int _ / of_int _) in *. clearbody cr.
  destruct (supporting_ingredients recipe) as [|s ss] eqn:Es; cbn [length]; [lra|].
  rewrite <- Es.
  assert (Hs : supporting_ingredients recipe ≠ []) by (rewrite Es; discriminate).
  pose proof (ExactFacts.ratio_bounds _ _
                (count_hits_le_length (F:=Q) (supporting_ingredients recipe) pantry)
                (positive_length _ Hs)) as Hsupp.
  rewrite Es in *. cbn [length] in *.
  set (sr := of_int _ / of_int _) in *. clearbody sr. lra.
Qed.

Lemma ingredient_score_mono (recipe : Recipe Q) (P Q' : gset string) :
  P ⊆ Q' → ingredient_score recipe P <= ingredient_score recipe Q'.
Proof.
  intros Hsub. rewrite !ingredient_score_counts.
  destruct (core_ingredients recipe) as [|c cs] eqn:Ec; [apply Qle_refl|].
  rewrite <- Ec. assert (Hc : core_ingredients recipe ≠ []) by (rewrite Ec; discriminate).
  rewrite !ExactMore.score_of_shares by now apply positive_length.
  pose proof (ExactFacts.ratio_le _ _ _
                (count_hits_mono (F:=Q) (core_ingredients recipe) P Q' Hsub)
                (positive_length _ Hc)) as Hcore.
  set (cp := of_int _ / of_int _) in *. set (cq := of_int _ / of_int _) in *.
  clearbody cp cq.
  destruct (supporting_ingredients recipe) as [|s ss] eqn:Es; cbn [length]; [lra|].
  rewrite <- Es.
  assert (Hs : supporting_ingredients recipe ≠ []) by (rewrite Es; discriminate).
  pose proof (ExactFacts.ratio_le _ _ _
                (count_hits_mono (F:=Q) (supporting_ingredients recipe) P Q' Hsub)
                (positive_length _ Hs)) as Hsupp.
  rewrite Es in *. cbn [length] in *.
  set (sp := of_int _ / of_int _) in *. set (sq := of_int _ / of_int _) in *.
  clearbody sp sq. lra.
Qed.

Lemma rank_score_value (recipe : Recipe Q) (pantry : gset string) :
  rank_score recipe pantry
  == ingredient_score recipe pantry * (8 # 10) + balance_score recipe * (2 # 10).
Proof. reflexivity. Qed.

Lemma balance_score_bounds (recipe : Recipe Q) : 0 <= balance_score recipe <= 1.
Proof. apply ExactMacroFacts.clamp_bounds_exact. Qed.

Lemma rank_score_bounds (recipe : Recipe Q) (pantry : gset string) :
  is_balanced recipe = true → 1 # 15 <= rank_score recipe pantry <= 1.
Proof.
  intros Hbal. rewrite rank_score_value.
  pose proof (ingredient_score_bounds recipe pantry).
  pose proof (balance_score_bounds recipe).
  pose proof (FloorFacts.balanced_floor recipe Hbal). lra.
Qed.

Lemma rank_score_mono (recipe : Recipe Q) (P Q' : gset string) :
  P ⊆ Q' → rank_score recipe P <= rank_score recipe Q'.
Proof.
  intros Hsub. rewrite !rank_score_value.
  pose proof (ingredient_score_mono recipe P Q' Hsub). lra.
Qed.

(** The first entry of a descending list has the largest score. *)
Lemma descending_head (first : Q * Recipe Q) (rest : list (Q * Recipe Q))
    (entry : Q * Recipe Q) :
  descending (first :: rest) → In entry (first :: rest) → fst entry <= fst first.
Proof.
  intros Hd Hin. apply StronglySorted_inv in Hd as [_ Hall].
  destruct Hin as [<-|Hin]; [apply Qle_refl|].
  rewrite List.Forall_forall in Hall. now apply Qle_bool_iff, Hall.
Qed.

Lemma score_recipes_descending (recipes : list (Recipe Q)) (pantry : gset string) :
  descending (score_recipes recipes pantry).
Proof.
  rewrite score_recipes_unfold. apply (sort_desc_descending (λ _, True)).
  apply List.Forall_forall. auto.
Qed.

Lemma score_recipes_in {F : Type} `{PyFloat F} (recipes : list (Recipe F))
    (pantry : gset string) (entry : F * Recipe F) :
  In entry (score_recipes recipes pantry)
  ↔ fst entry = rank_score (snd entry) pantry
    ∧ is_balanced (snd entry) = true ∧ In (snd entry) recipes.
Proof.
  rewrite score_recipes_unfold. split.
  - intros Hin. apply (Permutation_in _ (sort_desc_perm _)) in Hin.
    apply List.in_map_iff in Hin as (recipe & <- & Hin).
    apply filter_In in Hin as [Hin Hbal]. auto.
  - intros (E & Hbal & Hin).
    apply (Permutation_in _ (Permutation_sym (sort_desc_perm _))).
    apply List.in_map_iff. exists (snd entry). split.
    + unfold scored_entry. rewrite <- E. now destruct entry.
    + apply filter_In. auto.
Qed.

End RankMore.

(** X20: the ranking of a collection holds the same recipes whatever the
    pantry is; the pantry decides only scores and order.  In exact
    arithmetic every score of the ranking lies between 1/15 (a balanced
    recipe of which nothing is at hand) and 1, the score of a recipe can
    only grow with the pantry, and so can the score of the first entry. *)
Theorem ranking_over_pantries :
  (∀ (F : Type) (HF : PyFloat F) (recipes : list (Recipe F)) (P P' : gset string),
     Permutation (map snd (score_recipes recipes P)) (map snd (score_recipes recipes P')))
  ∧ (∀ (recipes : list (Recipe Q)) (pantry : gset string),
       Forall (λ entry, (1 # 15 <= fst entry <= 1)%Q) (score_recipes recipes pantry))
  ∧ (∀ (recipe : Recipe Q) (P P' : gset string),
       P ⊆ P' → (rank_score recipe P <= rank_score recipe P')%Q)
  ∧ (∀ (recipes : list (Recipe Q)) (P P' : gset string) (best : Q * Recipe Q),
       P ⊆ P' → head (score_recipes recipes P) = Some best →
       ∃ best', head (score_recipes recipes P') = Some best' ∧ (fst best <= fst best')%Q).
Proof.
  split; [|split; [|split]].
  - intros F HF recipes P Q'. rewrite !score_recipes_unfold.
    rewrite !sort_desc_perm, !map_map. reflexivity.
  - intros recipes pantry. apply List.Forall_forall. intros entry Hin.
    apply RankMore.score_recipes_in in Hin as (-> & Hbal & _).
    now apply RankMore.rank_score_bounds.
  - exact RankMore.rank_score_mono.
  - intros recipes P Q' best Hsub Hbest.
    assert (Hin : In best (score_recipes recipes P)).
    { destruct (score_recipes recipes P); [discriminate|].
      injection Hbest as <-. now left. }
    apply RankMore.score_recipes_in in Hin as (Escore & Hbal & Hin).
    assert (Hin' : In (rank_score (snd best) Q', snd best) (score_recipes recipes Q')).
    { apply RankMore.score_recipes_in. auto. }
    pose proof (RankMore.score_recipes_descending recipes Q') as Hd.
    destruct (score_recipes recipes Q') as [|best' rest]; [destruct Hin'|].
    exists best'. split; [reflexivity|]. rewrite Escore.
    apply Qle_trans with (rank_score (snd best) Q').
    + now apply RankMore.rank_score_mono.
    + exact (RankMore.descending_head best' rest _ Hd Hin').
Qed.

(** A collection of one balanced recipe, before and after cheese is added
    to a pantry with egg. *)
Lemma ranking_over_pantries_witness :
  ∃ best', head (score_recipes [Samples.bowl] (list_to_set ["egg"; "cheese"])) = Some best'
           ∧ (fst (rank_score Samples.bowl {["egg"]}, Samples.bowl) <= fst best')%Q.
Proof.
  destruct ranking_over_pantries as (_ & _ & _ & Hbest).
  apply (Hbest [Samples.bowl] {["egg"]}).
  - apply (bool_decide_unpack _). vm_compute. exact I.
  - vm_compute. reflexivity.
Defined.

(** ** What a run prints *)

Module RunFacts.

Lemma firstn_in {A : Type} (n : nat) (l : list A) (x : A) : In x (firstn n l) → In x l.
Proof. intros Hin. rewrite <- (firstn_skipn n l). apply in_or_app. now left. Qed.

Section Run.

Context {F : Type} `{PyFloat F}.

Lemma render_ranks (rank : nat) (matches : list (F * Recipe F)) (pantry : gset string)
    (show : bool) :
  map shown_rank (render rank matches pantry show) = seq rank (length matches).
Proof.
  revert rank. induction matches as [|[score recipe] rest IH]; intros rank; simpl;
    [reflexivity|]. now rewrite IH.
Qed.

Lemma render_entries (rank : nat) (matches : list (F * Recipe F)) (pantry : gset string)
    (show : bool) :
  map (λ shown, (shown_score shown, shown_recipe shown)) (render rank matches pantry show)
  = matches.
Proof.
  revert rank. induction matches as [|[score recipe] rest IH]; intros rank; simpl;
    [reflexivity|]. now rewrite IH.
Qed.

Lemma render_missing (rank : nat) (matches : list (F * Recipe F)) (pantry : gset string)
    (show : bool) :
  Forall (λ shown,
            shown_missing shown
            = if show then Some (missing (shown_recipe shown) pantry) else None)
         (render rank matches pantry show).
Proof.
  revert rank. induction matches as [|[score recipe] rest IH]; intros rank; simpl;
    constructor; [reflexivity|apply IH].
Qed.

(** What [main] has passed when it returns. *)
Lemma main_returned (args : Args) (world : World F) (status : Z)
    (out : list (Suggestion F)) (err : list string) :
  main args world = Returned status out err →
  resolve_pantry args world ≠ ∅
  ∧ ∃ recipes,
      load_recipes world (Path (args_recipes args)) = Some recipes
      ∧ ((score_recipes recipes (resolve_pantry args world) = []
          ∧ status = 1%Z ∧ out = [])
         ∨ (status = 0%Z ∧ err = []
            ∧ out = render 1 (firstn (Z.to_nat (Z.max 1 (args_top args)))
                                     (score_recipes recipes (resolve_pantry args world)))
                           (resolve_pantry args world) (args_show_missing args))).
Proof.
  unfold main. destruct (decide (resolve_pantry args world = ∅)) as [|Hne]; [discriminate|].
  destruct (file_at world (Path (args_recipes args))); [|discriminate].
  destruct (load_recipes world (Path (args_recipes args))) as [recipes|]; [|discriminate].
  intros E. split; [exact Hne|]. exists recipes. split; [reflexivity|].
  destruct (score_recipes recipes (resolve_pantry args world)) as [|first rest].
  - injection E as <- <- <-. left. auto.
  - injection E as <- <- <-. right. auto.
Qed.


End Run.

End RunFacts.

(** X21: when [main] returns, the pantry was not empty and the collection
    was loaded, and what it printed are the first [max(1, top)] entries of
    the ranking of the collection over that pantry: numbered from 1, with
    the scores and recipes of the ranking in its order, each recipe
    balanced and taken from the collection, and each with its missing
    ingredients over the same pantry exactly when they were asked for. *)
Theorem main_prints_ranking_prefix :
  ∀ (F : Type) (HF : PyFloat F) (args : Args) (world : World F) (status : Z)
    (out : list (Suggestion F)) (err : list string),
    main args world = Returned status out err →
    let pantry := resolve_pantry args world in
    pantry ≠ ∅
    ∧ ∃ recipes,
        load_recipes world (Path (args_recipes args)) = Some recipes
        ∧ map shown_rank out = seq 1 (length out)
        ∧ map (λ shown, (shown_score shown, shown_recipe shown)) out
          = firstn (Z.to_nat (Z.max 1 (args_top args))) (score_recipes recipes pantry)
        ∧ Forall (λ shown,
                    is_balanced (shown_recipe shown) = true
                    ∧ In (shown_recipe shown) recipes
                    ∧ shown_score shown = rank_score (shown_recipe shown) pantry
                    ∧ shown_missing shown
                      = if args_show_missing args
                        then Some (missing (shown_recipe shown) pantry) else None)
                 out.
Proof.
  intros F HF args world status out err Hrun pantry. subst pantry.
  destruct (RunFacts.main_returned args world status out err Hrun)
    as (Hne & recipes & Hload & Hcases).
  split; [exact Hne|]. exists recipes. split; [exact Hload|].
  set (pantry := resolve_pantry args world) in *.
  set (limit := Z.to_nat (Z.max 1 (args_top args))) in *.
  destruct Hcases as [(Hnone & _ & ->)|(_ & _ & ->)].
  { rewrite Hnone, firstn_nil. repeat split; constructor. }
  split; [|split].
  - now rewrite RunFacts.render_ranks, render_length.
  - apply RunFacts.render_entries.
  - pose proof (RunFacts.render_missing 1 (firstn limit (score_recipes recipes pantry))
                  pantry (args_show_missing args)) as Hmiss.
    pose proof (RunFacts.render_entries 1 (firstn limit (score_recipes recipes pantry))
                  pantry (args_show_missing args)) as Hentries.
    rewrite List.Forall_forall in *. intros shown Hin.
    assert (Hentry : In (shown_score shown, shown_recipe shown)
                        (score_recipes recipes pantry)).
    { apply (RunFacts.firstn_in limit). rewrite <- Hentries.
      apply (List.in_map (λ shown, (shown_score shown, shown_recipe shown))), Hin. }
    apply RankMore.score_recipes_in in Hentry as (Hscore & Hbal & Hrec).
    repeat split; auto.
Qed.

(** The sample collection with egg and cheese at hand. *)
Lemma main_prints_ranking_prefix_witness :
  ∃ status out err,
    main (Samples.args_with ["Egg, cheese"] "data/recipes.json")
         (Samples.world_with [Samples.raw_omelette; Samples.raw_syrup])
    = Returned status out err
    ∧ map shown_rank out = seq 1 (length out).
Proof.
  eexists _, _, _. split; [vm_compute; reflexivity|].
  destruct (main_prints_ranking_prefix float binary64
              (Samples.args_with ["Egg, cheese"] "data/recipes.json")
              (Samples.world_with [Samples.raw_omelette; Samples.raw_syrup])
              _ _ _ eq_refl)
    as (_ & recipes & _ & Hranks & _).
  exact Hranks.
Defined.



(** ** The description of a recipe *)

Module DescribeFacts.

Lemma concat_nonempty (sep first : string) (rest : list string) :
  first ≠ "" → String.concat sep (first :: rest) ≠ "".
Proof.
  intros Hne. destruct first as [|ch first]; [congruence|].
  destruct rest; simpl; discriminate.
Qed.

(** The parts of [format_macros], from the four lookups. *)
Lemma format_macros_parts (macros : gmap string float) :
  format_macros macros
  = String.concat ", "
      (omap (λ macro,
               (λ grams, macro +:+ ": " +:+ Fmt.format_fixed 0 grams +:+ "g")
                 <$> macros !! macro)
            ["carbs"; "protein"; "fat"; "fiber"]).
Proof.
  unfold format_macros. cbn [fold_left omap list_omap].
  destruct (macros !! "carbs"), (macros !! "protein"), (macros !! "fat"),
    (macros !! "fiber"); reflexivity.
Qed.





End DescribeFacts.

(** X23: [format_macros] reads the grams of carbs, protein, fat and fiber
    and nothing else: two macro mappings that agree on these four give the
    same text, so adding, changing or removing any other macro changes
    nothing; the text is empty exactly when none of the four is listed (a
    macro that is not listed is left out, not shown as 0). *)
Theorem format_macros_shown :
  (∀ macros macros' : gmap string float,
     (∀ macro, In macro ["carbs"; "protein"; "fat"; "fiber"] →
               macros !! macro = macros' !! macro) →
     format_macros macros = format_macros macros')
  ∧ (∀ (macros : gmap string float) (macro : string) (grams : float),
       ¬ In macro ["carbs"; "protein"; "fat"; "fiber"] →
       format_macros (<[macro := grams]> macros) = format_macros macros
       ∧ format_macros (delete macro macros) = format_macros macros)
  ∧ (∀ macros : gmap string float,
       format_macros macros = ""
       ↔ ∀ macro, In macro ["carbs"; "protein"; "fat"; "fiber"] → macros !! macro = None).
Proof.
  assert (Hagree : ∀ macros macros' : gmap string float,
            (∀ macro, In macro ["carbs"; "protein"; "fat"; "fiber"] →
                      macros !! macro = macros' !! macro) →
            format_macros macros = format_macros macros').
  { intros macros macros' Hsame. rewrite !DescribeFacts.format_macros_parts.
    cbn [omap list_omap]. rewrite !Hsame by (simpl; auto). reflexivity. }
  split; [exact Hagree|]. split.
  - intros macros macro grams Hother. split; apply Hagree; intros shown Hin.
    + apply lookup_insert_ne. intros ->. contradiction.
    + apply lookup_delete_ne. intros ->. contradiction.
  - intros macros. rewrite DescribeFacts.format_macros_parts. cbn [omap list_omap].
    destruct (macros !! "carbs") eqn:Ec, (macros !! "protein") eqn:Ep,
      (macros !! "fat") eqn:Ef, (macros !! "fiber") eqn:Eb; cbn;
      (split;
       [ try discriminate; intros _ macro [<-|[<-|[<-|[<-|[]]]]]; assumption
       | intros Hnone; try reflexivity;
         pose proof (Hnone "carbs" ltac:(simpl; auto));
         pose proof (Hnone "protein" ltac:(simpl; auto));
         pose proof (Hnone "fat" ltac:(simpl; auto));
         pose proof (Hnone "fiber" ltac:(simpl; auto)); congruence ]).
Qed.

(** The sample macros with grams of sugar added. *)
Lemma format_macros_shown_witness :
  format_macros (<["sugar" := 12%float]> Samples.on_target) = format_macros Samples.on_target.
Proof.
  destruct format_macros_shown as (_ & Hother & _).
  apply Hother. simpl. intuition discriminate.
Defined.


(** Ties go to the even digit, a negative value that rounds to zero keeps
    its sign, and a large value is printed in full. *)
Example format_fixed_values :
  map (Fmt.format_fixed 0) [0.5; 1.5; 2.5; -0.25; 1e22]%float
  = ["0"; "2"; "2"; "-0"; "10000000000000000000000"]
  ∧ map (Fmt.format_fixed 2) [0.125; 0.375; 0.875; 1; 0x1.5666666666666p+1]%float
    = ["0.12"; "0.38"; "0.88"; "1.00"; "2.67"].
Proof. split; vm_compute; reflexivity. Qed.

Example describe_omelette :
  describe_lines Samples.omelette {["egg"]} true
  = [ "Omelette " +:+ separator +:+ " serves 1";
      "Tags: n/a";
      "Macros: carbs: 1g, protein: 1g, fat: 0g";
      "Instructions:";
      "  1. Whisk";
      "  2. Fry";
      "Missing ingredients:";
      "  Core: tomato";
      "  Supporting: cheese" ].
Proof. vm_compute. reflexivity. Qed.

(** ** The normalizer on phrases *)

Module PhraseFacts.

Lemma lower_app (a b : chars) : Str.lower (a ++ b) = Str.lower a ++ Str.lower b.
Proof. apply map_app. Qed.

Lemma join_app (ws ws' : list chars) :
  ws ≠ [] → ws' ≠ [] →
  Str.join [Chars.space] (ws ++ ws')
  = Str.join [Chars.space] ws ++ Chars.space :: Str.join [Chars.space] ws'.
Proof.
  intros Hne Hne'. induction ws as [|w rest IH]; [congruence|].
  destruct rest as [|w' rest'].
  - destruct ws' as [|v vs]; [congruence|]. reflexivity.
  - change (Str.join [Chars.space] ((w :: w' :: rest') ++ ws'))
      with (w ++ [Chars.space] ++ Str.join [Chars.space] ((w' :: rest') ++ ws')).
    rewrite IH by discriminate.
    change (Str.join [Chars.space] (w :: w' :: rest'))
      with (w ++ [Chars.space] ++ Str.join [Chars.space] (w' :: rest')).
    now rewrite <- !app_assoc.
Qed.

Lemma join_empty (ws : list chars) :
  Forall word ws → Str.join [Chars.space] ws = [] → ws = [].
Proof.
  intros Hw E. destruct ws as [|w rest]; [reflexivity|]. exfalso.
  apply Forall_cons in Hw as [[Hne _] _]. destruct w as [|ch w]; [congruence|].
  destruct rest; discriminate.
Qed.

(** The words that the normalizer joins. *)
Lemma cleaned_words_app (a b : chars) :
  Str.split (List.filter keep_char (Str.lower (a ++ Chars.space :: b)))
  = Str.split (List.filter keep_char (Str.lower a))
    ++ Str.split (List.filter keep_char (Str.lower b)).
Proof.
  rewrite lower_app, List.filter_app.
  change (Str.lower (Chars.space :: b)) with (Chars.space :: Str.lower b).
  change (List.filter keep_char (Chars.space :: Str.lower b))
    with (Chars.space :: List.filter keep_char (Str.lower b)).
  now apply StrMore.split_app_space.
Qed.

Lemma normalize_chars_app (a b : chars) :
  normalize_chars (a ++ Chars.space :: b)
  = match normalize_chars a, normalize_chars b with
    | [], nb => nb
    | na, [] => na
    | na, nb => na ++ Chars.space :: nb
    end.
Proof.
  rewrite !NormalizeFacts.normalize_chars_unfold, cleaned_words_app.
  pose proof (StrFacts.split_words (List.filter keep_char (Str.lower a))) as Ha.
  pose proof (StrFacts.split_words (List.filter keep_char (Str.lower b))) as Hb.
  set (wa := Str.split (List.filter keep_char (Str.lower a))) in *.
  set (wb := Str.split (List.filter keep_char (Str.lower b))) in *.
  destruct wa as [|w ws].
  { simpl. destruct (Str.join [Chars.space] wb); reflexivity. }
  destruct wb as [|v vs].
  { rewrite app_nil_r. destruct (Str.join [Chars.space] (w :: ws)); reflexivity. }
  rewrite join_app by discriminate.
  destruct (Str.join [Chars.space] (w :: ws)) eqn:Ea.
  { apply join_empty in Ea; [discriminate|exact Ha]. }
  destruct (Str.join [Chars.space] (v :: vs)) eqn:Eb.
  { apply join_empty in Eb; [discriminate|exact Hb]. }
  reflexivity.
Qed.

Lemma normalize_chars_lower (value : chars) :
  normalize_chars (Str.lower value) = normalize_chars value.
Proof.
  rewrite !NormalizeFacts.normalize_chars_unfold. do 3 f_equal.
  unfold Str.lower. rewrite map_map. apply map_ext. intros ch. apply CharFacts.lower_lower.
Qed.

Lemma string_of_app (a b : chars) :
  string_of_list_ascii (a ++ b) = string_of_list_ascii a +:+ string_of_list_ascii b.
Proof. induction a as [|ch rest IH]; simpl; [reflexivity|]. now rewrite IH. Qed.

Lemma normalize_token_app (a b : string) :
  normalize_token (a +:+ " " +:+ b)
  = match normalize_token a, normalize_token b with
    | "", nb => nb
    | na, "" => na
    | na, nb => na +:+ " " +:+ nb
    end.
Proof.
  unfold normalize_token. rewrite !StrMore.list_of_append.
  change (list_ascii_of_string " " ++ list_ascii_of_string b)
    with (Chars.space :: list_ascii_of_string b).
  rewrite normalize_chars_app.
  destruct (normalize_chars (list_ascii_of_string a)) as [|ch na];
    destruct (normalize_chars (list_ascii_of_string b)) as [|ch' nb]; try reflexivity.
  rewrite string_of_app. reflexivity.
Qed.

End PhraseFacts.

(** X25: the normalizer works word by word.  The normal form of two
    phrases joined by a space is the normal form of the one, a space and
    the normal form of the other (or just one of them when the other
    normalizes to the empty string), so its tokens are the tokens of the
    two normal forms.  Two inputs that differ only in the case of their
    letters have the same normal form. *)
Theorem normalize_token_phrases :
  (∀ a b : string,
     normalize_token (a +:+ " " +:+ b)
     = match normalize_token a, normalize_token b with
       | "", nb => nb
       | na, "" => na
       | na, nb => na +:+ " " +:+ nb
       end)
  ∧ (∀ a b : string,
       tokenize (normalize_token (a +:+ " " +:+ b))
       = tokenize (normalize_token a) ∪ tokenize (normalize_token b))
  ∧ (∀ s t : string,
       Str.lower (list_ascii_of_string s) = Str.lower (list_ascii_of_string t) →
       normalize_token s = normalize_token t).
Proof.
  split; [exact PhraseFacts.normalize_token_app|]. split.
  - intros a b. rewrite PhraseFacts.normalize_token_app.
    assert (Hnone : tokenize "" = ∅) by reflexivity.
    destruct (normalize_token a) as [|ch na] eqn:Ea.
    { rewrite Hnone. now rewrite union_empty_l_L. }
    destruct (normalize_token b) as [|ch' nb] eqn:Eb.
    { rewrite Hnone. now rewrite union_empty_r_L. }
    apply TokenFacts.tokenize_app_space.
  - intros s t Hlower. unfold normalize_token.
    rewrite <- (PhraseFacts.normalize_chars_lower (list_ascii_of_string s)).
    rewrite <- (PhraseFacts.normalize_chars_lower (list_ascii_of_string t)).
    now rewrite Hlower.
Qed.

(** Two spellings of one ingredient. *)
Lemma normalize_token_phrases_witness :
  normalize_token "Bell PEPPER" = normalize_token "bell pepper".
Proof.
  apply normalize_token_phrases. vm_compute. reflexivity.
Defined.

(** ** The coverage score in binary64 *)

Module ExtremeTables.

Lemma extremes_table_sound (bound h n k m : nat) :
  extremes_table bound = true →
  0 < n → h ≤ n → n ≤ bound → k ≤ m → m ≤ bound →
  (PrimFloat.eqb (score_of_counts h n k m) (if Nat.eqb m 0 then 0.75 else 1)%float = true
   ↔ h = n ∧ k = m)
  ∧ (PrimFloat.eqb (score_of_counts h n k m) 0 = true ↔ h = 0 ∧ k = 0).
Proof.
  intros Htable Hn Hh Hnb Hk Hmb.
  unfold extremes_table in Htable. rewrite forallb_forall in Htable.
  specialize (Htable n ltac:(apply in_seq; lia)). cbv beta in Htable.
  rewrite forallb_forall in Htable.
  specialize (Htable h ltac:(apply in_seq; lia)). cbv beta in Htable.
  rewrite forallb_forall in Htable.
  specialize (Htable m ltac:(apply in_seq; lia)). cbv beta in Htable.
  rewrite forallb_forall in Htable.
  specialize (Htable k ltac:(apply in_seq; lia)). cbv beta zeta in Htable.
  apply andb_true_iff in Htable as [Hfull Hzero].
  apply Bool.eqb_prop in Hfull, Hzero. rewrite Hfull, Hzero.
  rewrite !andb_true_iff, !Nat.eqb_eq. tauto.
Qed.

Lemma extremes_table_16 : extremes_table 16 = true.
Proof. vm_compute. reflexivity. Qed.

Lemma score_extremes_binary64 (h n k m : nat) :
  0 < n → h ≤ n → n ≤ 16 → k ≤ m → m ≤ 16 →
  (PrimFloat.eqb (score_of_counts h n k m) (if Nat.eqb m 0 then 0.75 else 1)%float = true
   ↔ h = n ∧ k = m)
  ∧ (PrimFloat.eqb (score_of_counts h n k m) 0 = true ↔ h = 0 ∧ k = 0).
Proof. exact (extremes_table_sound 16 h n k m extremes_table_16). Qed.

End ExtremeTables.

(** X26: in binary64, for a recipe with core ingredients whose two lists
    have at most 16 ingredients: the coverage score equals 1.0 exactly
    when all of both lists are matched (with supporting ingredients),
    equals 0.75 exactly when all core ingredients are matched (without
    supporting ingredients), and equals 0.0 exactly when no ingredient is
    matched. *)
Theorem coverage_extremes_binary64 :
  ∀ (recipe : Recipe float) (pantry : gset string),
    let core := core_ingredients recipe in
    let supporting := supporting_ingredients recipe in
    let hits := count_hits (F:=float) core pantry in
    let supporting_hits := count_hits (F:=float) supporting pantry in
    core ≠ [] → length core ≤ 16 → length supporting ≤ 16 →
    (supporting ≠ [] →
     PrimFloat.eqb (ingredient_score recipe pantry) 1 = true
     ↔ hits = length core ∧ supporting_hits = length supporting)
    ∧ (supporting = [] →
       PrimFloat.eqb (ingredient_score recipe pantry) 0.75 = true ↔ hits = length core)
    ∧ (PrimFloat.eqb (ingredient_score recipe pantry) 0 = true
       ↔ hits = 0 ∧ supporting_hits = 0).
Proof.
  intros recipe pantry core supporting hits supporting_hits Hcore Hlen Hslen.
  subst core supporting hits supporting_hits.
  rewrite ingredient_score_counts.
  destruct (ExtremeTables.score_extremes_binary64
              (count_hits (F:=float) (core_ingredients recipe) pantry)
              (length (core_ingredients recipe))
              (count_hits (F:=float) (supporting_ingredients recipe) pantry)
              (length (supporting_ingredients recipe)))
    as [Hfull Hzero];
    [now apply RankMore.positive_length|apply count_hits_le_length|exact Hlen
    |apply count_hits_le_length|exact Hslen|].
  split; [|split; [|exact Hzero]].
  - intros Hsupp. apply RankMore.positive_length in Hsupp.
    destruct (length (supporting_ingredients recipe)) as [|m] eqn:Em; [lia|].
    exact Hfull.
  - intros Hsupp. rewrite Hsupp in *. cbn [length Nat.eqb] in Hfull.
    rewrite Hfull. unfold count_hits. simpl. tauto.
Qed.

(** The sample omelette with its three ingredients at hand. *)
Lemma coverage_extremes_binary64_witness :
  PrimFloat.eqb (ingredient_score Samples.omelette (list_to_set ["egg"; "tomato"; "cheese"])) 1
  = true.
Proof.
  apply coverage_extremes_binary64; [discriminate|simpl; lia|simpl; lia|discriminate|].
  vm_compute. auto.
Defined.
